(** * Verification of the session / verification orchestration layer

    A shallow embedding of the Python sources of the 2FA desktop client
    (token lifecycle, request engine, verification state and service,
    verification panels, realtime channel, worker dispatch; beside them
    the event bus, the merchant cache, the validators and the string
    utilities of the formatters and of the data protection helpers) and
    the properties proved about them.

    Conventions of the embedding.
    - A Python [str] is a [string]; its characters are the code points
      below 256, so the character classes used by the validators
      ([str.isdigit], [str.isspace], the regular-expression escapes) are
      written out for that range.
    - A Python [int] is a [Z].  A [datetime] is the number of microseconds
      it denotes and a [timedelta] a number of microseconds, both in [Z];
      the program only builds [now + 3600 s] and [expires_at - 300 s], and
      the bounds of the representable range of [datetime] are not modelled.
    - A value of type [Any] (a JSON scalar taken from a dict) is a [pyval].
    - A [Dict[str, Any]] is a [gmap string pyval].
    - Module-level singletons and class attributes are fields of one
      [World] record that every operation threads through a state and
      exception monad.
    - Logging is not modelled. *)

From Stdlib Require Import ZArith Lia Ascii String List.
From stdpp Require Import base option list strings gmap pretty.

Local Open Scope string_scope.
Local Open Scope Z_scope.
Local Open Scope list_scope.

(* ===================================================================== *)
(** * Python values *)
(* ===================================================================== *)

Module Py.

(** The JSON scalars that flow through the dictionaries of the client. *)
Inductive pyval : Type :=
| PNone
| PBool (b : bool)
| PInt (z : Z)
| PStr (s : string).

Abbreviation Dict := (gmap string pyval).

(** [bool(v)] *)
Definition truthy (v : pyval) : bool :=
  match v with
  | PNone => false
  | PBool b => b
  | PInt z => negb (z =? 0)
  | PStr s => negb (String.eqb s EmptyString)
  end.

(** [a or b] *)
Definition py_or (a b : pyval) : pyval := if truthy a then a else b.

(** [str(v)] *)
Definition py_str (v : pyval) : string :=
  match v with
  | PNone => "None"
  | PBool true => "True"
  | PBool false => "False"
  | PInt z => pretty z
  | PStr s => s
  end.

(** [d.get(k)] and [d.get(k, dflt)] *)
Definition dict_get (d : Dict) (k : string) : pyval := default PNone (d !! k).
Definition dict_get_or (d : Dict) (k : string) (dflt : pyval) : pyval :=
  default dflt (d !! k).

(** [bool(d)] for a dict: non-empty. *)
Definition dict_truthy (d : Dict) : bool := negb (bool_decide (d = ∅)).

(** Exceptions.  [Exception_] is an instance of [Exception], the class the
    handlers [except Exception] name; [BaseException_] is one that derives
    from [BaseException] only ([SystemExit], [KeyboardInterrupt]).
    The first field is the class name, the second is [str(exc)]. *)
Inductive exn : Type :=
| Exception_ (cls msg : string)
| BaseException_ (cls msg : string).

Definition exn_str (e : exn) : string :=
  match e with Exception_ _ m | BaseException_ _ m => m end.

Definition is_Exception (e : exn) : bool :=
  match e with Exception_ _ _ => true | BaseException_ _ _ => false end.

(** The result of running a piece of Python: a value or a raised exception. *)
Inductive outcome (A : Type) : Type :=
| Ret (a : A)
| Raise (e : exn).
Arguments Ret {A} a.
Arguments Raise {A} e.

(** ** Strings *)

Definition code (c : ascii) : N := N_of_ascii c.

Definition in_range (lo hi : N) (c : ascii) : bool :=
  ((lo <=? code c) && (code c <=? hi))%N.

(** [str.isdigit] on one character: the decimal digits and the
    superscripts U+00B2, U+00B3, U+00B9. *)
Definition char_isdigit (c : ascii) : bool :=
  in_range 48 57 c || in_range 178 179 c || (code c =? 185)%N.

(** [\d] in a [str] pattern: the characters of category Nd. *)
Definition char_isdecimal (c : ascii) : bool := in_range 48 57 c.

(** [str.isspace] on one character, also [\s] in a [str] pattern. *)
Definition char_isspace (c : ascii) : bool :=
  in_range 9 13 c || in_range 28 32 c || (code c =? 133)%N || (code c =? 160)%N.

Definition char_isalpha_ascii (c : ascii) : bool :=
  in_range 65 90 c || in_range 97 122 c.

Definition char_ishex (c : ascii) : bool :=
  in_range 48 57 c || in_range 65 70 c || in_range 97 102 c.

Fixpoint str_all (p : ascii -> bool) (s : string) : bool :=
  match s with
  | EmptyString => true
  | String c s' => p c && str_all p s'
  end.

(** [len(s)] *)
Definition len (s : string) : Z := Z.of_nat (String.length s).

(** [s.isdigit()]: non-empty and every character a digit. *)
Definition isdigit (s : string) : bool :=
  match s with
  | EmptyString => false
  | _ => str_all char_isdigit s
  end.

(** [s.startswith(p)] *)
Definition startswith (p s : string) : bool := String.prefix p s.

(** [s.lstrip(chars)] for a one-character [chars]. *)
Fixpoint lstrip_char (c : ascii) (s : string) : string :=
  match s with
  | String c' s' => if Ascii.eqb c c' then lstrip_char c s' else s
  | EmptyString => EmptyString
  end.

(** [s.lstrip()], [s.rstrip()], [s.strip()] *)
Fixpoint lstrip (s : string) : string :=
  match s with
  | String c s' => if char_isspace c then lstrip s' else s
  | EmptyString => EmptyString
  end.

Fixpoint rstrip (s : string) : string :=
  match s with
  | EmptyString => EmptyString
  | String c s' =>
      match rstrip s' with
      | EmptyString => if char_isspace c then EmptyString else String c EmptyString
      | r => String c r
      end
  end.

Definition strip (s : string) : string := rstrip (lstrip s).

(** [''.join(c for c in s if not p(c))], what [re.sub(cls, '', s)] does
    for a one-character class [cls]. *)
Fixpoint str_remove (p : ascii -> bool) (s : string) : string :=
  match s with
  | EmptyString => EmptyString
  | String c s' => if p c then str_remove p s' else String c (str_remove p s')
  end.

End Py.
Export Py.

(* ===================================================================== *)
(** * Regular expressions, as [re.match] uses them in [utils/validators.py] *)
(* ===================================================================== *)

Module Regex.

Inductive regex : Type :=
| Void                              (* matches nothing *)
| Eps                               (* the empty string *)
| Cls (p : ascii -> bool)           (* one character of a class *)
| Cat (r1 r2 : regex)
| Alt (r1 r2 : regex)
| Star (r : regex).

Definition Chr (c : ascii) : regex := Cls (Ascii.eqb c).
Definition Plus (r : regex) : regex := Cat r (Star r).          (* r+ *)
Definition Opt (r : regex) : regex := Alt Eps r.                (* r? *)

(** [r{n}] *)
Fixpoint Rep (n : nat) (r : regex) : regex :=
  match n with
  | O => Eps
  | S n' => Cat r (Rep n' r)
  end.

(** [r{0,n}] *)
Fixpoint UpTo (n : nat) (r : regex) : regex :=
  match n with
  | O => Eps
  | S n' => Opt (Cat r (UpTo n' r))
  end.

Fixpoint nullable (r : regex) : bool :=
  match r with
  | Void => false
  | Eps => true
  | Cls _ => false
  | Cat r1 r2 => nullable r1 && nullable r2
  | Alt r1 r2 => nullable r1 || nullable r2
  | Star _ => true
  end.

Definition cat (r1 r2 : regex) : regex :=
  match r1, r2 with
  | Void, _ | _, Void => Void
  | Eps, r | r, Eps => r
  | _, _ => Cat r1 r2
  end.

Definition alt (r1 r2 : regex) : regex :=
  match r1, r2 with
  | Void, r | r, Void => r
  | _, _ => Alt r1 r2
  end.

(** Brzozowski derivative: what is left to match after reading [c]. *)
Fixpoint deriv (c : ascii) (r : regex) : regex :=
  match r with
  | Void | Eps => Void
  | Cls p => if p c then Eps else Void
  | Cat r1 r2 =>
      if nullable r1 then alt (cat (deriv c r1) r2) (deriv c r2)
      else cat (deriv c r1) r2
  | Alt r1 r2 => alt (deriv c r1) (deriv c r2)
  | Star r1 => cat (deriv c r1) (Star r1)
  end.

(** The whole of [s] is in the language of [r]. *)
Fixpoint fullmatch (r : regex) (s : string) : bool :=
  match s with
  | EmptyString => nullable r
  | String c s' => fullmatch (deriv c r) s'
  end.

(** [s[:-1]] when [s] ends with a newline. *)
Fixpoint chop_newline (s : string) : option string :=
  match s with
  | EmptyString => None
  | String c EmptyString => if Ascii.eqb c "010"%char then Some EmptyString else None
  | String c s' => option_map (String c) (chop_newline s')
  end.

(** [re.match('^' r '$', s) is not None]: the pattern is anchored at the
    start, and [$] matches at the end of the string or just before a
    newline that ends it. *)
Definition re_match (r : regex) (s : string) : bool :=
  fullmatch r s ||
  match chop_newline s with
  | Some s' => fullmatch r s'
  | None => false
  end.

End Regex.

(* ===================================================================== *)
(** * utils/validators.py *)
(* ===================================================================== *)

Module Validators.
Import Regex.

Definition one_of (cs : list ascii) (c : ascii) : bool :=
  existsb (Ascii.eqb c) cs.

(** [[a-zA-Z0-9._%+-]] *)
Definition email_local_char (c : ascii) : bool :=
  char_isalpha_ascii c || in_range 48 57 c
  || one_of ["."; "_"; "%"; "+"; "-"]%char c.

(** [[a-zA-Z0-9.-]] *)
Definition email_domain_char (c : ascii) : bool :=
  char_isalpha_ascii c || in_range 48 57 c || one_of ["."; "-"]%char c.

(** [r'^[a-zA-Z0-9._%+-]+@[a-zA-Z0-9.-]+\.[a-zA-Z]{2,}$'] *)
Definition email_pattern : regex :=
  Cat (Plus (Cls email_local_char))
 (Cat (Chr "@")
 (Cat (Plus (Cls email_domain_char))
 (Cat (Chr ".")
 (Cat (Rep 2 (Cls char_isalpha_ascii)) (Star (Cls char_isalpha_ascii)))))).

Definition validate_email (email : string) : bool * string :=
  if String.eqb email EmptyString then (false, "Email address is required")
  else if negb (re_match email_pattern email)
  then (false, "Invalid email address format")
  else if len email >? 254 then (false, "Email address is too long")
  else (true, EmptyString).

(** [[\s\-\(\)\.]] *)
Definition phone_separator (c : ascii) : bool :=
  char_isspace c || one_of ["-"; "("; ")"; "."]%char c.

(** [r'^\+?\d{10,15}$'] *)
Definition phone_pattern : regex :=
  Cat (Opt (Chr "+"))
 (Cat (Rep 10 (Cls char_isdecimal)) (UpTo 5 (Cls char_isdecimal))).

Definition validate_phone (phone : string) : bool * string :=
  if String.eqb phone EmptyString then (false, "Phone number is required")
  else
    let cleaned := str_remove phone_separator phone in
    if negb (re_match phone_pattern cleaned)
    then (false, "Invalid phone number format (10-15 digits required)")
    else (true, EmptyString).

Definition validate_pin (pin : string) : bool * string :=
  if String.eqb pin EmptyString then (false, "PIN is required")
  else if negb (isdigit pin) then (false, "PIN must contain only digits")
  else if negb (len pin =? 6) then (false, "PIN must be exactly 6 digits")
  else (true, EmptyString).

(** [r'^[0-9a-fA-F]{8}-[0-9a-fA-F]{4}-[0-9a-fA-F]{4}-[0-9a-fA-F]{4}-[0-9a-fA-F]{12}$'] *)
Definition uuid_pattern : regex :=
  let hex := Cls char_ishex in
  Cat (Rep 8 hex) (Cat (Chr "-")
 (Cat (Rep 4 hex) (Cat (Chr "-")
 (Cat (Rep 4 hex) (Cat (Chr "-")
 (Cat (Rep 4 hex) (Cat (Chr "-") (Rep 12 hex)))))))).

Definition digit_value (c : ascii) : Z := Z.of_N (code c) - 48.

(** The digits of an integer literal: decimal digits, single underscores
    between them. *)
Fixpoint int_digits (after_underscore : bool) (acc : Z) (s : string) : option Z :=
  match s with
  | EmptyString => if after_underscore then None else Some acc
  | String c s' =>
      if char_isdecimal c then int_digits false (10 * acc + digit_value c) s'
      else if Ascii.eqb c "_" then
        if after_underscore then None else int_digits true acc s'
      else None
  end.

(** [int(s)]: [None] stands for [ValueError].  The interpreter's optional
    cap on the number of digits of the literal is not modelled. *)
Definition py_int (s : string) : option Z :=
  let s := strip s in
  let '(negative, body) :=
    match s with
    | String "+" r => (false, r)
    | String "-" r => (true, r)
    | _ => (false, s)
    end in
  match body with
  | String c _ =>
      if char_isdecimal c then
        match int_digits false 0 body with
        | Some z => Some (if negative then - z else z)
        | None => None
        end
      else None
  | EmptyString => None
  end.

Definition validate_merchant_id (merchant_id : string) : bool * string :=
  if String.eqb merchant_id EmptyString then (false, "Merchant ID is required")
  else
    let merchant_id := strip merchant_id in
    if String.eqb merchant_id EmptyString then (false, "Merchant ID is required")
    else if re_match uuid_pattern merchant_id then (true, EmptyString)
    else
      match py_int merchant_id with
      | Some int_id =>
          if int_id <=? 0 then (false, "Merchant ID must be a positive number")
          else (true, EmptyString)
      | None =>
          if len merchant_id >? 50
          then (false, "Merchant ID is too long (max 50 characters)")
          else (true, EmptyString)
      end.

End Validators.


(* ===================================================================== *)
(** * config/settings.py *)
(* ===================================================================== *)

Module Settings.

(** The values [AppSettings] reads from [config.ini] or the process
    environment. *)
Record Config : Type := {
  API_BASE_URL : string;
  API_TIMEOUT : Z;
}.

(** Seconds before expiry at which a token is due for refresh. *)
Definition TOKEN_REFRESH_THRESHOLD : Z := 300.

(** [get_api_endpoints()[key]] for the keys the client layer uses. *)
Definition get_api_endpoints (cfg : Config) (key : string) : string :=
  let base := API_BASE_URL cfg in
  if String.eqb key "login" then base +:+ "/auth/login/"
  else if String.eqb key "refresh" then base +:+ "/auth/refresh/"
  else if String.eqb key "send_email_auth" then base +:+ "/auth/send-email/"
  else if String.eqb key "verify_pin" then base +:+ "/auth/verify-pin/"
  else if String.eqb key "verification_initiate" then base +:+ "/verification/initiate/"
  else if String.eqb key "verification_confirm" then base +:+ "/verification/confirm/"
  else EmptyString.

(** [get_api_endpoints()["health"]] *)
Definition health_endpoint (cfg : Config) : string :=
  API_BASE_URL cfg +:+ "/verification/health/".

End Settings.

(* ===================================================================== *)
(** * The data model: tokens, requests, verification state, events *)
(* ===================================================================== *)

Module Model.

(** [timedelta(seconds=n)], in microseconds. *)
Definition seconds (n : Z) : Z := n * 1000000.

(** [api/base_client.py]: [AuthTokens]. *)
Record AuthTokens : Type := {
  access_token : pyval;
  refresh_token : pyval;
  expires_at : Z;
}.

(** [api/base_client.py]: [ApiResponse]. *)
Record ApiResponse : Type := {
  success : bool;
  data : option Dict;
  error : option string;
  status_code : option Z;
}.

(** One call of [self._session.request(method, url, **kwargs)], with the
    [Authorization] header the session carries at that moment. *)
Record Request : Type := {
  req_method : string;
  req_url : string;
  req_authorization : option string;
  req_json : Dict;
  req_timeout : Z;
}.

(** What the transport does with a request, as far as [_make_request]
    distinguishes it.  The adapter's retries happen inside one call. *)
Inductive Transport : Type :=
| Http2xx (status : Z) (body : option Dict)
    (* [raise_for_status] passes; [body] is [response.json()], or
       [{"message": response.text}] when the body is not JSON *)
| HttpFailure (status : Z) (error_message : string)
    (* [raise_for_status] raises [HTTPError]; [error_message] is what the
       handler extracts from the body, or [str(e)] *)
| ConnectionFailure            (* [requests.exceptions.ConnectionError] *)
| TimedOut                     (* [requests.exceptions.Timeout] *)
| RequestFailure (msg : string)  (* any other [RequestException] *)
| Crash (e : exn).             (* an exception outside that hierarchy *)

(** A call that fails: an error status, no connection, a timeout, or an
    exception of the transport. *)
Definition call_failed (t : Transport) : Prop :=
  match t with
  | Http2xx _ _ => False
  | Crash e => is_Exception e = true
  | _ => True
  end.

(** A callable registered with [add_token_refresh_callback] or
    [add_logout_callback]: an observer, identified by name, that returns
    or raises. *)
Record Callback : Type := {
  cb_name : string;
  cb_result : outcome unit;
}.

(** An observer that returns, or raises an [Exception]. *)
Definition benign (cb : Callback) : Prop :=
  match cb_result cb with
  | Ret _ => True
  | Raise e => is_Exception e = true
  end.

(** The per-instance state of a [BaseApiClient]. *)
Record Client : Type := {
  authorization : option string;     (* [_session.headers["Authorization"]] *)
  on_token_refresh : list Callback;  (* [_on_token_refresh] *)
  on_logout : list Callback;         (* [_on_logout] *)
}.

(** The two client instances of the process: [_auth_client] of
    [services/auth_service.py] and [verification_client] of
    [api/verification_client.py]. *)
Inductive ClientId : Type := TheAuthClient | TheVerificationClient.

(** [state/verification_state.py]: the dict [_current_verification],
    which always has these three keys when it is set. *)
Record CurrentVerification : Type := {
  customer_id : pyval;
  method : string;
  cv_started_at : Z;
}.

(** [state/verification_state.py]: the fields of [VerificationState]. *)
Record VState : Type := {
  current_verification : option CurrentVerification;
  verification_status : string;
  current_token : pyval;
  current_auth_id : pyval;
  verification_method : option string;
  attempts_count : Z;
  max_attempts : Z;
  started_at : option Z;
}.

(** [core/app_signals.py]: the signals the modelled code emits. *)
Inductive AppSignal : Type :=
| verification_completed (ok : bool) (message : string) (auth_id : pyval)
| pin_sent (auth_id : pyval)
| sms_sent (session_id : pyval)
| merchant_search_cleared
| status_message (message : pyval) (level : string).

(** What an execution does that the rest of the process can observe, in
    the order it happens. *)
Inductive Event : Type :=
| NetCall (r : Request)
| RefreshCallbackRun (name : string)
| LogoutCallbackRun (name : string)
| Emit (s : AppSignal).

(** The process-wide state. *)
Record World : Type := {
  clock : Z;                           (* what [datetime.now()] returns *)
  shared_tokens : option AuthTokens;   (* [BaseApiClient._shared_tokens] *)
  auth_client : Client;
  verification_client : Client;
  vstate : VState;                     (* the [verification_state] singleton *)
  trace : list Event;
}.

Definition with_tokens (t : option AuthTokens) (w : World) : World :=
  {| clock := clock w; shared_tokens := t; auth_client := auth_client w;
     verification_client := verification_client w; vstate := vstate w;
     trace := trace w |}.

Definition with_vstate (v : VState) (w : World) : World :=
  {| clock := clock w; shared_tokens := shared_tokens w;
     auth_client := auth_client w;
     verification_client := verification_client w; vstate := v;
     trace := trace w |}.

Definition with_trace (t : list Event) (w : World) : World :=
  {| clock := clock w; shared_tokens := shared_tokens w;
     auth_client := auth_client w;
     verification_client := verification_client w; vstate := vstate w;
     trace := t |}.

Definition client (c : ClientId) (w : World) : Client :=
  match c with
  | TheAuthClient => auth_client w
  | TheVerificationClient => verification_client w
  end.

Definition with_client (c : ClientId) (x : Client) (w : World) : World :=
  match c with
  | TheAuthClient =>
      {| clock := clock w; shared_tokens := shared_tokens w; auth_client := x;
         verification_client := verification_client w; vstate := vstate w;
         trace := trace w |}
  | TheVerificationClient =>
      {| clock := clock w; shared_tokens := shared_tokens w;
         auth_client := auth_client w; verification_client := x;
         vstate := vstate w; trace := trace w |}
  end.

Definition is_net_call (e : Event) : bool :=
  match e with NetCall _ => true | _ => false end.

(** The network calls of a trace, oldest first. *)
Definition net_calls (t : list Event) : list Event := List.filter is_net_call t.

(** The remote side: what the transport answers to the [n]-th call of the
    process, given the request. *)
Record Env : Type := {
  cfg : Settings.Config;
  server : nat -> Request -> Transport;
}.

(** The same process at another reading of the clock. *)
Definition with_clock (now : Z) (w : World) : World :=
  {| clock := now; shared_tokens := shared_tokens w;
     auth_client := auth_client w;
     verification_client := verification_client w; vstate := vstate w;
     trace := trace w |}.

End Model.
Export Model.

(* ===================================================================== *)
(** * A state and exception monad for the Python operations *)
(* ===================================================================== *)

Module Monad.

Definition M (A : Type) : Type := World -> outcome A * World.

Definition ret {A} (a : A) : M A := fun w => (Ret a, w).

Definition bind {A B} (m : M A) (f : A -> M B) : M B :=
  fun w =>
    match m w with
    | (Ret a, w') => f a w'
    | (Raise e, w') => (Raise e, w')
    end.

Definition raise {A} (e : exn) : M A := fun w => (Raise e, w).

Definition gets {A} (f : World -> A) : M A := fun w => (Ret (f w), w).

Definition modify (f : World -> World) : M unit := fun w => (Ret tt, f w).

(** [try: body  except Exception as e: handler(e)] *)
Definition try_except {A} (body : M A) (handler : exn -> M A) : M A :=
  fun w =>
    match body w with
    | (Raise e, w') => if is_Exception e then handler e w' else (Raise e, w')
    | r => r
    end.

(** Appends an event to the trace. *)
Definition record_event (e : Event) : M unit :=
  modify (fun w => with_trace (trace w ++ [e]) w).

(** [signal.emit(...)] on the [app_signals] hub. *)
Definition emit (s : AppSignal) : M unit := record_event (Emit s).

(** [leads P m Q]: from a state that satisfies [P], running [m] ends,
    whether it returns or raises, in a state that satisfies [Q]. *)
Definition leads {A} (P : World -> Prop) (m : M A) (Q : World -> Prop) : Prop :=
  forall w, P w -> Q (snd (m w)).

End Monad.
Export Monad.

Notation "x <~ c1 ;; c2" := (bind c1 (fun x => c2))
  (at level 100, c1 at next level, right associativity).
Notation "c1 ;;; c2" := (bind c1 (fun _ => c2))
  (at level 100, right associativity).

(* ===================================================================== *)
(** * api/base_client.py *)
(* ===================================================================== *)

Module BaseClient.

(** [AuthTokens.is_expired], with [now] the value of [datetime.now()]. *)
Definition is_expired (now : Z) (t : AuthTokens) : bool :=
  now >=? expires_at t.

(** [AuthTokens.needs_refresh], with [now] the value of [datetime.now()]. *)
Definition needs_refresh (now : Z) (t : AuthTokens) : bool :=
  let threshold := seconds Settings.TOKEN_REFRESH_THRESHOLD in
  now >=? expires_at t - threshold.

Definition set_authorization (h : option string) (x : Client) : Client :=
  {| authorization := h; on_token_refresh := on_token_refresh x;
     on_logout := on_logout x |}.

(** The loop of [_fire_token_refresh_callbacks] and
    [_fire_logout_callbacks]: each callback is called in turn and an
    [Exception] it raises is swallowed. *)
Fixpoint fire_callbacks (mk : string -> Event) (cbs : list Callback) : M unit :=
  match cbs with
  | [] => ret tt
  | cb :: rest =>
      try_except
        (record_event (mk (cb_name cb)) ;;; (fun w => (cb_result cb, w)))
        (fun _ => ret tt) ;;;
      fire_callbacks mk rest
  end.

Definition _fire_token_refresh_callbacks (c : ClientId) : M unit :=
  cbs <~ gets (fun w => on_token_refresh (client c w)) ;;
  fire_callbacks RefreshCallbackRun cbs.

Definition _fire_logout_callbacks (c : ClientId) : M unit :=
  cbs <~ gets (fun w => on_logout (client c w)) ;;
  fire_callbacks LogoutCallbackRun cbs.

Definition _update_auth_header (c : ClientId) : M unit :=
  modify (fun w =>
    match shared_tokens w with
    | Some t =>
        with_client c
          (set_authorization (Some ("Bearer " +:+ py_str (access_token t)))
             (client c w)) w
    | None => with_client c (set_authorization None (client c w)) w
    end).

Definition set_tokens (c : ClientId) (access refresh : pyval) (expires_in : Z)
  : M unit :=
  now <~ gets clock ;;
  modify (with_tokens (Some {| access_token := access;
                               refresh_token := refresh;
                               expires_at := now + seconds expires_in |})) ;;;
  _update_auth_header c.

Definition clear_tokens (c : ClientId) : M unit :=
  modify (with_tokens None) ;;;
  _update_auth_header c ;;;
  _fire_logout_callbacks c.

Definition is_authenticated : M bool :=
  gets (fun w =>
    match shared_tokens w with
    | Some t => negb (is_expired (clock w) t)
    | None => false
    end).

Definition get_access_token : M pyval :=
  gets (fun w =>
    match shared_tokens w with Some t => access_token t | None => PNone end).

Definition get_refresh_token : M pyval :=
  gets (fun w =>
    match shared_tokens w with Some t => refresh_token t | None => PNone end).

(** [self._session.request(method, url, **kwargs)]: the one place where
    the process talks to the network. *)
Definition session_request (E : Env) (c : ClientId)
    (method url : string) (json : Dict) : M Transport :=
  fun w =>
    let r := {| req_method := method; req_url := url;
                req_authorization := authorization (client c w);
                req_json := json;
                req_timeout := Settings.API_TIMEOUT (cfg E) |} in
    (Ret (server E (length (net_calls (trace w))) r),
     with_trace (trace w ++ [NetCall r]) w).

(** The first statement of [_make_request]: a full URL is taken as it
    is, a relative path is appended to the base URL. *)
Definition resolve_url (E : Env) (endpoint : string) : string :=
  if startswith "http://" endpoint || startswith "https://" endpoint
  then endpoint
  else Settings.API_BASE_URL (cfg E) +:+ "/" +:+ lstrip_char "/" endpoint.

(** The request a call of [_make_request] puts on the wire from the
    state [w], once it gets that far. *)
Definition request_of (E : Env) (c : ClientId) (method endpoint : string)
    (json : Dict) (w : World) : Request :=
  {| req_method := method; req_url := resolve_url E endpoint;
     req_authorization := authorization (client c w);
     req_json := json;
     req_timeout := Settings.API_TIMEOUT (cfg E) |}.

Definition failed (msg : string) (st : option Z) : ApiResponse :=
  {| success := false; data := None; error := Some msg; status_code := st |}.

(** [_make_request(method, endpoint, authenticated, json=json)].
    On [HTTPError] the source reports
    [e.response.status_code if e.response else None]; a [Response] for
    which [raise_for_status] raised is falsy, so the status is [None]. *)
Definition _make_request (E : Env) (c : ClientId) (method endpoint : string)
    (authenticated : bool) (json : Dict) : M ApiResponse :=
  let url := resolve_url E endpoint in
  authed <~ (if authenticated then is_authenticated else ret true) ;;
  if authenticated && negb authed then
    ret (failed "Authentication required" (Some 401))
  else
    (if authenticated then _update_auth_header c else ret tt) ;;;
    t <~ session_request E c method url json ;;
    match t with
    | Http2xx st body =>
        ret {| success := true; data := body; error := None;
               status_code := Some st |}
    | HttpFailure st error_message => ret (failed error_message None)
    | ConnectionFailure =>
        ret (failed
               "Unable to connect to server. Please check your internet connection."
               None)
    | TimedOut => ret (failed "Request timed out. Please try again." None)
    | RequestFailure msg => ret (failed msg None)
    | Crash e => raise e
    end.

Definition post (E : Env) (c : ClientId) (endpoint : string) (json : Dict)
  : M ApiResponse :=
  _make_request E c "POST" endpoint true json.

Definition post_public (E : Env) (c : ClientId) (endpoint : string) (json : Dict)
  : M ApiResponse :=
  _make_request E c "POST" endpoint false json.

(** [get(endpoint)] and [get_public(endpoint)], called without keyword
    arguments: the request carries no payload. *)
Definition get (E : Env) (c : ClientId) (endpoint : string) : M ApiResponse :=
  _make_request E c "GET" endpoint true ∅.

Definition get_public (E : Env) (c : ClientId) (endpoint : string) : M ApiResponse :=
  _make_request E c "GET" endpoint false ∅.

(** The result [_make_request] builds from what the transport did. *)
Definition classified (t : Transport) : outcome ApiResponse :=
  match t with
  | Http2xx st body =>
      Ret {| success := true; data := body; error := None; status_code := Some st |}
  | HttpFailure st error_message => Ret (failed error_message None)
  | ConnectionFailure =>
      Ret (failed
             "Unable to connect to server. Please check your internet connection."
             None)
  | TimedOut => Ret (failed "Request timed out. Please try again." None)
  | RequestFailure msg => Ret (failed msg None)
  | Crash e => Raise e
  end.

(** The header [_update_auth_header] derives from a token pair. *)
Definition bearer (t : AuthTokens) : string :=
  "Bearer " +:+ py_str (access_token t).

(** The client is authenticated in the state [w]. *)
Definition authenticated_in (w : World) : bool :=
  match shared_tokens w with
  | Some t => negb (is_expired (clock w) t)
  | None => false
  end.

End BaseClient.

(* ===================================================================== *)
(** * api/auth_client.py *)
(* ===================================================================== *)

Module AuthClient.
Import BaseClient.

(** [bool(response.data)] *)
Definition data_truthy (d : option Dict) : bool :=
  match d with Some m => dict_truthy m | None => false end.

(** What [get_refresh_token()] returns in the state [w]. *)
Definition stored_refresh_token (w : World) : pyval :=
  match shared_tokens w with
  | Some t => Model.refresh_token t
  | None => PNone
  end.

(** The request [refresh_token] sends from the state [w]. *)
Definition refresh_request (E : Env) (w : World) : Request :=
  request_of E TheAuthClient "POST" (Settings.get_api_endpoints (cfg E) "refresh")
    {[ "refresh" := stored_refresh_token w ]} w.

(** What the remote side answers to it. *)
Definition refresh_answer (E : Env) (w : World) : Transport :=
  server E (length (net_calls (trace w))) (refresh_request E w).

(** [AuthClient.refresh_token], on the instance [_auth_client]. *)
Definition refresh_token (E : Env) : M ApiResponse :=
  let c := TheAuthClient in
  refresh_token <~ get_refresh_token ;;
  if negb (truthy refresh_token) then
    ret (failed "No refresh token available" None)
  else
    try_except
      (response <~ post_public E c (Settings.get_api_endpoints (cfg E) "refresh")
                     {[ "refresh" := refresh_token ]} ;;
       if success response && data_truthy (data response) then
         let access_token := dict_get (default ∅ (data response)) "access" in
         if negb (truthy access_token) then
           ret (failed "Invalid refresh response: missing access token"
                  (status_code response))
         else
           let expires_in := 3600 in
           set_tokens c access_token refresh_token expires_in ;;;
           _fire_token_refresh_callbacks c ;;;
           ret {| success := true;
                  data := Some {[ "message" := PStr "Token refreshed" ]};
                  error := None; status_code := None |}
       else
         clear_tokens c ;;;
         ret response)
      (fun e =>
         clear_tokens c ;;;
         ret (failed ("Token refresh failed: " +:+ exn_str e) None)).

(** [self._tokens]: no class of the hierarchy defines this attribute (the
    tokens live in [BaseApiClient._shared_tokens]), so reading it raises
    [AttributeError]. *)
Definition self_tokens : M (option AuthTokens) :=
  raise (Exception_ "AttributeError"
           "'AuthClient' object has no attribute '_tokens'").

(** [AuthClient.get_current_user].  ["current_user"] is not a key of
    [get_api_endpoints()], so the endpoint is the default of [.get]. *)
Definition get_current_user (E : Env) : M ApiResponse :=
  let c := TheAuthClient in
  authed <~ is_authenticated ;;
  if negb authed then ret (failed "Not authenticated" (Some 401))
  else
    try_except
      (tokens <~ self_tokens ;;
       now <~ gets clock ;;
       refresh_result <~
         (match tokens with
          | Some t =>
              if needs_refresh now t then
                r <~ refresh_token E ;;
                ret (if success r then None else Some r)
              else ret None
          | None => ret None
          end) ;;
       match refresh_result with
       | Some r => ret r
       | None => get E c "/api/auth/me/"
       end)
      (fun e => ret (failed ("Failed to get user info: " +:+ exn_str e) None)).

(** [AuthClient.check_server_health] *)
Definition check_server_health (E : Env) : M ApiResponse :=
  try_except
    (get_public E TheAuthClient (Settings.health_endpoint (cfg E)))
    (fun e => ret (failed ("Health check failed: " +:+ exn_str e) None)).

End AuthClient.

(* ===================================================================== *)
(** * state/verification_state.py *)
(* ===================================================================== *)

Module VerificationState.

(** The fields [__init__] sets. *)
Definition initial : VState :=
  {| current_verification := None; verification_status := "idle";
     current_token := PNone; current_auth_id := PNone;
     verification_method := None; attempts_count := 0; max_attempts := 5;
     started_at := None |}.

Definition with_status (s : string) (v : VState) : VState :=
  {| current_verification := current_verification v;
     verification_status := s;
     current_token := current_token v; current_auth_id := current_auth_id v;
     verification_method := verification_method v;
     attempts_count := attempts_count v; max_attempts := max_attempts v;
     started_at := started_at v |}.

Definition with_attempts (n : Z) (v : VState) : VState :=
  {| current_verification := current_verification v;
     verification_status := verification_status v;
     current_token := current_token v; current_auth_id := current_auth_id v;
     verification_method := verification_method v;
     attempts_count := n; max_attempts := max_attempts v;
     started_at := started_at v |}.

Definition start_verification (customer_id : pyval) (method : string)
    (token auth_id : pyval) : M unit :=
  now <~ gets clock ;;
  modify (fun w =>
    with_vstate
      {| current_verification :=
           Some {| customer_id := customer_id; method := method;
                   cv_started_at := now |};
         verification_status := "in_progress";
         current_token := token;
         current_auth_id := auth_id;
         verification_method := Some method;
         attempts_count := 0;
         max_attempts := max_attempts (vstate w);
         started_at := Some now |} w).

Definition _reset_state (v : VState) : VState :=
  {| current_verification := None; verification_status := "idle";
     current_token := PNone; current_auth_id := PNone;
     verification_method := None; attempts_count := 0;
     max_attempts := max_attempts v; started_at := None |}.

Definition complete_verification (ok : bool) (message : string) : M unit :=
  v <~ gets vstate ;;
  match current_verification v with
  | None => ret tt
  | Some _ =>
      let auth_id := current_auth_id v in
      modify (with_vstate
                (_reset_state
                   (with_status (if ok then "completed" else "failed") v))) ;;;
      emit (verification_completed ok message (py_or auth_id (PStr EmptyString)))
  end.

Definition update_status (status message : string) : M unit :=
  modify (fun w => with_vstate (with_status status (vstate w)) w).

Definition increment_attempts : M Z :=
  modify (fun w =>
    with_vstate (with_attempts (attempts_count (vstate w) + 1) (vstate w)) w) ;;;
  gets (fun w => attempts_count (vstate w)).

Definition is_max_attempts_reached : M bool :=
  gets (fun w => attempts_count (vstate w) >=? max_attempts (vstate w)).

Definition get_status : M string := gets (fun w => verification_status (vstate w)).
Definition get_auth_id : M pyval := gets (fun w => current_auth_id (vstate w)).
Definition get_token : M pyval := gets (fun w => current_token (vstate w)).
Definition get_attempts : M Z := gets (fun w => attempts_count (vstate w)).

Definition is_active : M bool :=
  gets (fun w =>
    match current_verification (vstate w) with Some _ => true | None => false end).

(** The state [start_verification] leaves: a session on [method] for
    [customer_id], opened at [now], with no attempt charged. *)
Definition fresh_session (customer_id : pyval) (method : string)
    (token auth_id : pyval) (now limit : Z) : VState :=
  {| current_verification :=
       Some {| customer_id := customer_id; method := method;
               cv_started_at := now |};
     verification_status := "in_progress";
     current_token := token;
     current_auth_id := auth_id;
     verification_method := Some method;
     attempts_count := 0;
     max_attempts := limit;
     started_at := Some now |}.

End VerificationState.

(* ===================================================================== *)
(** * utils/error_translator.py *)
(* ===================================================================== *)

Module ErrorTranslator.

Definition ERROR_MESSAGES : list (string * string) :=
  [ ("invalid_credentials", "Invalid username or password");
    ("invalid_token", "Your session has expired. Please log in again");
    ("token_expired", "Your session has expired. Please log in again");
    ("unauthorized", "You are not authorized to perform this action");
    ("permission_denied", "You don't have permission to access this resource");
    ("invalid_pin", "The PIN code you entered is incorrect");
    ("pin_expired", "This PIN code has expired. Please request a new one");
    ("max_attempts_exceeded",
     "Maximum verification attempts exceeded. Please try again later");
    ("verification_failed", "Verification failed. Please try again");
    ("invalid_email", "Invalid email address format");
    ("invalid_phone", "Invalid phone number format");
    ("connection_error",
     "Unable to connect to server. Please check your internet connection");
    ("timeout", "Request timed out. Please try again");
    ("network_error", "Network error occurred. Please try again");
    ("server_error", "Server error occurred. Please try again later");
    ("bad_request", "Invalid request. Please check your input");
    ("not_found", "Resource not found");
    ("rate_limit_exceeded", "Too many requests. Please wait a moment and try again");
    ("validation_error", "Please check your input and try again");
    ("required_field", "This field is required");
    ("invalid_format", "Invalid format. Please check your input");
    ("websocket_error", "Real-time connection error. Updates may be delayed");
    ("websocket_closed", "Real-time connection closed. Attempting to reconnect...") ].

Fixpoint lookup (k : string) (table : list (string * string)) : option string :=
  match table with
  | [] => None
  | (k', v) :: rest => if String.eqb k k' then Some v else lookup k rest
  end.

(** [translate(error)] with the default [default_message], for what
    [ApiResponse.error] holds: a string or [None]. *)
Definition translate (error : option string) : string :=
  let default_message := "An error occurred" in
  match error with
  | Some code => default default_message (lookup code ERROR_MESSAGES)
  | None => default_message
  end.

End ErrorTranslator.

(* ===================================================================== *)
(** * api/verification_client.py *)
(* ===================================================================== *)

Module VerificationClient.
Import BaseClient.

Definition c : ClientId := TheVerificationClient.

(** [payload["user_id"] = user_id] when [user_id is not None]. *)
Definition add_user_id (user_id : pyval) (payload : Dict) : Dict :=
  match user_id with
  | PNone => payload
  | _ => <[ "user_id" := user_id ]> payload
  end.

Definition send_email_auth (E : Env) (email merchant_id : string)
    (user_id : pyval) : M ApiResponse :=
  if String.eqb email EmptyString then
    ret (failed "Email address is required" None)
  else if String.eqb merchant_id EmptyString then
    ret (failed "Merchant ID is required" None)
  else
    let payload : Dict :=
      add_user_id user_id
        (<[ "email" := PStr email ]> {[ "merchant_id" := PStr merchant_id ]}) in
    post E c (Settings.get_api_endpoints (cfg E) "send_email_auth") payload.

Definition verify_pin (E : Env) (pin merchant_id : string) (user_id : pyval)
  : M ApiResponse :=
  if String.eqb pin EmptyString || negb (len pin =? 6) || negb (isdigit pin) then
    ret (failed "PIN must be 6 digits" None)
  else if String.eqb merchant_id EmptyString then
    ret (failed "Merchant ID is required" None)
  else
    let payload : Dict :=
      add_user_id user_id
        (<[ "pin" := PStr pin ]> {[ "merchant_id" := PStr merchant_id ]}) in
    post E c (Settings.get_api_endpoints (cfg E) "verify_pin") payload.

Definition initiate_sms_verification (E : Env) (merchant_id phone : string)
  : M ApiResponse :=
  let payload : Dict :=
    <[ "merchant_id" := PStr merchant_id ]>
      (<[ "verification_method" := PStr "sms" ]>
         {[ "delivery_address" := PStr phone ]}) in
  post E c (Settings.get_api_endpoints (cfg E) "verification_initiate") payload.

Definition confirm_sms_verification (E : Env) (session_id : pyval) (code : string)
  : M ApiResponse :=
  if String.eqb code EmptyString || negb (truthy session_id) then
    ret (failed "session_id and code are required" None)
  else
    let payload : Dict :=
      <[ "session_id" := session_id ]> {[ "verification_code" := PStr code ]} in
    post E c (Settings.get_api_endpoints (cfg E) "verification_confirm") payload.

(** The payload of [verify_pin]. *)
Definition verify_pin_payload (pin merchant_id : string) (user_id : pyval) : Dict :=
  add_user_id user_id
    (<[ "pin" := PStr pin ]> {[ "merchant_id" := PStr merchant_id ]}).

(** The request [verify_pin] puts on the wire under the token pair [t]. *)
Definition pin_request (E : Env) (t : AuthTokens) (pin merchant_id : string)
    (user_id : pyval) : Request :=
  {| req_method := "POST";
     req_url := resolve_url E (Settings.get_api_endpoints (cfg E) "verify_pin");
     req_authorization := Some (bearer t);
     req_json := verify_pin_payload pin merchant_id user_id;
     req_timeout := Settings.API_TIMEOUT (cfg E) |}.

End VerificationClient.

(* ===================================================================== *)
(** * services/verification_service.py *)
(* ===================================================================== *)

Module VerificationService.
Import Validators.

Record VerificationResult : Type := {
  vr_success : bool;
  vr_message : pyval;
  vr_auth_id : pyval;
  vr_session_id : pyval;
  vr_data : option Dict;
}.

(** [VerificationResult(success=False, message=msg)] *)
Definition rejected (msg : string) : VerificationResult :=
  {| vr_success := false; vr_message := PStr msg; vr_auth_id := PNone;
     vr_session_id := PNone; vr_data := None |}.

(** A validator of [utils/validators.py] applied to a value taken from a
    merchant dict: a falsy value is reported as missing by the validator's
    first test, and [re] raises [TypeError] on a truthy value that is not
    a string. *)
Definition validate_any (validate : string -> bool * string) (v : pyval)
  : M (bool * string) :=
  match v with
  | PStr s => ret (validate s)
  | _ =>
      if truthy v then
        raise (Exception_ "TypeError" "expected string or bytes-like object")
      else ret (validate EmptyString)
  end.

Definition start_email_verification (E : Env) (merchant_data : Dict)
    (user_id : pyval) : M VerificationResult :=
  let merchant_id := dict_get merchant_data "merchant_id" in
  let email :=
    py_or (dict_get merchant_data "contact_email") (dict_get merchant_data "email") in
  if negb (truthy merchant_id) then
    ret (rejected "Merchant ID (UUID) is required")
  else
    let '(is_valid, err) := validate_merchant_id (py_str merchant_id) in
    if negb is_valid then ret (rejected err)
    else if negb (truthy email) then ret (rejected "Merchant email is required")
    else
      r <~ validate_any validate_email email ;;
      let '(is_valid, err) := r in
      if negb is_valid then ret (rejected err)
      else
        response <~ VerificationClient.send_email_auth E (py_str email)
                      (py_str merchant_id) user_id ;;
        if success response then
          let data := default ∅ (Model.data response) in
          let auth_id := dict_get data "auth_id" in
          VerificationState.start_verification merchant_id "email" PNone auth_id ;;;
          ret {| vr_success := true;
                 vr_message :=
                   dict_get_or data "message"
                     (PStr "Email verification sent successfully");
                 vr_auth_id := auth_id; vr_session_id := PNone;
                 vr_data := Some data |}
        else
          let err := ErrorTranslator.translate (error response) in
          ret (rejected err).

Definition verify_pin_code (E : Env) (pin : string) (merchant_id user_id : pyval)
  : M VerificationResult :=
  let '(is_valid, err) := validate_pin pin in
  if negb is_valid then ret (rejected err)
  else if negb (truthy merchant_id) then ret (rejected "Merchant ID is required")
  else
    reached <~ VerificationState.is_max_attempts_reached ;;
    if reached then ret (rejected "Maximum verification attempts exceeded")
    else
      VerificationState.increment_attempts ;;;
      response <~ VerificationClient.verify_pin E pin (py_str merchant_id) user_id ;;
      if success response then
        let data := default ∅ (Model.data response) in
        let auth_id := dict_get data "auth_id" in
        VerificationState.complete_verification true "PIN verified successfully" ;;;
        ret {| vr_success := true;
               vr_message := dict_get_or data "message" (PStr "PIN verified successfully");
               vr_auth_id := auth_id; vr_session_id := PNone;
               vr_data := Some data |}
      else
        let err := ErrorTranslator.translate (error response) in
        VerificationState.update_status "failed_attempt" err ;;;
        ret (rejected err).

Definition start_sms_verification (E : Env) (merchant_data : Dict)
    (user_id : pyval) : M VerificationResult :=
  let merchant_id := dict_get merchant_data "merchant_id" in
  let phone :=
    py_or (dict_get merchant_data "contact_phone") (dict_get merchant_data "phone") in
  if negb (truthy merchant_id) then
    ret (rejected "Merchant ID (UUID) is required")
  else if negb (truthy phone) then ret (rejected "Merchant phone is required")
  else
    r <~ validate_any validate_phone phone ;;
    let '(is_valid, err) := r in
    if negb is_valid then ret (rejected err)
    else
      response <~ VerificationClient.initiate_sms_verification E
                    (py_str merchant_id) (py_str phone) ;;
      if success response then
        let data := default ∅ (Model.data response) in
        let session_id := dict_get data "session_id" in
        VerificationState.start_verification merchant_id "sms" PNone session_id ;;;
        ret {| vr_success := true;
               vr_message :=
                 dict_get_or data "message" (PStr "SMS verification sent successfully");
               vr_auth_id := session_id; vr_session_id := session_id;
               vr_data := Some data |}
      else
        let err := ErrorTranslator.translate (error response) in
        ret (rejected err).

Definition verify_sms_code (E : Env) (code : string) (session_id : pyval)
  : M VerificationResult :=
  if String.eqb code EmptyString then ret (rejected "Verification code is required")
  else if negb (truthy session_id) then ret (rejected "Session ID is required")
  else
    response <~ VerificationClient.confirm_sms_verification E session_id code ;;
    if success response then
      let data := default ∅ (Model.data response) in
      VerificationState.complete_verification true "SMS verified" ;;;
      ret {| vr_success := true;
             vr_message := dict_get_or data "message" (PStr "SMS verified successfully");
             vr_auth_id := session_id; vr_session_id := PNone;
             vr_data := Some data |}
    else
      let err := ErrorTranslator.translate (error response) in
      ret (rejected err).

Definition cancel_session : M bool :=
  active <~ VerificationState.is_active ;;
  if negb active then ret false
  else
    VerificationState.complete_verification false "Cancelled by user" ;;;
    ret true.

(** The checks [start_email_verification] makes on the merchant before it
    calls the client: an identifier that is present and passes
    [validate_merchant_id], an address that is present and, when it is a
    string, passes [validate_email]. *)
Definition email_gate (merchant_data : Dict) : bool :=
  let merchant_id := dict_get merchant_data "merchant_id" in
  let email :=
    py_or (dict_get merchant_data "contact_email") (dict_get merchant_data "email") in
  truthy merchant_id
  && fst (validate_merchant_id (py_str merchant_id))
  && truthy email
  && match email with PStr s => fst (validate_email s) | _ => true end.

(** The checks [start_sms_verification] makes: an identifier that is
    present, whatever its shape, and a phone number that is present and,
    when it is a string, passes [validate_phone]. *)
Definition sms_gate (merchant_data : Dict) : bool :=
  let merchant_id := dict_get merchant_data "merchant_id" in
  let phone :=
    py_or (dict_get merchant_data "contact_phone") (dict_get merchant_data "phone") in
  truthy merchant_id
  && truthy phone
  && match phone with PStr s => fst (validate_phone s) | _ => true end.

(** The checks [verify_pin_code] makes before it consults the budget: a
    PIN that passes [validate_pin] and an identifier that is present,
    whatever its shape. *)
Definition pin_gate (pin : string) (merchant_id : pyval) : bool :=
  fst (validate_pin pin) && truthy merchant_id.

(** The checks [verify_sms_code] makes: a code and a session identifier
    that are present. *)
Definition sms_code_gate (code : string) (session_id : pyval) : bool :=
  negb (String.eqb code EmptyString) && truthy session_id.

(** The attempt budget is respected: the counter lies between 0 and
    [_max_attempts], which is 5. *)
Definition within_budget (w : World) : Prop :=
  0 <= attempts_count (vstate w) <= max_attempts (vstate w)
  /\ max_attempts (vstate w) = 5.

(** The operations of the service, as the interactive context asks for
    them. *)
Inductive Operation : Type :=
| OpStartEmail (merchant_data : Dict) (user_id : pyval)
| OpVerifyPin (pin : string) (merchant_id user_id : pyval)
| OpStartSms (merchant_data : Dict) (user_id : pyval)
| OpVerifySms (code : string) (session_id : pyval)
| OpCancel.

(** The state an operation leaves behind, whether it returns or raises. *)
Definition perform (E : Env) (op : Operation) (w : World) : World :=
  match op with
  | OpStartEmail merchant_data user_id =>
      snd (start_email_verification E merchant_data user_id w)
  | OpVerifyPin pin merchant_id user_id =>
      snd (verify_pin_code E pin merchant_id user_id w)
  | OpStartSms merchant_data user_id =>
      snd (start_sms_verification E merchant_data user_id w)
  | OpVerifySms code session_id => snd (verify_sms_code E code session_id w)
  | OpCancel => snd (cancel_session w)
  end.

(** The states of the process as far as verification sessions go: it
    starts with the state [VerificationState.__init__] builds, the
    service operations run one at a time, and whatever else runs in the
    process (login, refresh, the clock) leaves the verification state
    alone. *)
Inductive reachable (E : Env) : World -> Prop :=
| reachable_start w :
    vstate w = VerificationState.initial -> reachable E w
| reachable_perform w op :
    reachable E w -> reachable E (perform E op w)
| reachable_elsewhere w w' :
    reachable E w -> vstate w' = vstate w -> reachable E w'.

End VerificationService.

(* ===================================================================== *)
(** * utils/threading_utils.py *)
(* ===================================================================== *)

Module ThreadingUtils.

(** The signals of [WorkerSignals]. *)
Inductive WorkerSignal (A : Type) : Type :=
| result (value : A)
| error (message : string)
| finished.
Arguments result {A} value.
Arguments error {A} message.
Arguments finished {A}.

(** What one call of [ApiWorker.run] does: the signals it emits, in
    order, and the exception that leaves [run], if any.  [fn] is the
    wrapped call of [self.fn] on the stored arguments. *)
Record Run (A : Type) : Type := {
  emitted : list (WorkerSignal A);
  escaped : option exn;
}.
Arguments emitted {A} _.
Arguments escaped {A} _.

(** The outcome signal that corresponds to what the wrapped call did. *)
Definition outcome_signal {A} (o : outcome A) : WorkerSignal A :=
  match o with
  | Ret value => result value
  | Raise exc => error (exn_str exc)
  end.

Definition run {A} (fn : M A) : World -> Run A * World :=
  fun w =>
    match fn w with
    | (Ret value, w') =>
        ({| emitted := [result value; finished]; escaped := None |}, w')
    | (Raise exc, w') =>
        if is_Exception exc then
          ({| emitted := [error (exn_str exc); finished]; escaped := None |}, w')
        else ({| emitted := [finished]; escaped := Some exc |}, w')
    end.

End ThreadingUtils.

(* ===================================================================== *)
(** * ui/panels/email_verification_panel.py and sms_verification_panel.py *)
(* ===================================================================== *)

(** The panels are modelled by the fields their slots read and write: the
    workflow state, the selection, the identifiers and the contents of the
    input widgets.  [_apply_state] and [_set_status] only write captions,
    colours and enabled flags, which no slot reads; they are rendering and
    are left out.  A worker handed to the thread pool becomes a [Task] in
    the [pool] of the application; running it and delivering its signals
    to the connected slots is a separate step. *)

Module Panels.
Import VerificationService ThreadingUtils.

Inductive State : Type :=
| IDLE | SELECTED | SENDING | AWAITING_CODE | VERIFYING | COMPLETE | FAILED.

Record EmailPanel : Type := {
  e_user_data : Dict;                  (* [_user_data] *)
  e_selected_merchant : option Dict;   (* [_selected_merchant] *)
  e_current_merchant_id : pyval;       (* [_current_merchant_id] *)
  e_state : State;                     (* [_state] *)
  e_pin : string;                      (* [_pin_widget.get_pin()] *)
}.

Record SmsPanel : Type := {
  s_user_data : Dict;                  (* [_user_data] *)
  s_selected_merchant : option Dict;   (* [_selected_merchant] *)
  s_session_id : pyval;                (* [_session_id] *)
  s_state : State;                     (* [_state] *)
  s_phone_input : string;              (* [_phone_input.text()] *)
  s_code_input : string;               (* [_code_input.text()] *)
}.

(** The workers the panels create, by the operation they wrap.  The
    arguments are fixed when the worker is created. *)
Inductive Task : Type :=
| StartEmailTask (merchant : Dict) (user_id : pyval)
| VerifyPinTask (pin : string) (merchant_id user_id : pyval)
| StartSmsTask (merchant : Dict) (user_id : pyval)
| VerifySmsTask (code : string) (session_id : pyval).

Record App : Type := {
  world : World;
  email : EmailPanel;
  sms : SmsPanel;
  pool : list Task;     (* workers started and not yet run *)
}.

Definition with_world (w : World) (a : App) : App :=
  {| world := w; email := email a; sms := sms a; pool := pool a |}.
Definition with_email (p : EmailPanel) (a : App) : App :=
  {| world := world a; email := p; sms := sms a; pool := pool a |}.
Definition with_sms (p : SmsPanel) (a : App) : App :=
  {| world := world a; email := email a; sms := p; pool := pool a |}.

(** [QThreadPool.globalInstance().start(worker)] *)
Definition start_worker (t : Task) (a : App) : App :=
  {| world := world a; email := email a; sms := sms a; pool := pool a ++ [t] |}.

(** [app_signals.<signal>.emit(...)] from the interactive context. *)
Definition app_emit (s : AppSignal) (a : App) : App :=
  with_world (snd (emit s (world a))) a.

(** [bool(self._selected_merchant)] *)
Definition merchant_truthy (m : option Dict) : bool :=
  match m with Some d => dict_truthy d | None => false end.

(** [self._user_data.get('id') or self._user_data.get('user_id', 0)] *)
Definition current_user_id (user_data : Dict) : pyval :=
  py_or (dict_get user_data "id") (dict_get_or user_data "user_id" (PInt 0)).

(** [status in (...)] for a tuple of string literals. *)
Definition status_in (status : pyval) (options : list string) : bool :=
  match status with
  | PStr s => existsb (String.eqb s) options
  | _ => false
  end.

Definition state_eqb (x y : State) : bool :=
  match x, y with
  | IDLE, IDLE | SELECTED, SELECTED | SENDING, SENDING
  | AWAITING_CODE, AWAITING_CODE | VERIFYING, VERIFYING
  | COMPLETE, COMPLETE | FAILED, FAILED => true
  | _, _ => false
  end.

Module Email.

Definition set_state (s : State) (p : EmailPanel) : EmailPanel :=
  {| e_user_data := e_user_data p;
     e_selected_merchant := e_selected_merchant p;
     e_current_merchant_id := e_current_merchant_id p;
     e_state := s; e_pin := e_pin p |}.

Definition set_pin (pin : string) (p : EmailPanel) : EmailPanel :=
  {| e_user_data := e_user_data p;
     e_selected_merchant := e_selected_merchant p;
     e_current_merchant_id := e_current_merchant_id p;
     e_state := e_state p; e_pin := pin |}.

Definition clear_selection (p : EmailPanel) : EmailPanel :=
  {| e_user_data := e_user_data p; e_selected_merchant := None;
     e_current_merchant_id := PNone; e_state := e_state p;
     e_pin := e_pin p |}.

Definition _transition (new_state : State) (a : App) : App :=
  with_email (set_state new_state (email a)) a.

(** [self._pin_widget.clear()] *)
Definition clear_pin (a : App) : App := with_email (set_pin EmptyString (email a)) a.

Definition _on_send_clicked (a : App) : App :=
  match e_selected_merchant (email a) with
  | Some merchant =>
      if dict_truthy merchant then
        let a := _transition SENDING a in
        let user_id := current_user_id (e_user_data (email a)) in
        start_worker (StartEmailTask merchant user_id) a
      else a
  | None => a
  end.

Definition _on_send_result (r : VerificationResult) (a : App) : App :=
  if vr_success r then
    let a := _transition AWAITING_CODE a in
    app_emit (pin_sent (py_or (vr_auth_id r) (PStr EmptyString))) a
  else
    let a := _transition SELECTED a in
    app_emit (status_message (vr_message r) "error") a.

Definition _on_send_error (error_msg : string) (a : App) : App :=
  _transition SELECTED a.

Definition _submit_pin (pin : string) (a : App) : App :=
  if negb (state_eqb (e_state (email a)) AWAITING_CODE) then a
  else
    let a := _transition VERIFYING a in
    let user_id := current_user_id (e_user_data (email a)) in
    start_worker
      (VerifyPinTask pin (e_current_merchant_id (email a)) user_id) a.

Definition _on_pin_auto_entered (pin : string) (a : App) : App :=
  if state_eqb (e_state (email a)) AWAITING_CODE then _submit_pin pin a else a.

Definition _on_verify_clicked (a : App) : App :=
  let pin := e_pin (email a) in
  if negb (len pin =? 6) then a else _submit_pin pin a.

Definition _on_pin_verified (auth_id : pyval) (a : App) : App :=
  let a := _transition COMPLETE a in
  let a := app_emit (verification_completed true "PIN verified successfully" auth_id) a in
  let a := app_emit (status_message (PStr "Verification complete!") "success") a in
  let a := app_emit merchant_search_cleared a in
  with_email (clear_selection (email a)) a.

Definition _on_verify_result (r : VerificationResult) (a : App) : App :=
  if vr_success r then
    _on_pin_verified (py_or (vr_auth_id r) (PStr EmptyString)) a
  else
    let a := _transition AWAITING_CODE a in
    let a := clear_pin a in
    app_emit (status_message (vr_message r) "error") a.

Definition _on_verify_error (error_msg : string) (a : App) : App :=
  let a := _transition AWAITING_CODE a in
  clear_pin a.

Definition _on_ws_update (data : Dict) (a : App) : App :=
  let status := dict_get_or data "status" (PStr EmptyString) in
  if status_in status ["verified"; "completed"; "success"] then
    if state_eqb (e_state (email a)) AWAITING_CODE then
      let auth_id := dict_get_or data "auth_id" (PStr EmptyString) in
      _on_pin_verified auth_id a
    else a
  else if status_in status ["failed"; "expired"] then
    if state_eqb (e_state (email a)) AWAITING_CODE
       || state_eqb (e_state (email a)) VERIFYING
    then _transition FAILED a
    else a
  else a.

Definition _on_cancel_clicked (a : App) : App :=
  let a := with_world (snd (cancel_session (world a))) a in
  let a := clear_pin a in
  _transition
    (if merchant_truthy (e_selected_merchant (email a)) then SELECTED else IDLE) a.

(** The operator fills the boxes of the PIN widget; when the sixth box
    is filled the widget emits [pin_entered], which is connected to
    [_on_pin_auto_entered]. *)
Definition type_pin (pin : string) (a : App) : App :=
  let a := with_email (set_pin pin (email a)) a in
  if len pin =? 6 then _on_pin_auto_entered pin a else a.

End Email.

Module Sms.

Definition set_state (s : State) (p : SmsPanel) : SmsPanel :=
  {| s_user_data := s_user_data p;
     s_selected_merchant := s_selected_merchant p;
     s_session_id := s_session_id p; s_state := s;
     s_phone_input := s_phone_input p; s_code_input := s_code_input p |}.

Definition set_session (sel : option Dict) (sid : pyval) (p : SmsPanel) : SmsPanel :=
  {| s_user_data := s_user_data p; s_selected_merchant := sel;
     s_session_id := sid; s_state := s_state p;
     s_phone_input := s_phone_input p; s_code_input := s_code_input p |}.

Definition set_code (code : string) (p : SmsPanel) : SmsPanel :=
  {| s_user_data := s_user_data p;
     s_selected_merchant := s_selected_merchant p;
     s_session_id := s_session_id p; s_state := s_state p;
     s_phone_input := s_phone_input p; s_code_input := code |}.

Definition _transition (new_state : State) (a : App) : App :=
  with_sms (set_state new_state (sms a)) a.

(** [self._code_input.clear()] *)
Definition clear_code (a : App) : App := with_sms (set_code EmptyString (sms a)) a.

Definition _on_send_clicked (a : App) : App :=
  match s_selected_merchant (sms a) with
  | Some selected =>
      if dict_truthy selected then
        let phone := strip (s_phone_input (sms a)) in
        if String.eqb phone EmptyString then a
        else
          let merchant := <[ "contact_phone" := PStr phone ]> selected in
          let a := _transition SENDING a in
          let user_id := current_user_id (s_user_data (sms a)) in
          start_worker (StartSmsTask merchant user_id) a
      else a
  | None => a
  end.

Definition _on_send_result (r : VerificationResult) (a : App) : App :=
  if vr_success r then
    let a := with_sms (set_session (s_selected_merchant (sms a))
                         (vr_session_id r) (sms a)) a in
    let a := _transition AWAITING_CODE a in
    app_emit (sms_sent (py_or (vr_session_id r) (PStr EmptyString))) a
  else _transition SELECTED a.

Definition _on_send_error (error_msg : string) (a : App) : App :=
  _transition SELECTED a.

Definition _on_verify_clicked (a : App) : App :=
  let code := strip (s_code_input (sms a)) in
  if negb (len code =? 6) || negb (isdigit code) then a
  else if negb (truthy (s_session_id (sms a))) then a
  else
    let a := _transition VERIFYING a in
    start_worker (VerifySmsTask code (s_session_id (sms a))) a.

Definition _on_sms_verified (auth_id : pyval) (a : App) : App :=
  let a := _transition COMPLETE a in
  let a := app_emit (verification_completed true "SMS verified successfully" auth_id) a in
  let a := app_emit (status_message (PStr "SMS Verification complete!") "success") a in
  let a := app_emit merchant_search_cleared a in
  with_sms (set_session None PNone (sms a)) a.

Definition _on_verify_result (r : VerificationResult) (a : App) : App :=
  if vr_success r then
    _on_sms_verified (py_or (vr_auth_id r) (PStr EmptyString)) a
  else
    let a := _transition AWAITING_CODE a in
    clear_code a.

Definition _on_verify_error (error_msg : string) (a : App) : App :=
  let a := _transition AWAITING_CODE a in
  clear_code a.

Definition _on_ws_update (data : Dict) (a : App) : App :=
  let status := dict_get_or data "status" (PStr EmptyString) in
  if status_in status ["verified"; "completed"; "success"] then
    if state_eqb (s_state (sms a)) AWAITING_CODE then
      let auth_id := dict_get_or data "auth_id" (PStr EmptyString) in
      _on_sms_verified auth_id a
    else a
  else if status_in status ["failed"; "expired"] then
    if state_eqb (s_state (sms a)) AWAITING_CODE
       || state_eqb (s_state (sms a)) VERIFYING
    then _transition FAILED a
    else a
  else a.

Definition _on_cancel_clicked (a : App) : App :=
  let a := with_world (snd (cancel_session (world a))) a in
  let a := with_sms (set_session (s_selected_merchant (sms a)) PNone (sms a)) a in
  let a := clear_code a in
  _transition
    (if merchant_truthy (s_selected_merchant (sms a)) then SELECTED else IDLE) a.

End Sms.

(** Delivery of the signals of one worker to the slots the panel
    connected to it; nothing is connected to [finished]. *)
Definition deliver {A} (on_result : A -> App -> App)
    (on_error : string -> App -> App) (signals : list (WorkerSignal A))
    (a : App) : App :=
  fold_left
    (fun a s =>
       match s with
       | result v => on_result v a
       | error msg => on_error msg a
       | finished => a
       end)
    signals a.

(** The pool runs one worker, and the interactive context then handles
    the signals the worker emitted. *)
Definition run_task (E : Env) (t : Task) (a : App) : App :=
  match t with
  | StartEmailTask merchant user_id =>
      let '(r, w) := run (start_email_verification E merchant user_id) (world a) in
      deliver Email._on_send_result Email._on_send_error (emitted r) (with_world w a)
  | VerifyPinTask pin merchant_id user_id =>
      let '(r, w) := run (verify_pin_code E pin merchant_id user_id) (world a) in
      deliver Email._on_verify_result Email._on_verify_error (emitted r) (with_world w a)
  | StartSmsTask merchant user_id =>
      let '(r, w) := run (start_sms_verification E merchant user_id) (world a) in
      deliver Sms._on_send_result Sms._on_send_error (emitted r) (with_world w a)
  | VerifySmsTask code session_id =>
      let '(r, w) := run (verify_sms_code E code session_id) (world a) in
      deliver Sms._on_verify_result Sms._on_verify_error (emitted r) (with_world w a)
  end.

(** The oldest worker of the pool runs to completion. *)
Definition run_next (E : Env) (a : App) : App :=
  match pool a with
  | [] => a
  | t :: rest =>
      run_task E t {| world := world a; email := email a; sms := sms a; pool := rest |}
  end.

End Panels.

(* ===================================================================== *)
(** * ui/app_window.py: routing of realtime messages *)
(* ===================================================================== *)

Module AppWindow.
Import Panels.

(** The message types [_on_ws_message] forwards. *)
Definition verification_types : list string :=
  [ "verification.status"; "auth_update"; "customer_verification_update";
    "verification_update" ].

(** [app_signals.ws_verification_update.emit(data)]: both panels
    connected their [_on_ws_update] to the signal, the email panel
    first. *)
Definition ws_verification_update (data : Dict) (a : App) : App :=
  Sms._on_ws_update data (Email._on_ws_update data a).

(** [AppWindow._on_ws_message], the slot of
    [WebSocketManager.message_received]. *)
Definition _on_ws_message (data : Dict) (a : App) : App :=
  let msg_type := dict_get_or data "type" (PStr EmptyString) in
  if status_in msg_type verification_types then ws_verification_update data a
  else a.

(** Several PINs typed one after the other, no worker running in
    between. *)
Definition type_pins (pins : list string) (a : App) : App :=
  fold_left (fun a pin => Email.type_pin pin a) pins a.

End AppWindow.

(* ===================================================================== *)
(** * api/websocket_manager.py *)
(* ===================================================================== *)

(** [WebSocketManager] is driven by calls of its public methods and by the
    signals of the Qt objects it owns: a [QWebSocket] and two [QTimer]s.
    The state below holds the fields of the manager together with what the
    Qt objects need to decide which signal can come next: whether each
    timer is running and the phase of the socket.  A socket signals
    [connected] only while it is opening, [disconnected] and [error] only
    while it is not closed, a text message only while it is open, and a
    timer fires only while it runs; [open] starts a fresh connection
    attempt and drops the previous one. *)

Module WebSocketManager.

Definition _RECONNECT_INTERVAL_MS : Z := 5000.
Definition _MAX_RECONNECT_ATTEMPTS : Z := 10.
Definition _PING_INTERVAL_MS : Z := 25000.

Definition terminal_error : string := "Real-time connection lost after max retries".

Inductive SocketPhase : Type := SockClosed | SockOpening | SockOpen | SockClosing.

Record Manager : Type := {
  _user_id : option Z;
  _token : option string;
  _should_reconnect : bool;
  _reconnect_attempts : Z;
  _is_connected : bool;
  reconnect_timer_active : bool;    (* [_reconnect_timer.isActive()] *)
  ping_timer_active : bool;         (* [_ping_timer.isActive()] *)
  socket : SocketPhase;             (* the phase of [_ws] *)
}.

(** The signals of the manager. *)
Inductive Signal : Type :=
| connected
| disconnected
| message_received (data : Dict)
| error_occurred (message : string).

(** What a step does that is visible outside the manager. *)
Inductive Output : Type :=
| Emitted (s : Signal)
| SocketOpened (url : string)       (* [_ws.open(QUrl(url))] *)
| SocketCloseRequested              (* [_ws.close()] *)
| PingSent.                         (* [_ws.ping(b"keepalive")] *)

(** What [json.loads] makes of a text frame. *)
Inductive Parsed : Type :=
| JsonObject (data : Dict)
| JsonOther            (* valid JSON that is not an object *)
| JsonInvalid.         (* [JSONDecodeError] *)

Inductive Input : Type :=
| CallConnectUser (user_id : Z) (token : string)
| CallDisconnectUser
| SocketConnected
| SocketDisconnected
| SocketError (error_string : string)
| SocketText (parsed : Parsed)
| ReconnectTimeout
| PingTimeout.

(** The state [__init__] builds. *)
Definition initial : Manager :=
  {| _user_id := None; _token := None; _should_reconnect := false;
     _reconnect_attempts := 0; _is_connected := false;
     reconnect_timer_active := false; ping_timer_active := false;
     socket := SockClosed |}.

(** [s.replace(old, new)], for a non-empty [old]. *)
Fixpoint replace_upto (fuel : nat) (old new s : string) : string :=
  match fuel with
  | O => s
  | S fuel' =>
      match s with
      | EmptyString => EmptyString
      | String ch rest =>
          if String.prefix old s then
            new +:+ replace_upto fuel' old new
                      (String.substring (String.length old)
                         (String.length s - String.length old) s)
          else String ch (replace_upto fuel' old new rest)
      end
  end.

Definition replace (old new s : string) : string :=
  replace_upto (S (String.length s)) old new s.

(** [s.endswith(suffix)] *)
Definition endswith (suffix s : string) : bool :=
  let n := String.length s in
  let k := String.length suffix in
  (k <=? n)%nat && String.eqb (String.substring (n - k) k s) suffix.

(** [settings.get_websocket_url(user_id, token)] *)
Definition get_websocket_url (cfg : Settings.Config) (user_id : Z) (token : string)
  : string :=
  let base := Settings.API_BASE_URL cfg in
  let ws_base := replace "https://" "wss://" (replace "http://" "ws://" base) in
  let ws_base :=
    if endswith "/api" ws_base
    then String.substring 0 (String.length ws_base - 4) ws_base
    else ws_base in
  ws_base +:+ "/ws/auth/" +:+ pretty user_id +:+ "/?token=" +:+ token.

Definition some_truthy_id (u : option Z) : bool :=
  match u with Some z => negb (z =? 0) | None => false end.

Definition some_truthy_str (t : option string) : bool :=
  match t with Some s => negb (String.eqb s EmptyString) | None => false end.

Definition _attempt_connect (cfg : Settings.Config) (m : Manager)
  : Manager * list Output :=
  if negb (some_truthy_id (_user_id m)) || negb (some_truthy_str (_token m))
  then (m, [])
  else
    let url_str :=
      get_websocket_url cfg (default 0 (_user_id m)) (default EmptyString (_token m)) in
    ({| _user_id := _user_id m; _token := _token m;
        _should_reconnect := _should_reconnect m;
        _reconnect_attempts := _reconnect_attempts m;
        _is_connected := _is_connected m;
        reconnect_timer_active := reconnect_timer_active m;
        ping_timer_active := ping_timer_active m;
        socket := SockOpening |},
     [SocketOpened url_str]).

Definition connect_user (cfg : Settings.Config) (user_id : Z) (token : string)
    (m : Manager) : Manager * list Output :=
  _attempt_connect cfg
    {| _user_id := Some user_id; _token := Some token;
       _should_reconnect := true; _reconnect_attempts := 0;
       _is_connected := _is_connected m;
       reconnect_timer_active := reconnect_timer_active m;
       ping_timer_active := ping_timer_active m;
       socket := socket m |}.

Definition disconnect_user (m : Manager) : Manager * list Output :=
  ({| _user_id := _user_id m; _token := _token m;
      _should_reconnect := false;
      _reconnect_attempts := _reconnect_attempts m;
      _is_connected := false;
      reconnect_timer_active := false;
      ping_timer_active := false;
      socket := if _is_connected m then SockClosing else socket m |},
   if _is_connected m then [SocketCloseRequested] else []).

Definition _on_connected (m : Manager) : Manager * list Output :=
  ({| _user_id := _user_id m; _token := _token m;
      _should_reconnect := _should_reconnect m;
      _reconnect_attempts := 0;
      _is_connected := true;
      reconnect_timer_active := false;
      ping_timer_active := true;
      socket := socket m |},
   [Emitted connected]).

Definition _on_disconnected (m : Manager) : Manager * list Output :=
  if _should_reconnect m && (_reconnect_attempts m <? _MAX_RECONNECT_ATTEMPTS) then
    ({| _user_id := _user_id m; _token := _token m;
        _should_reconnect := _should_reconnect m;
        _reconnect_attempts := _reconnect_attempts m + 1;
        _is_connected := false;
        reconnect_timer_active := true;
        ping_timer_active := false;
        socket := socket m |},
     [Emitted disconnected])
  else
    ({| _user_id := _user_id m; _token := _token m;
        _should_reconnect := _should_reconnect m;
        _reconnect_attempts := _reconnect_attempts m;
        _is_connected := false;
        reconnect_timer_active := reconnect_timer_active m;
        ping_timer_active := false;
        socket := socket m |},
     if _reconnect_attempts m >=? _MAX_RECONNECT_ATTEMPTS
     then [Emitted disconnected; Emitted (error_occurred terminal_error)]
     else [Emitted disconnected]).

Definition _on_message (parsed : Parsed) (m : Manager) : Manager * list Output :=
  match parsed with
  | JsonObject data => (m, [Emitted (message_received data)])
  | JsonOther | JsonInvalid => (m, [])
  end.

Definition _on_error (error_str : string) (m : Manager) : Manager * list Output :=
  (m, [Emitted (error_occurred error_str)]).

Definition _send_ping (m : Manager) : Manager * list Output :=
  (m, if _is_connected m then [PingSent] else []).

Definition set_socket (p : SocketPhase) (m : Manager) : Manager :=
  {| _user_id := _user_id m; _token := _token m;
     _should_reconnect := _should_reconnect m;
     _reconnect_attempts := _reconnect_attempts m;
     _is_connected := _is_connected m;
     reconnect_timer_active := reconnect_timer_active m;
     ping_timer_active := ping_timer_active m;
     socket := p |}.

Definition stop_reconnect_timer (m : Manager) : Manager :=
  {| _user_id := _user_id m; _token := _token m;
     _should_reconnect := _should_reconnect m;
     _reconnect_attempts := _reconnect_attempts m;
     _is_connected := _is_connected m;
     reconnect_timer_active := false;
     ping_timer_active := ping_timer_active m;
     socket := socket m |}.

(** Which inputs the Qt objects can deliver in a state; the public
    methods can always be called. *)
Definition enabled (i : Input) (m : Manager) : bool :=
  match i with
  | CallConnectUser _ _ | CallDisconnectUser => true
  | SocketConnected =>
      match socket m with SockOpening => true | _ => false end
  | SocketDisconnected | SocketError _ =>
      match socket m with SockClosed => false | _ => true end
  | SocketText _ =>
      match socket m with SockOpen => true | _ => false end
  | ReconnectTimeout => reconnect_timer_active m
  | PingTimeout => ping_timer_active m
  end.

(** The slot or method an input runs, after the Qt object that delivers
    it has changed its own state. *)
Definition handle (cfg : Settings.Config) (i : Input) (m : Manager)
  : Manager * list Output :=
  match i with
  | CallConnectUser user_id token => connect_user cfg user_id token m
  | CallDisconnectUser => disconnect_user m
  | SocketConnected => _on_connected (set_socket SockOpen m)
  | SocketDisconnected => _on_disconnected (set_socket SockClosed m)
  | SocketError error_string => _on_error error_string m
  | SocketText parsed => _on_message parsed m
  | ReconnectTimeout => _attempt_connect cfg (stop_reconnect_timer m)
  | PingTimeout => _send_ping m
  end.

(** The step relation of the channel. *)
Inductive step (cfg : Settings.Config)
  : Manager -> Input -> list Output -> Manager -> Prop :=
| step_intro m i m' out :
    enabled i m = true ->
    handle cfg i m = (m', out) ->
    step cfg m i out m'.

(** The states an execution can reach from the initial one. *)
Inductive reachable (cfg : Settings.Config) : Manager -> Prop :=
| reachable_initial : reachable cfg initial
| reachable_step m i out m' :
    reachable cfg m -> step cfg m i out m' -> reachable cfg m'.

(** An execution: the inputs handled in order, each enabled when it
    arrives, and everything the manager put out. *)
Fixpoint execute (cfg : Settings.Config) (inputs : list Input) (m : Manager)
  : option (Manager * list Output) :=
  match inputs with
  | [] => Some (m, [])
  | i :: rest =>
      if enabled i m then
        let '(m1, out1) := handle cfg i m in
        match execute cfg rest m1 with
        | Some (m2, out2) => Some (m2, (out1 ++ out2)%list)
        | None => None
        end
      else None
  end.

Definition is_terminal_error (o : Output) : bool :=
  match o with
  | Emitted (error_occurred msg) => String.eqb msg terminal_error
  | _ => false
  end.

(** How often the terminal error was emitted. *)
Definition terminal_errors (out : list Output) : nat :=
  length (List.filter is_terminal_error out).

Definition is_connect_call (i : Input) : bool :=
  match i with CallConnectUser _ _ => true | _ => false end.

(** An input other than a call of a public method. *)
Definition from_qt (i : Input) : bool :=
  match i with
  | CallConnectUser _ _ | CallDisconnectUser => false
  | _ => true
  end.

(** The socket reports errors of its own, in its own words. *)
Definition socket_words (i : Input) : bool :=
  match i with
  | SocketError s => negb (String.eqb s terminal_error)
  | _ => true
  end.

(** No Qt object has anything left to deliver: the socket is closed and
    neither timer runs. *)
Definition quiet (m : Manager) : Prop :=
  socket m = SockClosed
  /\ _is_connected m = false
  /\ reconnect_timer_active m = false
  /\ ping_timer_active m = false.

(** The counter is in range, and while reconnects are being counted a
    pending reconnect and a live socket exclude each other. *)
Definition settled (m : Manager) : Prop :=
  0 <= _reconnect_attempts m <= _MAX_RECONNECT_ATTEMPTS
  /\ (0 < _reconnect_attempts m ->
      socket m <> SockClosed ->
      reconnect_timer_active m = false).

(** The operator logs in and the server is unreachable: the first
    connection attempt and each of the ten reconnects fail. *)
Definition ten_reconnects : list Input :=
  CallConnectUser 7 "tok"
  :: concat (repeat [SocketDisconnected; ReconnectTimeout] 10).

(** The manager after those inputs, the tenth reconnect under way. *)
Definition tenth_reconnect_pending (cfg : Settings.Config) : Manager :=
  match execute cfg ten_reconnects initial with
  | Some (m, _) => m
  | None => initial
  end.

Definition is_socket_open (o : Output) : bool :=
  match o with SocketOpened _ => true | _ => false end.

Definition is_ping (o : Output) : bool :=
  match o with PingSent => true | _ => false end.

(** The manager was told to stay disconnected and no reconnect is
    pending. *)
Definition stood_down (m : Manager) : Prop :=
  _should_reconnect m = false /\ reconnect_timer_active m = false.

(** How many sockets an execution opened. *)
Definition sockets_opened (out : list Output) : nat :=
  length (List.filter is_socket_open out).

End WebSocketManager.

(* ===================================================================== *)
(** * Concrete configurations used to exercise the embedding *)
(* ===================================================================== *)

Module Scenario.
Import Panels.

Definition demo_cfg : Settings.Config :=
  {| Settings.API_BASE_URL := "http://10.5.96.4:8000/api";
     Settings.API_TIMEOUT := 30 |}.

Definition plain_client : Client :=
  {| authorization := None; on_token_refresh := []; on_logout := [] |}.

(** A client with two observers of each kind; the first of each raises. *)
Definition observed_client : Client :=
  {| authorization := None;
     on_token_refresh :=
       [ {| cb_name := "r1"; cb_result := Raise (Exception_ "RuntimeError" "boom") |};
         {| cb_name := "r2"; cb_result := Ret tt |} ];
     on_logout :=
       [ {| cb_name := "l1"; cb_result := Raise (Exception_ "RuntimeError" "boom") |};
         {| cb_name := "l2"; cb_result := Ret tt |} ] |}.

(** One hour, as [login] and [refresh_token] grant it. *)
Definition demo_tokens : AuthTokens :=
  {| access_token := PStr "access-1"; refresh_token := PStr "refresh-1";
     expires_at := seconds 3600 |}.

(** A process that has just started. *)
Definition logged_out : World :=
  {| clock := 0; shared_tokens := None; auth_client := observed_client;
     verification_client := plain_client;
     vstate := VerificationState.initial; trace := [] |}.

(** The same process ten seconds after a login at time 0. *)
Definition logged_in : World :=
  {| clock := seconds 10; shared_tokens := Some demo_tokens;
     auth_client := observed_client; verification_client := plain_client;
     vstate := VerificationState.initial; trace := [] |}.

(** A client whose first logout observer ends the interpreter. *)
Definition exiting_client : Client :=
  {| authorization := Some "Bearer stale";
     on_token_refresh := [];
     on_logout :=
       [ {| cb_name := "l1"; cb_result := Raise (BaseException_ "SystemExit" "1") |};
         {| cb_name := "l2"; cb_result := Ret tt |} ] |}.

Definition logged_in_exiting : World :=
  {| clock := seconds 10; shared_tokens := Some demo_tokens;
     auth_client := exiting_client; verification_client := plain_client;
     vstate := VerificationState.initial; trace := [] |}.

(** A server that turns every request down with status 400. *)
Definition rejecting : Env :=
  {| cfg := demo_cfg; server := fun _ _ => HttpFailure 400 "invalid_pin" |}.

(** A server that answers every request with status 200 and a body. *)
Definition answering (body : Dict) : Env :=
  {| cfg := demo_cfg; server := fun _ _ => Http2xx 200 (Some body) |}.

Definition demo_merchant : Dict :=
  <[ "merchant_id" := PStr "123e4567-e89b-12d3-a456-426614174000" ]>
    (<[ "contact_email" := PStr "owner@example.com" ]>
       {[ "contact_phone" := PStr "+1 (555) 123-4567" ]}).

Definition demo_user : Dict := {[ "id" := PInt 7 ]}.

Definition blank_email_panel : EmailPanel :=
  {| e_user_data := demo_user; e_selected_merchant := None;
     e_current_merchant_id := PNone; e_state := IDLE; e_pin := EmptyString |}.

Definition blank_sms_panel : SmsPanel :=
  {| s_user_data := demo_user; s_selected_merchant := None;
     s_session_id := PNone; s_state := IDLE;
     s_phone_input := EmptyString; s_code_input := EmptyString |}.

(** A verification session in progress on a channel: the code has been
    sent under the identifier ["auth-1"] and no PIN was submitted yet. *)
Definition session_world : World :=
  {| clock := seconds 10; shared_tokens := Some demo_tokens;
     auth_client := observed_client; verification_client := plain_client;
     vstate :=
       {| current_verification :=
            Some {| customer_id := PStr "123e4567-e89b-12d3-a456-426614174000";
                    method := "email"; cv_started_at := seconds 10 |};
          verification_status := "in_progress";
          current_token := PNone; current_auth_id := PStr "auth-1";
          verification_method := Some "email"; attempts_count := 0;
          max_attempts := 5; started_at := Some (seconds 10) |};
     trace := [] |}.

Definition awaiting_email : App :=
  {| world := session_world;
     email :=
       {| e_user_data := demo_user; e_selected_merchant := Some demo_merchant;
          e_current_merchant_id := PStr "123e4567-e89b-12d3-a456-426614174000";
          e_state := AWAITING_CODE; e_pin := EmptyString |};
     sms := blank_sms_panel; pool := [] |}.

Definition awaiting_sms : App :=
  {| world := session_world;
     email := blank_email_panel;
     sms :=
       {| s_user_data := demo_user; s_selected_merchant := Some demo_merchant;
          s_session_id := PStr "auth-1"; s_state := AWAITING_CODE;
          s_phone_input := "+1 (555) 123-4567"; s_code_input := EmptyString |};
     pool := [] |}.

(** The email panel is ready for a PIN and [n] attempts are charged. *)
Definition ready (n : Z) (a : App) : Prop :=
  e_state (email a) = AWAITING_CODE
  /\ pool a = []
  /\ truthy (e_current_merchant_id (email a)) = true
  /\ attempts_count (vstate (world a)) = n
  /\ max_attempts (vstate (world a)) = 5.

(** Both channels wait for a code at the same time. *)
Definition awaiting_both : App :=
  {| world := session_world; email := email awaiting_email;
     sms := sms awaiting_sms; pool := [] |}.

(** The operator types a PIN; the worker it starts runs and its outcome
    is delivered. *)
Definition submit (E : Env) (pin : string) (a : App) : App :=
  run_next E (Email.type_pin pin a).

(** The PINs of a list submitted one after the other. *)
Definition submit_all (E : Env) (pins : list string) (a : App) : App :=
  fold_left (fun a pin => submit E pin a) pins a.

(** A realtime message that reports success for another session. *)
Definition foreign_success : Dict :=
  <[ "type" := PStr "verification_update" ]>
    (<[ "status" := PStr "verified" ]> {[ "auth_id" := PStr "auth-2" ]}).

Definition foreign_sms_success : Dict :=
  <[ "type" := PStr "verification_update" ]>
    (<[ "status" := PStr "verified" ]> {[ "session_id" := PStr "auth-2" ]}).

(** A server that accepts the first request and turns the later ones
    down. *)
Definition accepting_once : Env :=
  {| cfg := demo_cfg;
     server := fun n _ =>
       match n with
       | O => Http2xx 200 (Some {[ "auth_id" := PStr "auth-1" ]})
       | _ => HttpFailure 400 "invalid_pin"
       end |}.

Definition demo_uuid : pyval := PStr "123e4567-e89b-12d3-a456-426614174000".

(** The process after a code was sent and five PINs were turned down. *)
Definition five_charged : World :=
  let wrong := VerificationService.OpVerifyPin "111111" demo_uuid (PInt 7) in
  VerificationService.perform accepting_once wrong
    (VerificationService.perform accepting_once wrong
       (VerificationService.perform accepting_once wrong
          (VerificationService.perform accepting_once wrong
             (VerificationService.perform accepting_once wrong
                (VerificationService.perform accepting_once
                   (VerificationService.OpStartEmail demo_merchant (PInt 7))
                   logged_in))))).

Definition long_merchant_id : string :=
  "xxxxxxxxxxxxxxxxxxxxxxxxxxxxxxxxxxxxxxxxxxxxxxxxxxx".


(** A merchant is selected on the SMS panel and the operator has
    replaced the number of the record by one that is too short. *)
Definition mistyped_phone : App :=
  {| world := session_world;
     email := blank_email_panel;
     sms :=
       {| s_user_data := demo_user; s_selected_merchant := Some demo_merchant;
          s_session_id := PNone; s_state := SELECTED;
          s_phone_input := " 12345 "; s_code_input := EmptyString |};
     pool := [] |}.

End Scenario.


(* ===================================================================== *)
(** * core/event_bus.py *)
(* ===================================================================== *)

Module EventBus.

(** A callable, up to [==]: what [in] and [list.remove] compare. *)
Definition Handler : Type := nat.

(** [self._subscribers] *)
Abbreviation Subscribers := (gmap string (list Handler)).

(** [callback in l] *)
Definition handler_in (callback : Handler) (l : list Handler) : bool :=
  existsb (Nat.eqb callback) l.

(** [l.remove(callback)]: the first occurrence goes.  The callers test
    [callback in l] first, so the [ValueError] of an absent element does
    not arise. *)
Fixpoint list_remove (callback : Handler) (l : list Handler) : list Handler :=
  match l with
  | [] => []
  | x :: rest => if Nat.eqb callback x then rest else x :: list_remove callback rest
  end.

(** [self._subscribers.get(event_type, [])] *)
Definition subscribers_of (event_type : string) (s : Subscribers) : list Handler :=
  default [] (s !! event_type).

Definition subscribe (event_type : string) (callback : Handler)
    (s : Subscribers) : Subscribers :=
  let s :=
    match s !! event_type with
    | None => <[ event_type := [] ]> s
    | Some _ => s
    end in
  let l := subscribers_of event_type s in
  if negb (handler_in callback l) then <[ event_type := l ++ [callback] ]> s
  else s.

Definition unsubscribe (event_type : string) (callback : Handler)
    (s : Subscribers) : Subscribers :=
  match s !! event_type with
  | Some l =>
      if handler_in callback l then
        let l := list_remove callback l in
        let s := <[ event_type := l ]> s in
        match l with
        | [] => delete event_type s
        | _ => s
        end
      else s
  | None => s
  end.

(** [clear_subscribers(event_type=None)]: [if event_type:] is false for
    [None] and for the empty string. *)
Definition clear_subscribers (event_type : option string)
    (s : Subscribers) : Subscribers :=
  match event_type with
  | Some e =>
      if negb (String.eqb e EmptyString) then
        match s !! e with
        | Some _ => delete e s
        | None => s
        end
      else ∅
  | None => ∅
  end.

Definition get_subscriber_count (event_type : string) (s : Subscribers) : Z :=
  Z.of_nat (length (subscribers_of event_type s)).

(** What a client of the bus can do to its subscriber table. *)
Inductive Op : Type :=
| Subscribe (event_type : string) (callback : Handler)
| Unsubscribe (event_type : string) (callback : Handler)
| ClearSubscribers (event_type : option string).

Definition apply (s : Subscribers) (op : Op) : Subscribers :=
  match op with
  | Subscribe e cb => subscribe e cb s
  | Unsubscribe e cb => unsubscribe e cb s
  | ClearSubscribers e => clear_subscribers e s
  end.

(** The table after a history of operations on the bus of [__init__]. *)
Definition after (ops : list Op) : Subscribers := fold_left apply ops ∅.

(** Every list of the table is non-empty and free of duplicates. *)
Definition well_formed (s : Subscribers) : Prop :=
  forall e l, s !! e = Some l -> l <> [] /\ NoDup l.

(** ** [publish] *)

(** The bus together with the record of the handler calls made. *)
Record Bus : Type := {
  subscribers : Subscribers;
  calls : list (Handler * pyval)
}.

Section Publish.

(** What a handler does when called with [data]: it returns or
    raises, and may have changed the subscriber table through the
    methods above.  Handlers that publish in turn are not modelled. *)
Variable behaviour : Handler -> pyval -> Subscribers -> outcome unit * Subscribers.

(** The loop over the copy of the subscriber list.  [except Exception]
    lets an exception that derives from [BaseException] only leave
    the loop. *)
Fixpoint run_handlers (snapshot : list Handler) (data : pyval) (b : Bus)
    : outcome unit * Bus :=
  match snapshot with
  | [] => (Ret tt, b)
  | callback :: rest =>
      let '(o, s) := behaviour callback data (subscribers b) in
      let b := {| subscribers := s; calls := calls b ++ [(callback, data)] |} in
      match o with
      | Ret _ => run_handlers rest data b
      | Raise e => if is_Exception e then run_handlers rest data b else (Raise e, b)
      end
  end.

Definition publish (event_type : string) (data : pyval) (b : Bus)
    : outcome unit * Bus :=
  run_handlers (subscribers_of event_type (subscribers b)) data b.

End Publish.

End EventBus.


(* ===================================================================== *)
(** * services/merchant_service.py: the cache helpers *)
(* ===================================================================== *)

Module MerchantService.
Import Model.

(** [self._cache]: under each key the value and the time of entry. *)
Abbreviation Cache := (gmap string (pyval * Z)).

(** [timedelta(seconds=30)] *)
Definition _cache_ttl : Z := seconds 30.

(** [now] is the reading of [datetime.now()] the call takes.  A miss
    returns [None]. *)
Definition _get_from_cache (key : string) (now : Z) (c : Cache) : pyval * Cache :=
  match c !! key with
  | Some (value, ts) =>
      if now - ts <? _cache_ttl then (value, c) else (PNone, delete key c)
  | None => (PNone, c)
  end.

(** The entries with [now - ts >= self._cache_ttl] are deleted. *)
Definition _cleanup_cache (now : Z) (c : Cache) : Cache :=
  filter (fun kv => now - snd (snd kv) < _cache_ttl) c.

(** [now] is the reading taken for the new entry, [now'] the one
    [_cleanup_cache] takes when the cache has grown past 100 entries. *)
Definition _add_to_cache (key : string) (value : pyval) (now now' : Z)
    (c : Cache) : Cache :=
  let c := <[ key := (value, now) ]> c in
  if Z.of_nat (size c) >? 100 then _cleanup_cache now' c else c.

Definition invalidate_merchant (merchant_id : string) (c : Cache) : Cache :=
  delete ("customer_" +:+ merchant_id) (delete ("merchant_" +:+ merchant_id) c).

Definition clear_cache (c : Cache) : Cache := ∅.

End MerchantService.


(* ===================================================================== *)
(** * Slices and repetition of strings *)
(* ===================================================================== *)

Module Slices.

(** The first [n] characters, and what follows them. *)
Fixpoint str_take (n : nat) (s : string) : string :=
  match n, s with
  | S n', String c s' => String c (str_take n' s')
  | _, _ => EmptyString
  end.

Fixpoint str_drop (n : nat) (s : string) : string :=
  match n, s with
  | S n', String _ s' => str_drop n' s'
  | _, _ => s
  end.

(** The position a slice bound [i] denotes in a sequence of length [n]:
    a negative bound counts from the end, and a bound out of range is
    clipped. *)
Definition slice_bound (n i : Z) : nat :=
  Z.to_nat (if i <? 0 then Z.max 0 (n + i) else Z.min i n).

(** [s[:i]], [s[i:]] and [s[i:j]] *)
Definition slice_to (i : Z) (s : string) : string :=
  str_take (slice_bound (len s) i) s.

Definition slice_from (i : Z) (s : string) : string :=
  str_drop (slice_bound (len s) i) s.

Definition slice (i j : Z) (s : string) : string :=
  str_take (slice_bound (len s) j - slice_bound (len s) i)
    (str_drop (slice_bound (len s) i) s).

(** [s * n] *)
Fixpoint repeat_nat (s : string) (n : nat) : string :=
  match n with
  | O => EmptyString
  | S n' => s +:+ repeat_nat s n'
  end.

Definition str_repeat (s : string) (n : Z) : string := repeat_nat s (Z.to_nat n).

(** [''.join(c for c in s if p(c))] *)
Fixpoint str_filter (p : ascii -> bool) (s : string) : string :=
  match s with
  | EmptyString => EmptyString
  | String c s' => if p c then String c (str_filter p s') else str_filter p s'
  end.

(** The string is empty or begins with a character that is not
    whitespace. *)
Definition starts_clean (s : string) : Prop :=
  match s with
  | String c _ => char_isspace c = false
  | EmptyString => True
  end.

End Slices.

(* ===================================================================== *)
(** * The language of a pattern *)
(* ===================================================================== *)

Module RegexLang.
Import Regex.

(** [matches r s]: the whole of [s] is a word of [r]. *)
Inductive matches : regex -> string -> Prop :=
| MEps : matches Eps EmptyString
| MCls p c : p c = true -> matches (Cls p) (String c EmptyString)
| MCat r1 r2 s1 s2 : matches r1 s1 -> matches r2 s2 -> matches (Cat r1 r2) (s1 +:+ s2)
| MAltL r1 r2 s : matches r1 s -> matches (Alt r1 r2) s
| MAltR r1 r2 s : matches r2 s -> matches (Alt r1 r2) s
| MStarNil r : matches (Star r) EmptyString
| MStarCons r s1 s2 :
    matches r s1 -> matches (Star r) s2 -> matches (Star r) (s1 +:+ s2).

End RegexLang.

(* ===================================================================== *)
(** * utils/validators.py: [sanitize_input] *)
(* ===================================================================== *)

Module Sanitize.

(** [text.replace('\x00', '')] followed by [strip()]. *)
Definition sanitize_input (text : string) : string :=
  if String.eqb text EmptyString then EmptyString
  else strip (str_remove (Ascii.eqb "000"%char) text).

End Sanitize.

(* ===================================================================== *)
(** * utils/security.py: [DataProtection] *)
(* ===================================================================== *)

Module DataProtection.
Import Regex Validators Slices.

(** [ord(char) >= 32 or char in '\t\n\r'] *)
Definition printable (c : ascii) : bool :=
  (32 <=? code c)%N || one_of ["009"; "010"; "013"]%char c.

(** The argument is a [str]; the result is cut at 1000 characters. *)
Definition sanitize_input (text : string) : string :=
  slice_to 1000 (str_filter printable text).

Definition mask_sensitive_data (data mask_char : string) (visible_chars : Z) : string :=
  if String.eqb data EmptyString || (len data <=? visible_chars) then
    if negb (String.eqb data EmptyString) then str_repeat mask_char (len data)
    else EmptyString
  else
    str_repeat mask_char (len data - visible_chars)
    +:+ slice_from (- visible_chars) data.

(** [bool(re.match(pattern, email))], with the pattern of
    [validators.validate_email]. *)
Definition validate_email (email : string) : bool := re_match email_pattern email.

(** [re.sub(r'\D', '', phone)] keeps the decimal digits. *)
Definition validate_phone (phone : string) : bool :=
  let digits_only := str_remove (fun c => negb (char_isdecimal c)) phone in
  (10 <=? len digits_only) && (len digits_only <=? 15).

End DataProtection.

(* ===================================================================== *)
(** * utils/formatters.py *)
(* ===================================================================== *)

Module Formatters.
Import Slices.

Definition format_phone (phone : string) : string :=
  if String.eqb phone EmptyString then "N/A"
  else
    let digits := str_filter char_isdigit phone in
    if len digits =? 10 then
      "(" +:+ slice_to 3 digits +:+ ") " +:+ slice 3 6 digits +:+ "-"
      +:+ slice_from 6 digits
    else if (len digits =? 11)
            && match digits with
               | String c _ => Ascii.eqb c "1"
               | EmptyString => false    (* not reached: [digits[0]] of eleven *)
               end then
      "+1 (" +:+ slice 1 4 digits +:+ ") " +:+ slice 4 7 digits +:+ "-"
      +:+ slice_from 7 digits
    else phone.

Definition truncate_text (text : string) (max_length : Z) (suffix : string) : string :=
  if String.eqb text EmptyString then EmptyString
  else if len text <=? max_length then text
  else slice_to (max_length - len suffix) text +:+ suffix.

End Formatters.


(* ===================================================================== *)
(** * Sample data for the modules above *)
(* ===================================================================== *)

Module Fixtures.
Import EventBus.

(** A handler that fails, and unsubscribes another one while it runs;
    every other handler returns. *)
Definition spiteful (cb : Handler) (data : pyval) (s : Subscribers)
    : outcome unit * Subscribers :=
  if Nat.eqb cb 1
  then (Raise (Exception_ "ValueError" "bad event"), unsubscribe "auth.logout" 2%nat s)
  else (Ret tt, s).

End Fixtures.

(* ===================================================================== *)
(** * Sanity checks of the embedding on concrete inputs *)
(* ===================================================================== *)

Section Checks.
Import Validators Scenario Panels VerificationService.

Example validate_pin_six_digits : validate_pin "123456" = (true, EmptyString).
Proof. reflexivity. Qed.

Example validate_pin_five_digits :
  validate_pin "12345" = (false, "PIN must be exactly 6 digits").
Proof. reflexivity. Qed.

Example validate_pin_letter :
  validate_pin "12345a" = (false, "PIN must contain only digits").
Proof. reflexivity. Qed.

Example validate_merchant_id_uuid :
  validate_merchant_id "123e4567-e89b-12d3-a456-426614174000" = (true, EmptyString).
Proof. vm_compute. reflexivity. Qed.

Example validate_merchant_id_negative :
  validate_merchant_id "-5" = (false, "Merchant ID must be a positive number").
Proof. vm_compute. reflexivity. Qed.

Example validate_merchant_id_underscore :
  validate_merchant_id "1_000" = (true, EmptyString).
Proof. vm_compute. reflexivity. Qed.

Example validate_merchant_id_opaque :
  validate_merchant_id "pg-merchant-17" = (true, EmptyString).
Proof. vm_compute. reflexivity. Qed.

Example validate_merchant_id_long :
  validate_merchant_id long_merchant_id
  = (false, "Merchant ID is too long (max 50 characters)").
Proof. vm_compute. reflexivity. Qed.

Example validate_email_ok : validate_email "a.b@example.co.uk" = (true, EmptyString).
Proof. vm_compute. reflexivity. Qed.

Example validate_email_no_tld :
  validate_email "a.b@example" = (false, "Invalid email address format").
Proof. vm_compute. reflexivity. Qed.

Example validate_phone_ok : validate_phone "+1 (555) 123-4567" = (true, EmptyString).
Proof. vm_compute. reflexivity. Qed.

Example validate_phone_short :
  validate_phone "12345"
  = (false, "Invalid phone number format (10-15 digits required)").
Proof. vm_compute. reflexivity. Qed.

Example websocket_url :
  WebSocketManager.get_websocket_url demo_cfg 7 "tok"
  = "ws://10.5.96.4:8000/ws/auth/7/?token=tok".
Proof. vm_compute. reflexivity. Qed.

(** A wrong PIN in a fresh session: one network call, one attempt
    charged, the panel back in [AWAITING_CODE] with the boxes cleared. *)
Example one_wrong_pin :
  let a := submit rejecting "111111" awaiting_email in
  e_state (email a) = AWAITING_CODE
  /\ attempts_count (vstate (world a)) = 1
  /\ length (net_calls (trace (world a))) = 1%nat
  /\ verification_status (vstate (world a)) = "failed_attempt"
  /\ pool a = [].
Proof. vm_compute. repeat split; reflexivity. Qed.

(** The accepted PIN ends the session. *)
Example right_pin :
  let a := submit (answering {[ "auth_id" := PStr "auth-1" ]}) "111111" awaiting_email in
  e_state (email a) = COMPLETE
  /\ vstate (world a) = VerificationState.initial
  /\ e_selected_merchant (email a) = None.
Proof. vm_compute. repeat split; reflexivity. Qed.

End Checks.

(* ===================================================================== *)
(** * Token lifecycle *)
(* ===================================================================== *)

Section TokenLifecycle.
Import BaseClient.

(** C4.  For every token and every observation time [now],
    [needs_refresh] holds exactly when [now >= expires_at - 300 s] and
    [is_expired] holds exactly when [now >= expires_at]. *)
Theorem token_refresh_and_expiry (t : AuthTokens) (now : Z) :
  (needs_refresh now t = true <-> now >= expires_at t - seconds 300)
  /\ (is_expired now t = true <-> now >= expires_at t).
Proof.
  unfold needs_refresh, is_expired, Settings.TOKEN_REFRESH_THRESHOLD.
  split; rewrite Z.geb_le; lia.
Qed.

(** The two predicates at the boundary instants of a one-hour token. *)
Example token_boundaries :
  let t := Scenario.demo_tokens in
  needs_refresh (seconds 3300 - 1) t = false
  /\ needs_refresh (seconds 3300) t = true
  /\ is_expired (seconds 3600 - 1) t = false
  /\ is_expired (seconds 3600) t = true.
Proof. repeat split; reflexivity. Qed.

Lemma is_authenticated_spec (w : World) :
  is_authenticated w
  = (Ret (match shared_tokens w with
          | Some t => negb (is_expired (clock w) t)
          | None => false
          end), w).
Proof. reflexivity. Qed.

(** C6.  An authenticated request made while no token is stored, or
    while the stored token is expired at the time of the call, returns
    the failure "Authentication required" with status 401 and leaves the
    whole process state, the record of network calls included, as it
    was. *)
Theorem unauthenticated_request_fails_locally
    (E : Env) (c : ClientId) (method endpoint : string) (json : Dict) (w : World) :
  (shared_tokens w = None
   \/ exists t, shared_tokens w = Some t /\ is_expired (clock w) t = true) ->
  _make_request E c method endpoint true json w
  = (Ret {| success := false; data := None;
            error := Some "Authentication required";
            status_code := Some 401 |}, w).
Proof.
  intros H. unfold _make_request, bind. cbn [andb].
  rewrite is_authenticated_spec.
  destruct H as [-> | (t & -> & ->)]; reflexivity.
Qed.

Lemma unauthenticated_request_fails_locally_witness :
  _make_request Scenario.rejecting TheVerificationClient "POST"
    "http://10.5.96.4:8000/api/auth/verify-pin/" true ∅ Scenario.logged_out
  = (Ret {| success := false; data := None;
            error := Some "Authentication required";
            status_code := Some 401 |}, Scenario.logged_out).
Proof.
  apply unauthenticated_request_fails_locally. left. reflexivity.
Defined.

(** With a token that is still valid the same request reaches the
    network. *)
Example authenticated_request_is_sent :
  let '(r, w) :=
    _make_request Scenario.rejecting TheVerificationClient "POST"
      "http://10.5.96.4:8000/api/auth/verify-pin/" true ∅ Scenario.logged_in in
  length (net_calls (trace w)) = 1%nat
  /\ r = Ret (failed "invalid_pin" None).
Proof. vm_compute. split; reflexivity. Qed.

End TokenLifecycle.

(* ===================================================================== *)
(** * Worker dispatch *)
(* ===================================================================== *)

Section Dispatch.
Import ThreadingUtils.

(** C9, as the code has it.  When the wrapped operation returns, or
    raises an instance of [Exception], [run] emits exactly one outcome
    signal, [result] with the value or [error] with the text of the
    exception, followed by [finished], and no exception leaves [run].
    The handler is [except Exception]: what derives from
    [BaseException] only is not covered. *)
Theorem worker_delivers_one_outcome
    {A : Type} (fn : M A) (w w' : World) (o : outcome A) :
  fn w = (o, w') ->
  (forall exc, o = Raise exc -> is_Exception exc = true) ->
  run fn w = ({| emitted := [outcome_signal o; finished]; escaped := None |}, w').
Proof.
  intros Hfn Hexc. unfold run. rewrite Hfn.
  destruct o as [value | exc]; [reflexivity |].
  rewrite (Hexc exc eq_refl). reflexivity.
Qed.

Lemma worker_delivers_one_outcome_witness :
  run (VerificationService.validate_any Validators.validate_email (PInt 5))
    Scenario.logged_in
  = ({| emitted := [error "expected string or bytes-like object"; finished];
        escaped := None |}, Scenario.logged_in).
Proof.
  apply (worker_delivers_one_outcome
           (VerificationService.validate_any Validators.validate_email (PInt 5))
           Scenario.logged_in Scenario.logged_in
           (Raise (Exception_ "TypeError" "expected string or bytes-like object"))).
  - reflexivity.
  - intros exc H. injection H as <-. reflexivity.
Defined.

(** C9 as stated fails where the wrapped operation raises something
    that derives from [BaseException] only, here [SystemExit]: no
    outcome signal is emitted, [finished] alone is, and the exception
    leaves [run]. *)
Example worker_lets_system_exit_through :
  run (raise (A := unit) (BaseException_ "SystemExit" "0")) Scenario.logged_in
  = ({| emitted := [finished];
        escaped := Some (BaseException_ "SystemExit" "0") |}, Scenario.logged_in).
Proof. reflexivity. Qed.

End Dispatch.

(* ===================================================================== *)
(** * Verification state *)
(* ===================================================================== *)

Section VerificationStateFacts.
Import VerificationState VerificationService.

(** C10.  With no verification active, [complete_verification] and
    [cancel_session] leave the process state as it was, so nothing is
    emitted.  With a verification active, after either of them
    [is_active()] is false, [get_attempts()] is 0, [get_auth_id()] is
    [None] and [get_status()] is ["idle"]. *)
Theorem complete_verification_resets_or_skips
    (ok : bool) (message : string) (w : World) :
  match current_verification (vstate w) with
  | None =>
      complete_verification ok message w = (Ret tt, w)
      /\ cancel_session w = (Ret false, w)
  | Some _ =>
      let after_complete := snd (complete_verification ok message w) in
      let after_cancel := snd (cancel_session w) in
      fst (complete_verification ok message w) = Ret tt
      /\ fst (cancel_session w) = Ret true
      /\ after_cancel = snd (complete_verification false "Cancelled by user" w)
      /\ fst (is_active after_complete) = Ret false
      /\ fst (get_attempts after_complete) = Ret 0
      /\ fst (get_auth_id after_complete) = Ret PNone
      /\ fst (get_status after_complete) = Ret "idle"
      /\ fst (is_active after_cancel) = Ret false
      /\ fst (get_attempts after_cancel) = Ret 0
      /\ fst (get_auth_id after_cancel) = Ret PNone
      /\ fst (get_status after_cancel) = Ret "idle"
  end.
Proof.
  unfold cancel_session, complete_verification, is_active, bind, gets.
  destruct (current_verification (vstate w)) eqn:Hcv; cbn;
    rewrite ?Hcv; cbn; repeat split; reflexivity.
Qed.

(** What the completion of an active verification emits. *)
Example completion_emits_signal :
  trace (snd (cancel_session Scenario.session_world))
  = [Emit (verification_completed false "Cancelled by user" (PStr "auth-1"))].
Proof. reflexivity. Qed.

End VerificationStateFacts.

(* ===================================================================== *)
(** * Reasoning about the monad *)
(* ===================================================================== *)

Section MonadRules.
Context {A B : Type}.

Lemma leads_ret (P Q : World -> Prop) (a : A) :
  (forall w, P w -> Q w) -> leads P (ret a) Q.
Proof. intros H w Hw. apply H, Hw. Qed.

Lemma leads_raise (P Q : World -> Prop) (e : exn) :
  (forall w, P w -> Q w) -> leads P (raise (A := A) e) Q.
Proof. intros H w Hw. apply H, Hw. Qed.

Lemma leads_gets (P Q : World -> Prop) (f : World -> A) :
  (forall w, P w -> Q w) -> leads P (gets f) Q.
Proof. intros H w Hw. apply H, Hw. Qed.

Lemma leads_bind (P R Q : World -> Prop) (m : M A) (f : A -> M B) :
  leads P m R ->
  (forall w, R w -> Q w) ->
  (forall a, leads R (f a) Q) ->
  leads P (bind m f) Q.
Proof.
  intros Hm HRQ Hf w Hw. unfold bind.
  specialize (Hm w Hw). destruct (m w) as [[a | e] w1]; cbn in *.
  - apply Hf, Hm.
  - apply HRQ, Hm.
Qed.

Lemma leads_weaken (P P' Q Q' : World -> Prop) (m : M A) :
  leads P' m Q' ->
  (forall w, P w -> P' w) -> (forall w, Q' w -> Q w) ->
  leads P m Q.
Proof. intros Hm HP HQ w Hw. apply HQ, Hm, HP, Hw. Qed.

End MonadRules.

Lemma leads_modify (P Q : World -> Prop) (f : World -> World) :
  (forall w, P w -> Q (f w)) -> leads P (modify f) Q.
Proof. intros H w Hw. apply H, Hw. Qed.

Lemma leads_try_except {A} (P R Q : World -> Prop) (body : M A) (handler : exn -> M A) :
  leads P body R ->
  (forall w, R w -> Q w) ->
  (forall e, leads R (handler e) Q) ->
  leads P (try_except body handler) Q.
Proof.
  intros Hb HRQ Hh w Hw. unfold try_except.
  specialize (Hb w Hw). destruct (body w) as [[a | e] w1]; cbn in *.
  - apply HRQ, Hb.
  - destruct (is_Exception e); [apply Hh, Hb | apply HRQ, Hb].
Qed.

(* ===================================================================== *)
(** * The request engine leaves the verification state alone *)
(* ===================================================================== *)

Section RequestEngineFrame.
Import BaseClient.

Lemma with_client_vstate c x w : vstate (with_client c x w) = vstate w.
Proof. destruct c; reflexivity. Qed.

Lemma update_auth_header_vstate c w :
  vstate (snd (_update_auth_header c w)) = vstate w.
Proof.
  unfold _update_auth_header, modify. cbn.
  destruct (shared_tokens w); apply with_client_vstate.
Qed.

Lemma make_request_vstate E c method endpoint authenticated json w :
  vstate (snd (_make_request E c method endpoint authenticated json w)) = vstate w.
Proof.
  unfold _make_request, bind.
  destruct authenticated; cbn [andb].
  - rewrite is_authenticated_spec.
    destruct (match shared_tokens w with
              | Some t => negb (is_expired (clock w) t)
              | None => false
              end); cbn [negb]; [| reflexivity].
    pose proof (update_auth_header_vstate c w) as Hh.
    destruct (_update_auth_header c w) as [[[] | e] w1]; cbn in Hh |- *;
      [| exact Hh].
    unfold session_request.
    destruct (server E _ _); cbn; exact Hh.
  - cbn. destruct (server E _ _); reflexivity.
Qed.

Lemma post_vstate E c endpoint json w :
  vstate (snd (post E c endpoint json w)) = vstate w.
Proof. apply make_request_vstate. Qed.

(** A predicate on the verification state is kept by every request. *)
Lemma leads_post (P : VState -> Prop) E c endpoint json :
  leads (fun w => P (vstate w)) (post E c endpoint json) (fun w => P (vstate w)).
Proof. intros w Hw. rewrite post_vstate. exact Hw. Qed.

End RequestEngineFrame.

(* ===================================================================== *)
(** * The attempt budget *)
(* ===================================================================== *)

Section AttemptBudget.
Import VerificationState VerificationService.

Variable E : Env.

Lemma within_budget_frame (w w' : World) :
  vstate w' = vstate w -> within_budget w -> within_budget w'.
Proof. unfold within_budget. intros ->. tauto. Qed.

Lemma client_call_keeps_budget {A} (m : M A) :
  (forall w, vstate (snd (m w)) = vstate w) ->
  leads within_budget m within_budget.
Proof. intros H w Hw. eapply within_budget_frame; [apply H | exact Hw]. Qed.

Lemma verify_pin_vstate pin merchant_id user_id w :
  vstate (snd (VerificationClient.verify_pin E pin merchant_id user_id w)) = vstate w.
Proof.
  unfold VerificationClient.verify_pin.
  destruct (_ || _); [reflexivity |].
  destruct (String.eqb merchant_id _); [reflexivity |].
  apply post_vstate.
Qed.

Lemma send_email_auth_vstate email merchant_id user_id w :
  vstate (snd (VerificationClient.send_email_auth E email merchant_id user_id w))
  = vstate w.
Proof.
  unfold VerificationClient.send_email_auth.
  destruct (String.eqb email _); [reflexivity |].
  destruct (String.eqb merchant_id _); [reflexivity |].
  apply post_vstate.
Qed.

Lemma initiate_sms_vstate merchant_id phone w :
  vstate (snd (VerificationClient.initiate_sms_verification E merchant_id phone w))
  = vstate w.
Proof. apply post_vstate. Qed.

Lemma confirm_sms_vstate session_id code w :
  vstate (snd (VerificationClient.confirm_sms_verification E session_id code w))
  = vstate w.
Proof.
  unfold VerificationClient.confirm_sms_verification.
  destruct (_ || _); [reflexivity |].
  apply post_vstate.
Qed.

Lemma start_verification_budget customer_id method token auth_id :
  leads within_budget (start_verification customer_id method token auth_id)
    within_budget.
Proof. intros w [H1 H2]. unfold within_budget in *. cbn. lia. Qed.

Lemma complete_verification_budget ok message :
  leads within_budget (complete_verification ok message) within_budget.
Proof.
  intros w [H1 H2]. unfold within_budget, complete_verification, bind, gets in *.
  destruct (current_verification (vstate w)); cbn; lia.
Qed.

Lemma update_status_budget status message :
  leads within_budget (update_status status message) within_budget.
Proof. intros w H. exact H. Qed.

Lemma increment_attempts_budget :
  leads (fun w => within_budget w
                  /\ attempts_count (vstate w) < max_attempts (vstate w))
    increment_attempts within_budget.
Proof. intros w [[H1 H2] H3]. unfold within_budget in *. cbn. lia. Qed.

Lemma validate_any_state validate v w :
  snd (validate_any validate v w) = w.
Proof. destruct v as [| b | z | s]; cbn; try reflexivity; destruct (_ : bool); reflexivity. Qed.

Lemma verify_pin_code_budget pin merchant_id user_id :
  leads within_budget (verify_pin_code E pin merchant_id user_id) within_budget.
Proof.
  unfold verify_pin_code.
  destruct (Validators.validate_pin pin) as [is_valid err].
  destruct is_valid; cbn [negb]; [| apply leads_ret; auto].
  destruct (truthy merchant_id); cbn [negb]; [| apply leads_ret; auto].
  intros w Hw. unfold bind at 1. unfold is_max_attempts_reached, gets.
  destruct (Z.geb_spec (attempts_count (vstate w)) (max_attempts (vstate w)))
    as [Hge | Hlt]; [exact Hw |].
  revert w Hw Hlt.
  cut (leads (fun w => within_budget w
                       /\ attempts_count (vstate w) < max_attempts (vstate w))
         (increment_attempts ;;;
          response <~ VerificationClient.verify_pin E pin (py_str merchant_id) user_id ;;
          if success response then
            complete_verification true "PIN verified successfully" ;;;
            ret {| vr_success := true;
                   vr_message :=
                     dict_get_or (default ∅ (data response)) "message"
                       (PStr "PIN verified successfully");
                   vr_auth_id := dict_get (default ∅ (data response)) "auth_id";
                   vr_session_id := PNone;
                   vr_data := Some (default ∅ (data response)) |}
          else
            update_status "failed_attempt" (ErrorTranslator.translate (error response)) ;;;
            ret (rejected (ErrorTranslator.translate (error response))))
         within_budget).
  { intros H w Hw Hlt. apply H. split; assumption. }
  eapply leads_bind; [apply increment_attempts_budget | auto |]. intros _.
  eapply leads_bind;
    [apply client_call_keeps_budget, verify_pin_vstate | auto |].
  intros response. destruct (success response).
  - eapply leads_bind; [apply complete_verification_budget | auto |].
    intros _. apply leads_ret; auto.
  - eapply leads_bind; [apply update_status_budget | auto |].
    intros _. apply leads_ret; auto.
Qed.

Lemma start_email_verification_budget merchant_data user_id :
  leads within_budget (start_email_verification E merchant_data user_id) within_budget.
Proof.
  unfold start_email_verification.
  destruct (truthy (dict_get merchant_data "merchant_id")); cbn [negb];
    [| apply leads_ret; auto].
  destruct (Validators.validate_merchant_id _) as [is_valid err].
  destruct is_valid; cbn [negb]; [| apply leads_ret; auto].
  destruct (truthy (py_or _ _)); cbn [negb]; [| apply leads_ret; auto].
  eapply leads_bind;
    [apply client_call_keeps_budget; intros w; rewrite validate_any_state; reflexivity
    | auto |].
  intros [is_valid err']. destruct is_valid; cbn [negb]; [| apply leads_ret; auto].
  eapply leads_bind;
    [apply client_call_keeps_budget, send_email_auth_vstate | auto |].
  intros response. destruct (success response).
  - eapply leads_bind; [apply start_verification_budget | auto |].
    intros _. apply leads_ret; auto.
  - apply leads_ret; auto.
Qed.

Lemma start_sms_verification_budget merchant_data user_id :
  leads within_budget (start_sms_verification E merchant_data user_id) within_budget.
Proof.
  unfold start_sms_verification.
  destruct (truthy (dict_get merchant_data "merchant_id")); cbn [negb];
    [| apply leads_ret; auto].
  destruct (truthy (py_or _ _)); cbn [negb]; [| apply leads_ret; auto].
  eapply leads_bind;
    [apply client_call_keeps_budget; intros w; rewrite validate_any_state; reflexivity
    | auto |].
  intros [is_valid err']. destruct is_valid; cbn [negb]; [| apply leads_ret; auto].
  eapply leads_bind;
    [apply client_call_keeps_budget, initiate_sms_vstate | auto |].
  intros response. destruct (success response).
  - eapply leads_bind; [apply start_verification_budget | auto |].
    intros _. apply leads_ret; auto.
  - apply leads_ret; auto.
Qed.

Lemma verify_sms_code_budget code session_id :
  leads within_budget (verify_sms_code E code session_id) within_budget.
Proof.
  unfold verify_sms_code.
  destruct (String.eqb code _); [apply leads_ret; auto |].
  destruct (truthy session_id); cbn [negb]; [| apply leads_ret; auto].
  eapply leads_bind;
    [apply client_call_keeps_budget, confirm_sms_vstate | auto |].
  intros response. destruct (success response).
  - eapply leads_bind; [apply complete_verification_budget | auto |].
    intros _. apply leads_ret; auto.
  - apply leads_ret; auto.
Qed.

Lemma cancel_session_budget : leads within_budget cancel_session within_budget.
Proof.
  unfold cancel_session.
  eapply leads_bind; [apply leads_gets; eauto | auto |].
  intros active. destruct active; cbn [negb]; [| apply leads_ret; auto].
  eapply leads_bind; [apply complete_verification_budget | auto |].
  intros _. apply leads_ret; auto.
Qed.

Lemma perform_budget op w : within_budget w -> within_budget (perform E op w).
Proof.
  destruct op; cbn [perform].
  - apply start_email_verification_budget.
  - apply verify_pin_code_budget.
  - apply start_sms_verification_budget.
  - apply verify_sms_code_budget.
  - apply cancel_session_budget.
Qed.

Lemma reachable_within_budget w : reachable E w -> within_budget w.
Proof.
  induction 1 as [w Hinit | w op _ IH | w w' _ IH Heq].
  - unfold within_budget. rewrite Hinit. cbn. lia.
  - apply perform_budget, IH.
  - eapply within_budget_frame; eassumption.
Qed.

(** What [verify_pin_code] does once the budget is used up. *)
Lemma verify_pin_code_exhausted pin merchant_id user_id w :
  attempts_count (vstate w) >= max_attempts (vstate w) ->
  exists msg,
    verify_pin_code E pin merchant_id user_id w = (Ret (rejected msg), w)
    /\ (fst (Validators.validate_pin pin) = true ->
        truthy merchant_id = true ->
        msg = "Maximum verification attempts exceeded").
Proof.
  intros Hmax. unfold verify_pin_code.
  destruct (Validators.validate_pin pin) as [is_valid err].
  destruct is_valid; cbn [negb fst].
  2: { exists err. split; [reflexivity | discriminate]. }
  destruct (truthy merchant_id); cbn [negb].
  2: { eexists. split; [reflexivity | discriminate]. }
  unfold bind at 1. unfold is_max_attempts_reached, gets.
  destruct (Z.geb_spec (attempts_count (vstate w)) (max_attempts (vstate w)));
    [| lia].
  eexists. split; reflexivity.
Qed.

End AttemptBudget.

(* ===================================================================== *)
(** * Token refresh *)
(* ===================================================================== *)

Section Refresh.
Import BaseClient AuthClient.

Variable E : Env.

Lemma with_trace_same w : with_trace (trace w) w = w.
Proof. destruct w; reflexivity. Qed.

(** Observers that raise nothing but [Exception]s are all called, in the
    order of registration, and the loop returns. *)
Lemma fire_callbacks_benign mk cbs w :
  Forall benign cbs ->
  fire_callbacks mk cbs w
  = (Ret tt, with_trace (trace w ++ map (fun cb => mk (cb_name cb)) cbs) w).
Proof.
  intros H. revert w. induction H as [| cb cbs Hcb _ IH]; intros w.
  - cbn. rewrite app_nil_r, with_trace_same. reflexivity.
  - cbn [fire_callbacks map]. unfold bind at 1.
    assert (Hstep :
      try_except
        (record_event (mk (cb_name cb)) ;;; (fun w0 => (cb_result cb, w0)))
        (fun _ => ret tt) w
      = (Ret tt, with_trace (trace w ++ [mk (cb_name cb)]) w)).
    { unfold try_except, bind, record_event, modify. cbn.
      unfold benign in Hcb. destruct (cb_result cb) as [[] | e].
      - reflexivity.
      - rewrite Hcb. reflexivity. }
    rewrite Hstep, IH. cbn. rewrite <- app_assoc. reflexivity.
Qed.

(** An unauthenticated request always reaches the network. *)
Lemma make_request_public c method endpoint json w :
  _make_request E c method endpoint false json w
  = let r := request_of E c method endpoint json w in
    let w1 := with_trace (trace w ++ [NetCall r]) w in
    match server E (length (net_calls (trace w))) r with
    | Http2xx st body =>
        (Ret {| success := true; data := body; error := None;
                status_code := Some st |}, w1)
    | HttpFailure st error_message => (Ret (failed error_message None), w1)
    | ConnectionFailure =>
        (Ret (failed
                "Unable to connect to server. Please check your internet connection."
                None), w1)
    | TimedOut => (Ret (failed "Request timed out. Please try again." None), w1)
    | RequestFailure msg => (Ret (failed msg None), w1)
    | Crash e => (Raise e, w1)
    end.
Proof.
  unfold _make_request, bind, session_request, request_of. cbn.
  destruct (server E _ _); reflexivity.
Qed.

End Refresh.

(* ===================================================================== *)
(** * The attempt budget of a verification session *)
(* ===================================================================== *)

Section BudgetClaim.
Import VerificationService.



(** The state of that witness: five attempts charged by five network
    calls after the one that sent the code, and the sixth submit adds
    none. *)
Example five_charged_state :
  attempts_count (vstate Scenario.five_charged) = 5
  /\ length (net_calls (trace Scenario.five_charged)) = 6%nat
  /\ verify_pin_code Scenario.accepting_once "111111" Scenario.demo_uuid (PInt 7)
       Scenario.five_charged
     = (Ret (rejected "Maximum verification attempts exceeded"),
        Scenario.five_charged).
Proof. vm_compute. repeat split; reflexivity. Qed.

End BudgetClaim.

Section RefreshBranches.
Import BaseClient AuthClient.

Variable E : Env.

Lemma refresh_token_unfold w :
  truthy (stored_refresh_token w) = true ->
  refresh_token E w
  = try_except
      (response <~ post_public E TheAuthClient
                     (Settings.get_api_endpoints (cfg E) "refresh")
                     {[ "refresh" := stored_refresh_token w ]} ;;
       if success response && data_truthy (data response) then
         let access_token := dict_get (default ∅ (data response)) "access" in
         if negb (truthy access_token) then
           ret (failed "Invalid refresh response: missing access token"
                  (status_code response))
         else
           set_tokens TheAuthClient access_token (stored_refresh_token w) 3600 ;;;
           _fire_token_refresh_callbacks TheAuthClient ;;;
           ret {| success := true;
                  data := Some {[ "message" := PStr "Token refreshed" ]};
                  error := None; status_code := None |}
       else
         clear_tokens TheAuthClient ;;;
         ret response)
      (fun e =>
         clear_tokens TheAuthClient ;;;
         ret (failed ("Token refresh failed: " +:+ exn_str e) None)) w.
Proof.
  intros H. unfold refresh_token. unfold bind at 1.
  unfold get_refresh_token, gets. fold (stored_refresh_token w).
  rewrite H. reflexivity.
Qed.

Lemma refresh_post w :
  post_public E TheAuthClient (Settings.get_api_endpoints (cfg E) "refresh")
    {[ "refresh" := stored_refresh_token w ]} w
  = let w1 := with_trace (trace w ++ [NetCall (refresh_request E w)]) w in
    match refresh_answer E w with
    | Http2xx st body =>
        (Ret {| success := true; data := body; error := None;
                status_code := Some st |}, w1)
    | HttpFailure st error_message => (Ret (failed error_message None), w1)
    | ConnectionFailure =>
        (Ret (failed
                "Unable to connect to server. Please check your internet connection."
                None), w1)
    | TimedOut => (Ret (failed "Request timed out. Please try again." None), w1)
    | RequestFailure msg => (Ret (failed msg None), w1)
    | Crash e => (Raise e, w1)
    end.
Proof. unfold post_public. rewrite make_request_public. reflexivity. Qed.

(** [clear_tokens] on the instance [_auth_client]. *)
Lemma clear_tokens_run w :
  Forall benign (on_logout (auth_client w)) ->
  exists w',
    clear_tokens TheAuthClient w = (Ret tt, w')
    /\ shared_tokens w' = None
    /\ authorization (auth_client w') = None
    /\ trace w'
       = trace w ++ map (fun cb => LogoutCallbackRun (cb_name cb))
                      (on_logout (auth_client w)).
Proof.
  intros Hb. unfold clear_tokens, bind, modify, _update_auth_header,
    _fire_logout_callbacks, gets. cbn.
  rewrite fire_callbacks_benign by exact Hb. cbn.
  eexists. split; [reflexivity |]. cbn. auto.
Qed.

(** A body with a truthy entry is not empty. *)
Lemma dict_truthy_of_entry (body : Dict) (k : string) :
  truthy (dict_get body k) = true -> dict_truthy body = true.
Proof.
  unfold dict_truthy, dict_get. intros H.
  destruct (bool_decide_reflect (body = ∅)) as [-> | _]; [| reflexivity].
  rewrite lookup_empty in H. discriminate.
Qed.

(** No refresh token stored: a local failure. *)
Lemma refresh_without_token w :
  truthy (stored_refresh_token w) = false ->
  refresh_token E w = (Ret (failed "No refresh token available" None), w).
Proof.
  intros H. unfold refresh_token. unfold bind at 1.
  unfold get_refresh_token, gets. fold (stored_refresh_token w).
  rewrite H. reflexivity.
Qed.

(** The endpoint answers with an access token. *)
Lemma refresh_accepted w st body :
  Forall benign (on_token_refresh (auth_client w)) ->
  truthy (stored_refresh_token w) = true ->
  refresh_answer E w = Http2xx st (Some body) ->
  truthy (dict_get body "access") = true ->
  exists w',
    refresh_token E w
    = (Ret {| success := true;
              data := Some {[ "message" := PStr "Token refreshed" ]};
              error := None; status_code := None |}, w')
    /\ shared_tokens w'
       = Some {| access_token := dict_get body "access";
                 Model.refresh_token := stored_refresh_token w;
                 expires_at := clock w + seconds 3600 |}
    /\ authorization (auth_client w')
       = Some ("Bearer " +:+ py_str (dict_get body "access"))
    /\ trace w'
       = trace w ++ NetCall (refresh_request E w)
           :: map (fun cb => RefreshCallbackRun (cb_name cb))
                (on_token_refresh (auth_client w)).
Proof.
  intros Hb Hstored Hanswer Haccess.
  rewrite refresh_token_unfold by exact Hstored.
  unfold try_except. unfold bind at 1. rewrite refresh_post, Hanswer.
  cbn [success data data_truthy andb default from_option id status_code].
  rewrite (dict_truthy_of_entry body "access" Haccess), Haccess. cbn [negb].
  unfold set_tokens, bind, modify, gets, _update_auth_header,
    _fire_token_refresh_callbacks. cbn.
  rewrite fire_callbacks_benign by exact Hb. cbn.
  eexists. split; [reflexivity |]. cbn.
  rewrite <- app_assoc. auto.
Qed.

(** The endpoint answers with a non-empty body that has no access token. *)
Lemma refresh_without_access w st body :
  truthy (stored_refresh_token w) = true ->
  refresh_answer E w = Http2xx st (Some body) ->
  dict_truthy body = true ->
  truthy (dict_get body "access") = false ->
  refresh_token E w
  = (Ret (failed "Invalid refresh response: missing access token" (Some st)),
     with_trace (trace w ++ [NetCall (refresh_request E w)]) w).
Proof.
  intros Hstored Hanswer Hbody Haccess.
  rewrite refresh_token_unfold by exact Hstored.
  unfold try_except. unfold bind at 1. rewrite refresh_post, Hanswer.
  cbn [success data data_truthy andb default from_option id status_code].
  rewrite Hbody, Haccess. reflexivity.
Qed.

(** The call fails. *)
Lemma refresh_refused w :
  Forall benign (on_logout (auth_client w)) ->
  truthy (stored_refresh_token w) = true ->
  call_failed (refresh_answer E w) ->
  exists resp w',
    refresh_token E w = (Ret resp, w')
    /\ success resp = false
    /\ shared_tokens w' = None
    /\ authorization (auth_client w') = None
    /\ trace w'
       = trace w ++ NetCall (refresh_request E w)
           :: map (fun cb => LogoutCallbackRun (cb_name cb))
                (on_logout (auth_client w)).
Proof.
  intros Hb Hstored Hfail.
  rewrite refresh_token_unfold by exact Hstored.
  unfold try_except. unfold bind at 1. rewrite refresh_post.
  set (w1 := with_trace (trace w ++ [NetCall (refresh_request E w)]) w).
  assert (Hb1 : Forall benign (on_logout (auth_client w1))) by exact Hb.
  destruct (clear_tokens_run w1 Hb1) as (w' & Hrun & Htok & Hauth & Htrace).
  assert (Htrace' :
    trace w' = trace w ++ NetCall (refresh_request E w)
                 :: map (fun cb => LogoutCallbackRun (cb_name cb))
                      (on_logout (auth_client w))).
  { rewrite Htrace. subst w1. cbn. rewrite <- app_assoc. reflexivity. }
  destruct (refresh_answer E w) as [st body | st msg | | | msg | e];
    cbn [call_failed] in Hfail; [contradiction | | | | |].
  all: cbv beta iota zeta delta [success failed andb].
  all: try rewrite Hfail.
  all: unfold bind; rewrite Hrun.
  all: eexists; exists w'; split; [reflexivity | cbn; auto].
Qed.

End RefreshBranches.

(* ===================================================================== *)
(** * The outcomes of a token refresh *)
(* ===================================================================== *)

Section RefreshClaim.
Import BaseClient AuthClient.


Lemma observed_client_benign :
  Forall benign (on_token_refresh Scenario.observed_client)
  /\ Forall benign (on_logout Scenario.observed_client).
Proof. split; repeat constructor. Defined.



(** A refused refresh, on the concrete process: tokens gone, both logout
    observers called although the first raises. *)
Example refresh_refused_logs_out :
  let w' := snd (refresh_token Scenario.rejecting Scenario.logged_in) in
  shared_tokens w' = None
  /\ trace w'
     = [ NetCall (refresh_request Scenario.rejecting Scenario.logged_in);
         LogoutCallbackRun "l1"; LogoutCallbackRun "l2" ]
  /\ fst (refresh_token Scenario.rejecting Scenario.logged_in)
     = Ret (failed "invalid_pin" None).
Proof. vm_compute. repeat split; reflexivity. Qed.

End RefreshClaim.

(* ===================================================================== *)
(** * Local validation *)
(* ===================================================================== *)

Section ValidationClaim.
Import VerificationService.

Variable E : Env.

Lemma verify_pin_code_gate pin merchant_id user_id w :
  pin_gate pin merchant_id = false ->
  exists msg, verify_pin_code E pin merchant_id user_id w = (Ret (rejected msg), w).
Proof.
  unfold pin_gate, verify_pin_code.
  destruct (Validators.validate_pin pin) as [is_valid err]. cbn [fst].
  destruct is_valid; cbn [negb andb]; [| eauto].
  intros ->. cbn [negb]. eauto.
Qed.

Lemma start_email_verification_gate merchant_data user_id w :
  email_gate merchant_data = false ->
  exists msg,
    start_email_verification E merchant_data user_id w = (Ret (rejected msg), w).
Proof.
  unfold email_gate, start_email_verification.
  destruct (truthy (dict_get merchant_data "merchant_id")); cbn [negb andb];
    [| eauto].
  destruct (Validators.validate_merchant_id _) as [is_valid err]. cbn [fst].
  destruct is_valid; cbn [negb andb]; [| eauto].
  destruct (py_or _ _) as [| b | z | s] eqn:Hemail; cbn [truthy negb andb].
  - eauto.
  - destruct b; cbn [negb]; [discriminate | eauto].
  - destruct (z =? 0); cbn [negb]; [eauto | discriminate].
  - destruct (String.eqb s EmptyString); cbn [negb andb]; [eauto |].
    unfold bind, validate_any, ret.
    destruct (Validators.validate_email s) as [ok err']. cbn [fst].
    intros ->. cbn [negb]. eauto.
Qed.

Lemma start_sms_verification_gate merchant_data user_id w :
  sms_gate merchant_data = false ->
  exists msg,
    start_sms_verification E merchant_data user_id w = (Ret (rejected msg), w).
Proof.
  unfold sms_gate, start_sms_verification.
  destruct (truthy (dict_get merchant_data "merchant_id")); cbn [negb andb];
    [| eauto].
  destruct (py_or _ _) as [| b | z | s] eqn:Hphone; cbn [truthy negb andb].
  - eauto.
  - destruct b; cbn [negb]; [discriminate | eauto].
  - destruct (z =? 0); cbn [negb]; [eauto | discriminate].
  - destruct (String.eqb s EmptyString); cbn [negb andb]; [eauto |].
    unfold bind, validate_any, ret.
    destruct (Validators.validate_phone s) as [ok err']. cbn [fst].
    intros ->. cbn [negb]. eauto.
Qed.

Lemma verify_sms_code_gate code session_id w :
  sms_code_gate code session_id = false ->
  exists msg, verify_sms_code E code session_id w = (Ret (rejected msg), w).
Proof.
  unfold sms_code_gate, verify_sms_code.
  destruct (String.eqb code EmptyString); cbn [negb andb]; [eauto |].
  intros ->. cbn [negb]. eauto.
Qed.


End ValidationClaim.

Section ValidationExamples.
Import VerificationService Scenario.



(** The same identifier is turned down by [start_email_verification]. *)
Example malformed_merchant_id_email :
  start_email_verification rejecting
    (<[ "merchant_id" := PStr long_merchant_id ]> demo_merchant) (PInt 7) logged_in
  = (Ret (rejected "Merchant ID is too long (max 50 characters)"), logged_in).
Proof. vm_compute. reflexivity. Qed.

(** [start_sms_verification] sends it on. *)
Example malformed_merchant_id_sms :
  length (net_calls (trace (snd (start_sms_verification rejecting
    (<[ "merchant_id" := PStr long_merchant_id ]> demo_merchant) (PInt 7)
    logged_in)))) = 1%nat.
Proof. vm_compute. reflexivity. Qed.

(** A malformed address never leaves the process. *)
Example malformed_email_is_local :
  start_email_verification rejecting
    (<[ "contact_email" := PStr "owner@example" ]> demo_merchant) (PInt 7) logged_in
  = (Ret (rejected "Invalid email address format"), logged_in).
Proof. vm_compute. reflexivity. Qed.

End ValidationExamples.

(* ===================================================================== *)
(** * Realtime messages at the panels *)
(* ===================================================================== *)

Section RealtimeUpdates.
Import Panels.

Lemma state_eqb_eq (x y : State) : state_eqb x y = true <-> x = y.
Proof. destruct x, y; cbn; split; (reflexivity || discriminate). Qed.

Lemma state_eqb_neq (x y : State) : x <> y -> state_eqb x y = false.
Proof.
  intros H. destruct (state_eqb x y) eqn:Heq; [| reflexivity].
  apply state_eqb_eq in Heq. contradiction.
Qed.

Lemma dict_get_or_insert_ne (data : Dict) (k k' : string) (v dflt : pyval) :
  k <> k' -> dict_get_or (<[ k := v ]> data) k' dflt = dict_get_or data k' dflt.
Proof. intros H. unfold dict_get_or. rewrite lookup_insert_ne by exact H. reflexivity. Qed.




(** With the identifier of the session the outcome is the same. *)
Example matching_message_completes_session :
  e_state (email (Email._on_ws_update
                    (<[ "auth_id" := PStr "auth-1" ]> Scenario.foreign_success)
                    Scenario.awaiting_email)) = COMPLETE.
Proof. vm_compute. reflexivity. Qed.

End RealtimeUpdates.

(* ===================================================================== *)
(** * Five wrong PINs on the email channel *)
(* ===================================================================== *)

Section WrongPins.
Import BaseClient VerificationState VerificationService ThreadingUtils Panels Scenario.

Variable E : Env.
Hypothesis Hrejects : forall n r, call_failed (server E n r).

(** What a request gives when the remote side accepts nothing. *)
Lemma post_rejected c endpoint json w :
  exists o w',
    post E c endpoint json w = (o, w')
    /\ vstate w' = vstate w
    /\ match o with
       | Ret response => success response = false
       | Raise e => is_Exception e = true
       end.
Proof.
  pose proof (post_vstate E c endpoint json w) as Hv.
  destruct (post E c endpoint json w) as [o w'] eqn:Hpost.
  exists o, w'. split; [reflexivity |]. split; [exact Hv |].
  revert Hpost. unfold post, _make_request, bind.
  rewrite is_authenticated_spec. cbn [andb].
  destruct (match shared_tokens w with
            | Some t => negb (is_expired (clock w) t)
            | None => false
            end); cbn [negb].
  - destruct (_update_auth_header c w) as [[[] | e] w1] eqn:Hh;
      [| discriminate Hh].
    unfold session_request.
    match goal with
    | |- context [server E ?n ?r] =>
        pose proof (Hrejects n r) as Hr; destruct (server E n r)
    end; cbn in Hr |- *; try contradiction;
      intros Heq; injection Heq as <- _; first [reflexivity | exact Hr].
  - intros Heq. injection Heq as <- _. reflexivity.
Qed.

Lemma verify_pin_rejected pin merchant_id user_id w :
  exists o w',
    VerificationClient.verify_pin E pin merchant_id user_id w = (o, w')
    /\ vstate w' = vstate w
    /\ match o with
       | Ret response => success response = false
       | Raise e => is_Exception e = true
       end.
Proof.
  unfold VerificationClient.verify_pin.
  destruct (_ || _); [eexists _, w; repeat split; reflexivity |].
  destruct (String.eqb merchant_id _);
    [eexists _, w; repeat split; reflexivity |].
  apply post_rejected.
Qed.

(** A well-formed PIN that is turned down charges one attempt. *)
Lemma verify_pin_code_wrong pin merchant_id user_id w :
  fst (Validators.validate_pin pin) = true ->
  truthy merchant_id = true ->
  attempts_count (vstate w) < max_attempts (vstate w) ->
  exists o w',
    verify_pin_code E pin merchant_id user_id w = (o, w')
    /\ attempts_count (vstate w') = attempts_count (vstate w) + 1
    /\ max_attempts (vstate w') = max_attempts (vstate w)
    /\ match o with
       | Ret r => vr_success r = false
       | Raise e => is_Exception e = true
       end.
Proof.
  intros Hpin Hmid Hlt. unfold verify_pin_code.
  destruct (Validators.validate_pin pin) as [is_valid err]. cbn [fst] in Hpin.
  subst is_valid. rewrite Hmid. cbn [negb].
  unfold bind at 1. unfold is_max_attempts_reached, gets.
  destruct (Z.geb_spec (attempts_count (vstate w)) (max_attempts (vstate w)));
    [lia |].
  unfold bind at 1. unfold increment_attempts, bind at 1, modify, gets.
  set (w1 := with_vstate (with_attempts (attempts_count (vstate w) + 1) (vstate w)) w).
  unfold bind at 1.
  destruct (verify_pin_rejected pin (py_str merchant_id) user_id w1)
    as (o & w2 & Hrun & Hv & Ho).
  rewrite Hrun.
  destruct o as [response | e].
  - rewrite Ho. unfold bind, update_status, modify, ret.
    eexists _, _. split; [reflexivity |]. cbn. rewrite Hv.
    repeat split; reflexivity.
  - eexists _, _. split; [reflexivity |]. rewrite Hv.
    split; [reflexivity |]. split; [reflexivity | exact Ho].
Qed.

Lemma validate_pin_length pin :
  fst (Validators.validate_pin pin) = true -> (len pin =? 6) = true.
Proof.
  unfold Validators.validate_pin.
  destruct (String.eqb pin EmptyString); [discriminate |].
  destruct (isdigit pin); cbn [negb]; [| discriminate].
  destruct (len pin =? 6); [reflexivity | discriminate].
Qed.

Lemma net_calls_app (t1 t2 : list Event) :
  net_calls (t1 ++ t2) = net_calls t1 ++ net_calls t2.
Proof. unfold net_calls. apply List.filter_app. Qed.

(** One wrong PIN typed into a panel that is ready: the attempt is
    charged and the panel is ready again. *)
Lemma submit_wrong pin n a :
  fst (Validators.validate_pin pin) = true ->
  n < 5 ->
  ready n a ->
  ready (n + 1) (submit E pin a).
Proof.
  intros Hpin Hn (Hst & Hpool & Hmid & Hatt & Hmax).
  unfold submit, Email.type_pin.
  rewrite (validate_pin_length pin Hpin).
  unfold Email._on_pin_auto_entered, Email._submit_pin. cbn.
  rewrite Hst. cbn.
  unfold run_next, start_worker. cbn. rewrite Hpool. cbn [app run_task].
  destruct (verify_pin_code_wrong pin (e_current_merchant_id (email a))
              (current_user_id (e_user_data (email a))) (world a))
    as (o & w' & Hrun & Hatt' & Hmax' & Ho); [assumption | assumption | lia |].
  unfold run. cbn. rewrite Hrun.
  destruct o as [r | e].
  - cbn. unfold Email._on_verify_result. rewrite Ho. cbn.
    unfold ready. cbn. repeat split; [exact Hmid | lia | lia].
  - rewrite Ho. cbn. unfold ready. cbn. repeat split; [exact Hmid | lia | lia].
Qed.

Lemma submit_all_wrong pins : forall n a,
  Forall (fun pin => fst (Validators.validate_pin pin) = true) pins ->
  n + Z.of_nat (length pins) <= 5 ->
  ready n a ->
  ready (n + Z.of_nat (length pins)) (submit_all E pins a).
Proof.
  induction pins as [| pin pins IH]; intros n a Hpins Hlen Hready.
  - cbn. rewrite Z.add_0_r. exact Hready.
  - inversion Hpins as [| ? ? Hpin Hrest]; subst.
    cbn [length] in Hlen |- *. rewrite Nat2Z.inj_succ in Hlen |- *.
    unfold submit_all. cbn [fold_left]. fold (submit_all E pins (submit E pin a)).
    replace (n + Z.succ (Z.of_nat (length pins)))
      with ((n + 1) + Z.of_nat (length pins)) by lia.
    apply IH; [exact Hrest | lia |].
    apply submit_wrong; [exact Hpin | lia | exact Hready].
Qed.

(** A submit with the budget used up: no request is sent and the panel
    is ready again. *)
Lemma submit_exhausted pin a :
  ready 5 a ->
  net_calls (trace (world (submit E pin a))) = net_calls (trace (world a))
  /\ e_state (email (submit E pin a)) = AWAITING_CODE
  /\ attempts_count (vstate (world (submit E pin a))) = 5.
Proof.
  intros (Hst & Hpool & Hmid & Hatt & Hmax).
  unfold submit, Email.type_pin.
  destruct (len pin =? 6).
  - unfold Email._on_pin_auto_entered, Email._submit_pin. cbn.
    rewrite Hst. cbn.
    unfold run_next, start_worker. cbn. rewrite Hpool. cbn [app run_task].
    destruct (verify_pin_code_exhausted E pin (e_current_merchant_id (email a))
                (current_user_id (e_user_data (email a))) (world a))
      as (msg & Hrun & _); [lia |].
    unfold run. cbn. rewrite Hrun. cbn.
    rewrite net_calls_app. cbn. rewrite app_nil_r. auto.
  - unfold run_next. cbn. rewrite Hpool. cbn. auto.
Qed.

End WrongPins.

Section WrongPinsClaim.
Import Panels Scenario.


Lemma awaiting_email_ready : ready 0 awaiting_email.
Proof. repeat split. Defined.

Lemma rejecting_rejects : forall n r, call_failed (server rejecting n r).
Proof. intros n r. exact I. Defined.



End WrongPinsClaim.

(* ===================================================================== *)
(** * The realtime channel *)
(* ===================================================================== *)

Section Reconnects.
Import WebSocketManager.

Variable cfg : Settings.Config.

Ltac open_handlers :=
  unfold handle, connect_user, disconnect_user, _on_connected,
    _on_disconnected, _on_message, _on_error, _send_ping, _attempt_connect,
    set_socket, stop_reconnect_timer, _MAX_RECONNECT_ATTEMPTS in *;
  cbn in *.

Ltac split_ifs :=
  repeat match goal with
         | H : context [if ?b then _ else _] |- _ => destruct b eqn:?
         | H : context [match ?p with JsonObject _ => _ | _ => _ end] |- _ =>
             destruct p
         | |- context [if ?b then _ else _] => destruct b eqn:?
         end.

Ltac arith :=
  repeat match goal with
         | H : (_ && _) = true |- _ => apply andb_true_iff in H; destruct H
         | H : (_ <? _) = true |- _ => apply Z.ltb_lt in H
         | H : (_ <? _) = false |- _ => apply Z.ltb_ge in H
         | H : (_ >=? _) = true |- _ => apply Z.geb_le in H
         | H : (_ >=? _) = false |- _ => rewrite Z.geb_leb in H; apply Z.leb_gt in H
         end.

Lemma terminal_errors_app out1 out2 :
  terminal_errors (out1 ++ out2) = (terminal_errors out1 + terminal_errors out2)%nat.
Proof. unfold terminal_errors. rewrite List.filter_app, length_app. reflexivity. Qed.

Lemma initial_settled : settled initial.
Proof. unfold settled, _MAX_RECONNECT_ATTEMPTS. cbn. split; [lia | reflexivity]. Qed.

(** Every step keeps the counter in range. *)
Lemma handle_settled i m m' out :
  settled m -> enabled i m = true -> handle cfg i m = (m', out) -> settled m'.
Proof.
  intros [Hrange Hexcl] Hen Hh. unfold settled in *.
  destruct i; open_handlers; split_ifs;
    injection Hh as <- <-; cbn; arith;
    (split; [lia | intros; first [reflexivity | lia | congruence | auto]]).
Qed.

Lemma reachable_settled m : reachable cfg m -> settled m.
Proof.
  induction 1 as [| m i out m' _ IH Hstep].
  - apply initial_settled.
  - destruct Hstep as [m i m' out Hen Hh]. eapply handle_settled; eassumption.
Qed.

Lemma execute_reachable inputs : forall m m' out,
  reachable cfg m -> execute cfg inputs m = Some (m', out) -> reachable cfg m'.
Proof.
  induction inputs as [| i rest IH]; intros m m' out Hr Hex; cbn in Hex.
  - injection Hex as <- _. exact Hr.
  - destruct (enabled i m) eqn:Hen; [| discriminate].
    destruct (handle cfg i m) as [m1 out1] eqn:Hh.
    destruct (execute cfg rest m1) as [[m2 out2] |] eqn:Hrest; [| discriminate].
    injection Hex as <- _.
    eapply IH; [| exact Hrest].
    eapply reachable_step; [exact Hr |]. constructor; eassumption.
Qed.

(** In a quiet state the Qt objects deliver nothing. *)
Lemma quiet_disables_qt m i :
  quiet m -> from_qt i = true -> enabled i m = false.
Proof.
  intros (Hs & _ & Hr & Hp) Hq.
  destruct i; cbn in *; try discriminate; rewrite ?Hs; auto.
Qed.

(** A quiet state stays quiet, and silent, until [connect_user] is
    called. *)
Lemma quiet_handle m i m' out :
  quiet m -> enabled i m = true -> is_connect_call i = false ->
  handle cfg i m = (m', out) ->
  quiet m' /\ terminal_errors out = 0%nat.
Proof.
  intros Hq Hen Hc Hh.
  destruct i; try discriminate Hc;
    try match type of Hen with
        | enabled ?i _ = true =>
            rewrite (quiet_disables_qt m i Hq eq_refl) in Hen; discriminate Hen
        end.
  destruct Hq as (Hs & Hconn & Hr & Hp).
  open_handlers. rewrite Hconn in Hh. injection Hh as <- <-.
  unfold quiet. cbn. auto.
Qed.

Lemma quiet_execute inputs : forall m m' out,
  quiet m ->
  forallb (fun i => negb (is_connect_call i)) inputs = true ->
  execute cfg inputs m = Some (m', out) ->
  terminal_errors out = 0%nat.
Proof.
  induction inputs as [| i rest IH]; intros m m' out Hq Hc Hex; cbn in Hex, Hc.
  - injection Hex as _ <-. reflexivity.
  - apply andb_true_iff in Hc as [Hc1 Hc2]. apply negb_true_iff in Hc1.
    destruct (enabled i m) eqn:Hen; [| discriminate].
    destruct (handle cfg i m) as [m1 out1] eqn:Hh.
    destruct (execute cfg rest m1) as [[m2 out2] |] eqn:Hrest; [| discriminate].
    injection Hex as _ <-.
    destruct (quiet_handle m i m1 out1 Hq Hen Hc1 Hh) as [Hq1 H0].
    rewrite terminal_errors_app, H0. cbn.
    eapply IH; eassumption.
Qed.

(** A step either emits no terminal error, or emits it once and leaves
    the manager quiet. *)
Lemma handle_terminal m i m' out :
  settled m -> enabled i m = true -> socket_words i = true ->
  handle cfg i m = (m', out) ->
  terminal_errors out = 0%nat \/ (terminal_errors out = 1%nat /\ quiet m').
Proof.
  intros [Hrange Hexcl] Hen Hw Hh.
  destruct i; open_handlers; split_ifs; injection Hh as <- <-;
    try (left; reflexivity).
  - (* the socket went down with the counter at its maximum *)
    right. split; [reflexivity |]. arith.
    unfold quiet. cbn. repeat split.
    apply Hexcl; [lia |]. destruct (socket m); [discriminate Hen | | |]; discriminate.
  - (* an error of the socket, in its own words *)
    left. unfold terminal_errors. cbn.
    apply negb_true_iff in Hw. rewrite Hw. reflexivity.
Qed.

Lemma settled_execute inputs : forall m m' out,
  settled m ->
  forallb (fun i => negb (is_connect_call i)) inputs = true ->
  forallb socket_words inputs = true ->
  execute cfg inputs m = Some (m', out) ->
  (terminal_errors out <= 1)%nat.
Proof.
  induction inputs as [| i rest IH]; intros m m' out Hs Hc Hw Hex;
    cbn in Hex, Hc, Hw.
  - injection Hex as _ <-. cbn. lia.
  - apply andb_true_iff in Hc as [Hc1 Hc2].
    apply andb_true_iff in Hw as [Hw1 Hw2].
    destruct (enabled i m) eqn:Hen; [| discriminate].
    destruct (handle cfg i m) as [m1 out1] eqn:Hh.
    destruct (execute cfg rest m1) as [[m2 out2] |] eqn:Hrest; [| discriminate].
    injection Hex as _ <-. rewrite terminal_errors_app.
    destruct (handle_terminal m i m1 out1 Hs Hen Hw1 Hh) as [H0 | [H1 Hq]].
    + rewrite H0. cbn.
      eapply IH; [eapply handle_settled | | |]; eassumption.
    + rewrite H1, (quiet_execute rest m1 m2 out2 Hq Hc2 Hrest). lia.
Qed.

(** The failure that finds the counter at ten. *)
Lemma last_failure m :
  settled m ->
  _reconnect_attempts m = 10 ->
  enabled SocketDisconnected m = true ->
  exists m',
    handle cfg SocketDisconnected m
    = (m', [Emitted disconnected; Emitted (error_occurred terminal_error)])
    /\ quiet m'
    /\ _reconnect_attempts m' = 10.
Proof.
  intros [Hrange Hexcl] H10 Hen.
  open_handlers. rewrite H10. cbn. rewrite andb_false_r.
  eexists. split; [reflexivity |]. cbn. split; [| reflexivity].
  unfold quiet. cbn. repeat split.
  apply Hexcl; [lia |]. destruct (socket m); [discriminate Hen | | |]; discriminate.
Qed.

End Reconnects.

Section ReconnectClaim.
Import WebSocketManager.

(** C7.  In every state the channel reaches, the reconnect counter is at
    most 10.  When the socket goes down with the counter at 10, the step
    emits [disconnected] and then the terminal error, once, and leaves
    the channel with the socket closed, not connected and no timer
    running, so that no reconnect is scheduled and the Qt objects
    deliver nothing more.  And in every execution from a reachable
    state that does not call [connect_user] again, the terminal error
    is emitted at most once. *)
Theorem reconnects_are_bounded (cfg : Settings.Config) (m : Manager) :
  reachable cfg m ->
  _reconnect_attempts m <= 10
  /\ (_reconnect_attempts m = 10 ->
      enabled SocketDisconnected m = true ->
      exists m',
        step cfg m SocketDisconnected
          [Emitted disconnected; Emitted (error_occurred terminal_error)] m'
        /\ socket m' = SockClosed
        /\ _is_connected m' = false
        /\ reconnect_timer_active m' = false
        /\ ping_timer_active m' = false
        /\ (forall i, from_qt i = true -> enabled i m' = false))
  /\ (forall inputs m' out,
        execute cfg inputs m = Some (m', out) ->
        forallb (fun i => negb (is_connect_call i)) inputs = true ->
        forallb socket_words inputs = true ->
        (terminal_errors out <= 1)%nat).
Proof.
  intros Hr. pose proof (reachable_settled cfg m Hr) as Hs.
  split; [| split].
  - destruct Hs as [Hrange _]. unfold _MAX_RECONNECT_ATTEMPTS in Hrange. lia.
  - intros H10 Hen.
    destruct (last_failure cfg m Hs H10 Hen) as (m' & Hh & Hq & _).
    exists m'. split; [constructor; assumption |].
    destruct Hq as (H1 & H2 & H3 & H4). repeat split; try assumption.
    intros i Hi. apply quiet_disables_qt; [| exact Hi]. repeat split; assumption.
  - intros inputs m' out Hex Hc Hw.
    eapply settled_execute; eassumption.
Qed.

Lemma tenth_reconnect_reachable :
  reachable Scenario.demo_cfg (tenth_reconnect_pending Scenario.demo_cfg).
Proof.
  eapply (execute_reachable Scenario.demo_cfg ten_reconnects initial).
  - apply reachable_initial.
  - vm_compute. reflexivity.
Defined.

Lemma reconnects_are_bounded_witness :
  let m := tenth_reconnect_pending Scenario.demo_cfg in
  _reconnect_attempts m = 10
  /\ enabled SocketDisconnected m = true
  /\ exists m',
       step Scenario.demo_cfg m SocketDisconnected
         [Emitted disconnected; Emitted (error_occurred terminal_error)] m'
       /\ socket m' = SockClosed
       /\ _is_connected m' = false
       /\ reconnect_timer_active m' = false
       /\ ping_timer_active m' = false
       /\ (forall i, from_qt i = true -> enabled i m' = false).
Proof.
  cbn zeta. split; [reflexivity |]. split; [reflexivity |].
  exact (proj1 (proj2 (reconnects_are_bounded Scenario.demo_cfg
                         (tenth_reconnect_pending Scenario.demo_cfg)
                         tenth_reconnect_reachable))
           eq_refl eq_refl).
Defined.

(** The whole run: eleven failures, ten reconnects opened, one terminal
    error, and nothing scheduled at the end. *)
Example eleven_failures :
  match execute Scenario.demo_cfg (ten_reconnects ++ [SocketDisconnected]) initial with
  | Some (m, out) =>
      terminal_errors out = 1%nat
      /\ _reconnect_attempts m = 10
      /\ reconnect_timer_active m = false
      /\ socket m = SockClosed
      /\ length (List.filter (fun o => match o with SocketOpened _ => true | _ => false end) out)
         = 11%nat
  | None => False
  end.
Proof. vm_compute. repeat split; reflexivity. Qed.

(** A drop after [disconnect_user] schedules nothing. *)
Example user_disconnect_schedules_nothing :
  match execute Scenario.demo_cfg
          [CallConnectUser 7 "tok"; SocketConnected; CallDisconnectUser;
           SocketDisconnected] initial with
  | Some (m, out) =>
      reconnect_timer_active m = false /\ _reconnect_attempts m = 0
      /\ terminal_errors out = 0%nat
  | None => False
  end.
Proof. vm_compute. repeat split; reflexivity. Qed.

End ReconnectClaim.

(* ===================================================================== *)
(** * More on the token store and the request engine *)
(* ===================================================================== *)

Section TokenStore.
Import BaseClient AuthClient.

Lemma client_with_client c x w : client c (with_client c x w) = x.
Proof. destruct c; reflexivity. Qed.

Lemma with_client_tokens c x w : shared_tokens (with_client c x w) = shared_tokens w.
Proof. destruct c; reflexivity. Qed.

Lemma with_client_trace c x w : trace (with_client c x w) = trace w.
Proof. destruct c; reflexivity. Qed.

Lemma with_client_clock c x w : clock (with_client c x w) = clock w.
Proof. destruct c; reflexivity. Qed.

(** Whatever the observers do, the loop only adds to the trace. *)
Lemma fire_callbacks_frame mk cbs : forall w,
  exists t, snd (fire_callbacks mk cbs w) = with_trace (trace w ++ t) w.
Proof.
  induction cbs as [| cb rest IH]; intros w.
  - exists []. cbn. rewrite app_nil_r, with_trace_same. reflexivity.
  - cbn [fire_callbacks]. unfold bind at 1.
    unfold try_except, bind, record_event, modify. cbn.
    set (w1 := with_trace (trace w ++ [mk (cb_name cb)]) w).
    assert (Hcont : exists t,
              snd (fire_callbacks mk rest w1) = with_trace (trace w ++ t) w).
    { destruct (IH w1) as [t Ht]. exists ([mk (cb_name cb)] ++ t).
      rewrite Ht. subst w1. cbn. rewrite <- app_assoc. reflexivity. }
    destruct (cb_result cb) as [[] | e].
    + exact Hcont.
    + destruct (is_Exception e).
      * exact Hcont.
      * exists [mk (cb_name cb)]. reflexivity.
Qed.

Lemma set_tokens_run c access refresh ttl w :
  set_tokens c access refresh ttl w
  = (Ret tt,
     with_client c
       (set_authorization (Some ("Bearer " +:+ py_str access)) (client c w))
       (with_tokens (Some {| access_token := access;
                             Model.refresh_token := refresh;
                             expires_at := clock w + seconds ttl |}) w)).
Proof. destruct c; reflexivity. Qed.

(** X1.  After [set_tokens(access, refresh, ttl)] the getters return the
    pair just stored, the session of the client carries the matching
    bearer header, and at a clock reading [t] the client is
    authenticated exactly while [t] is before the instant of the call
    plus [ttl] seconds. *)
Theorem set_tokens_round_trip
    (c : ClientId) (access refresh : pyval) (ttl : Z) (w : World) (t : Z) :
  let w' := snd (set_tokens c access refresh ttl w) in
  fst (set_tokens c access refresh ttl w) = Ret tt
  /\ fst (get_access_token w') = Ret access
  /\ fst (get_refresh_token w') = Ret refresh
  /\ authorization (client c w') = Some ("Bearer " +:+ py_str access)
  /\ fst (is_authenticated (with_clock t w'))
     = Ret (t <? clock w + seconds ttl)
  /\ trace w' = trace w /\ vstate w' = vstate w.
Proof.
  rewrite set_tokens_run. cbn [fst snd].
  unfold get_access_token, get_refresh_token, is_authenticated, gets.
  cbn [fst snd with_clock shared_tokens clock].
  rewrite client_with_client, with_client_trace, with_client_vstate,
    with_client_tokens.
  cbn [with_tokens shared_tokens access_token Model.refresh_token expires_at
       set_authorization authorization trace vstate].
  unfold is_expired. cbn [expires_at].
  rewrite Z.geb_leb, <- Z.ltb_antisym.
  repeat split; reflexivity.
Qed.

Lemma clear_tokens_unfold c w :
  clear_tokens c w
  = fire_callbacks LogoutCallbackRun (on_logout (client c w))
      (with_client c (set_authorization None (client c w)) (with_tokens None w)).
Proof. destruct c; reflexivity. Qed.

(** X2.  [clear_tokens] always leaves the process without tokens and the
    client without bearer header, even when a logout observer raises
    something that is not an [Exception]; the verification state is not
    touched.  When the observers raise nothing but [Exception]s, every
    one of them is called, in the order of registration, and the call
    returns. *)
Theorem clear_tokens_always_clears (c : ClientId) (w : World) :
  let w' := snd (clear_tokens c w) in
  shared_tokens w' = None
  /\ authorization (client c w') = None
  /\ fst (is_authenticated w') = Ret false
  /\ vstate w' = vstate w
  /\ (Forall benign (on_logout (client c w)) ->
      fst (clear_tokens c w) = Ret tt
      /\ trace w'
         = trace w ++ map (fun cb => LogoutCallbackRun (cb_name cb))
                        (on_logout (client c w))).
Proof.
  rewrite clear_tokens_unfold.
  set (w1 := with_client c (set_authorization None (client c w)) (with_tokens None w)).
  destruct (fire_callbacks_frame LogoutCallbackRun (on_logout (client c w)) w1)
    as [t Ht].
  cbn zeta. rewrite Ht.
  assert (H1 : shared_tokens w1 = None)
    by (subst w1; rewrite with_client_tokens; reflexivity).
  assert (H2 : authorization (client c w1) = None)
    by (subst w1; rewrite client_with_client; reflexivity).
  assert (H3 : vstate w1 = vstate w)
    by (subst w1; rewrite with_client_vstate; reflexivity).
  assert (H4 : trace w1 = trace w)
    by (subst w1; rewrite with_client_trace; reflexivity).
  assert (H5 : client c (with_trace (trace w1 ++ t) w1) = client c w1)
    by (destruct c; reflexivity).
  unfold is_authenticated, gets.
  cbn [fst snd with_trace shared_tokens vstate]. rewrite H5, H1, H2, H3.
  do 4 (split; [reflexivity |]).
  intros Hb. rewrite (fire_callbacks_benign LogoutCallbackRun _ w1 Hb) in Ht |- *.
  split; [reflexivity |].
  cbn [snd] in Ht. apply (f_equal trace) in Ht. cbn [trace with_trace] in Ht.
  apply app_inv_head in Ht. cbn [trace with_trace]. rewrite <- Ht, H4. reflexivity.
Qed.

Lemma clear_tokens_always_clears_witness :
  fst (clear_tokens TheAuthClient Scenario.logged_in) = Ret tt
  /\ trace (snd (clear_tokens TheAuthClient Scenario.logged_in))
     = [LogoutCallbackRun "l1"; LogoutCallbackRun "l2"].
Proof.
  exact (proj2 (proj2 (proj2 (proj2
           (clear_tokens_always_clears TheAuthClient Scenario.logged_in))))
           (proj2 observed_client_benign)).
Defined.

(** An observer that ends the interpreter stops the loop, after the
    tokens are gone. *)
Example clear_tokens_with_exiting_observer :
  clear_tokens TheAuthClient Scenario.logged_in_exiting
  = (Raise (BaseException_ "SystemExit" "1"),
     {| clock := seconds 10; shared_tokens := None;
        auth_client := set_authorization None Scenario.exiting_client;
        verification_client := Scenario.plain_client;
        vstate := VerificationState.initial;
        trace := [LogoutCallbackRun "l1"] |}).
Proof. reflexivity. Qed.

End TokenStore.

(* ===================================================================== *)
(** * More on the request engine *)
(* ===================================================================== *)

Section RequestEngine.
Import BaseClient AuthClient.

Variable E : Env.

Lemma make_request_denied c method endpoint json w :
  authenticated_in w = false ->
  _make_request E c method endpoint true json w
  = (Ret (failed "Authentication required" (Some 401)), w).
Proof.
  intros H. unfold _make_request, bind. cbn [andb].
  rewrite is_authenticated_spec. fold (authenticated_in w). rewrite H.
  reflexivity.
Qed.

Lemma make_request_granted c method endpoint json w t :
  shared_tokens w = Some t ->
  is_expired (clock w) t = false ->
  _make_request E c method endpoint true json w
  = let w0 := with_client c (set_authorization (Some (bearer t)) (client c w)) w in
    let r := request_of E c method endpoint json w0 in
    (classified (server E (length (net_calls (trace w))) r),
     with_trace (trace w ++ [NetCall r]) w0).
Proof.
  intros Ht Hx. unfold _make_request, bind. cbn [andb].
  rewrite is_authenticated_spec, Ht, Hx. cbn [negb].
  unfold _update_auth_header, modify. rewrite Ht.
  unfold session_request, request_of, bearer. cbn zeta.
  rewrite with_client_trace.
  destruct (server E _ _); reflexivity.
Qed.

Lemma make_request_open c method endpoint json w :
  _make_request E c method endpoint false json w
  = let r := request_of E c method endpoint json w in
    (classified (server E (length (net_calls (trace w))) r),
     with_trace (trace w ++ [NetCall r]) w).
Proof. rewrite make_request_public. cbn zeta. destruct (server E _ _); reflexivity. Qed.

Lemma classified_success t resp :
  classified t = Ret resp -> success resp = true ->
  exists st, t = Http2xx st (data resp) /\ status_code resp = Some st.
Proof.
  destruct t; cbn; intros H Hs; try (injection H as <-; discriminate Hs);
    try discriminate H.
  injection H as <-. eauto.
Qed.

(** X3.  An authenticated request made with a token that is still valid
    calls [session.request] exactly once, and that call carries the
    bearer header of the token stored at that moment, whatever header
    the session of the client held before.  (How many HTTP requests the
    retry adapter of the session sends inside that one call is not
    counted.) *)
Theorem authenticated_request_carries_current_token
    (c : ClientId) (method endpoint : string) (json : Dict) (w : World)
    (t : AuthTokens) :
  shared_tokens w = Some t ->
  is_expired (clock w) t = false ->
  let w' := snd (_make_request E c method endpoint true json w) in
  exists r,
    trace w' = trace w ++ [NetCall r]
    /\ req_authorization r = Some (bearer t)
    /\ req_method r = method
    /\ req_json r = json
    /\ authorization (client c w') = Some (bearer t).
Proof.
  intros Ht Hx. rewrite (make_request_granted c method endpoint json w t Ht Hx).
  cbn zeta. cbn [snd]. eexists. split; [reflexivity |].
  unfold request_of. cbn [req_authorization req_method req_json].
  rewrite client_with_client. cbn [set_authorization authorization].
  repeat split; try reflexivity.
  destruct c; reflexivity.
Qed.

(** X4.  [_make_request] never changes the stored tokens, the
    verification state or the clock, and calls [session.request] at
    most once.  A response that reports success always comes from such
    a call, one whose response [raise_for_status] let through (any
    status it does not raise for, not only 2xx), and carries the status
    and the body of that response. *)
Theorem request_engine_frame
    (c : ClientId) (method endpoint : string) (authenticated : bool)
    (json : Dict) (w : World) :
  let o := fst (_make_request E c method endpoint authenticated json w) in
  let w' := snd (_make_request E c method endpoint authenticated json w) in
  shared_tokens w' = shared_tokens w
  /\ vstate w' = vstate w
  /\ clock w' = clock w
  /\ (trace w' = trace w \/ exists r, trace w' = trace w ++ [NetCall r])
  /\ (forall resp,
        o = Ret resp -> success resp = true ->
        exists r st,
          trace w' = trace w ++ [NetCall r]
          /\ server E (length (net_calls (trace w))) r = Http2xx st (data resp)
          /\ status_code resp = Some st).
Proof.
  destruct authenticated.
  - destruct (authenticated_in w) eqn:Hauth.
    + unfold authenticated_in in Hauth.
      destruct (shared_tokens w) as [t |] eqn:Ht; [| discriminate].
      apply negb_true_iff in Hauth.
      rewrite (make_request_granted c method endpoint json w t Ht Hauth).
      cbn zeta. cbn [fst snd].
      rewrite <- Ht.
      repeat split;
        try (destruct c; reflexivity).
      * right. eexists. reflexivity.
      * intros resp Ho Hs.
        destruct (classified_success _ _ Ho Hs) as (st & Hans & Hst).
        eexists _, st. repeat split; [exact Hans | exact Hst].
    + rewrite (make_request_denied c method endpoint json w Hauth).
      cbn. repeat split; auto.
      intros resp Ho Hs. injection Ho as <-. discriminate Hs.
  - rewrite make_request_open. cbn zeta. cbn [fst snd].
    repeat split.
    + right. eexists. reflexivity.
    + intros resp Ho Hs.
      destruct (classified_success _ _ Ho Hs) as (st & Hans & Hst).
      eexists _, st. repeat split; [exact Hans | exact Hst].
Qed.

(** X5.  [get_current_user] never reaches the server.  Without a valid
    token it answers 401; with one, reading the attribute [_tokens],
    which no class defines, raises inside the [try], and the call
    returns the failure built by the handler.  Either way the process
    state is as it was. *)
Theorem get_current_user_never_succeeds (w : World) :
  get_current_user E w
  = (Ret (if authenticated_in w
          then failed
                 "Failed to get user info: 'AuthClient' object has no attribute '_tokens'"
                 None
          else failed "Not authenticated" (Some 401)), w).
Proof.
  unfold get_current_user, bind at 1. rewrite is_authenticated_spec.
  fold (authenticated_in w). destruct (authenticated_in w); reflexivity.
Qed.


End RequestEngine.

Section RequestEngineExamples.
Import BaseClient AuthClient Scenario.

Lemma authenticated_request_carries_current_token_witness :
  exists r,
    trace (snd (_make_request rejecting TheVerificationClient "POST" "x" true ∅
                  logged_in))
    = trace logged_in ++ [NetCall r]
    /\ req_authorization r = Some (bearer demo_tokens)
    /\ req_method r = "POST"
    /\ req_json r = ∅
    /\ authorization
         (client TheVerificationClient
            (snd (_make_request rejecting TheVerificationClient "POST" "x" true ∅
                    logged_in)))
       = Some (bearer demo_tokens).
Proof.
  exact (authenticated_request_carries_current_token rejecting
           TheVerificationClient "POST" "x" ∅ logged_in demo_tokens
           eq_refl eq_refl).
Defined.


(** A relative endpoint is appended to the base URL. *)
Example relative_endpoint :
  resolve_url rejecting "//merchants/merchants/universal_search/"
  = "http://10.5.96.4:8000/api/merchants/merchants/universal_search/".
Proof. reflexivity. Qed.

End RequestEngineExamples.

(* ===================================================================== *)
(** * More on worker dispatch *)
(* ===================================================================== *)

Section DispatchMore.
Import ThreadingUtils.

(** X7.  Whatever the wrapped call does, return, raise an [Exception]
    or raise something else, [run] emits [finished] exactly once and
    last, with at most one outcome signal before it, and leaves the
    process in the state the call left. *)
Theorem worker_always_finishes {A : Type} (fn : M A) (w : World) :
  exists before,
    emitted (fst (run fn w)) = before ++ [finished]
    /\ (length before <= 1)%nat
    /\ ~ In finished before
    /\ snd (run fn w) = snd (fn w)
    /\ (escaped (fst (run fn w)) = None <-> length before = 1%nat).
Proof.
  unfold run. destruct (fn w) as [[value | exc] w'].
  - exists [result value]. cbn. repeat split; auto.
    intros [H | []]. discriminate.
  - destruct (is_Exception exc).
    + exists [error (exn_str exc)]. cbn. repeat split; auto.
      intros [H | []]. discriminate.
    + exists []. cbn. repeat split; auto; discriminate.
Qed.

End DispatchMore.

(* ===================================================================== *)
(** * More on the verification service *)
(* ===================================================================== *)

Section ServiceOutcomes.
Import BaseClient VerificationState VerificationService.

Variable E : Env.

(** A request either is denied locally or goes out under the stored
    token. *)
Lemma post_cases c endpoint json w :
  (authenticated_in w = false
   /\ post E c endpoint json w
      = (Ret (failed "Authentication required" (Some 401)), w))
  \/ (exists t,
        shared_tokens w = Some t /\ is_expired (clock w) t = false
        /\ post E c endpoint json w
           = let w0 := with_client c (set_authorization (Some (bearer t)) (client c w)) w in
             let r := request_of E c "POST" endpoint json w0 in
             (classified (server E (length (net_calls (trace w))) r),
              with_trace (trace w ++ [NetCall r]) w0)).
Proof.
  destruct (authenticated_in w) eqn:Hauth.
  - right. unfold authenticated_in in Hauth.
    destruct (shared_tokens w) as [t |] eqn:Ht; [| discriminate].
    apply negb_true_iff in Hauth. exists t.
    split; [reflexivity |]. split; [exact Hauth |].
    apply make_request_granted; assumption.
  - left. split; [reflexivity |]. apply make_request_denied. exact Hauth.
Qed.

Lemma post_frame c endpoint json w :
  let w' := snd (post E c endpoint json w) in
  vstate w' = vstate w /\ clock w' = clock w /\ shared_tokens w' = shared_tokens w.
Proof.
  destruct (post_cases c endpoint json w) as [[_ ->] | (t & Ht & Hx & ->)];
    cbn zeta; cbn [snd]; [auto |].
  destruct c; cbn; auto.
Qed.

Lemma send_email_auth_frame email merchant_id user_id w :
  let w' := snd (VerificationClient.send_email_auth E email merchant_id user_id w) in
  vstate w' = vstate w /\ clock w' = clock w.
Proof.
  unfold VerificationClient.send_email_auth.
  destruct (String.eqb email _); [cbn; auto |].
  destruct (String.eqb merchant_id _); [cbn; auto |].
  destruct (post_frame VerificationClient.c
              (Settings.get_api_endpoints (cfg E) "send_email_auth")
              (VerificationClient.add_user_id user_id
                 (<[ "email" := PStr email ]> {[ "merchant_id" := PStr merchant_id ]}))
              w) as (H1 & H2 & _).
  auto.
Qed.

Lemma initiate_sms_frame merchant_id phone w :
  let w' := snd (VerificationClient.initiate_sms_verification E merchant_id phone w) in
  vstate w' = vstate w /\ clock w' = clock w.
Proof.
  unfold VerificationClient.initiate_sms_verification.
  match goal with
  | |- context [post E ?c ?ep ?j w] =>
      destruct (post_frame c ep j w) as (H1 & H2 & _)
  end.
  auto.
Qed.

Ltac leaf := intros Hleaf; injection Hleaf as <- <-; cbn [vr_success]; try reflexivity.

Lemma start_email_outcome merchant_data user_id w o w' :
  start_email_verification E merchant_data user_id w = (o, w') ->
  match o with
  | Ret r =>
      if vr_success r then
        vstate w'
        = fresh_session (dict_get merchant_data "merchant_id") "email" PNone
            (vr_auth_id r) (clock w) (max_attempts (vstate w))
      else vstate w' = vstate w
  | Raise _ => vstate w' = vstate w
  end.
Proof.
  unfold start_email_verification.
  destruct (truthy (dict_get merchant_data "merchant_id")); cbn [negb];
    [| leaf].
  destruct (Validators.validate_merchant_id _) as [is_valid err].
  destruct is_valid; cbn [negb]; [| leaf].
  destruct (truthy (py_or _ _)); cbn [negb]; [| leaf].
  unfold bind at 1.
  pose proof (validate_any_state Validators.validate_email
                (py_or (dict_get merchant_data "contact_email")
                   (dict_get merchant_data "email")) w) as Hw0.
  destruct (validate_any Validators.validate_email _ w) as [[[ok err'] | e] w0];
    cbn [snd] in Hw0; subst w0; [| leaf].
  destruct ok; cbn [negb]; [| leaf].
  unfold bind at 1.
  match goal with
  | |- context [VerificationClient.send_email_auth E ?a ?b ?u w] =>
      destruct (send_email_auth_frame a b u w) as [Hvs Hck];
      destruct (VerificationClient.send_email_auth E a b u w) as [[resp | e] w1]
  end; cbn [snd] in Hvs, Hck; [| leaf; exact Hvs].
  destruct (success resp); [| leaf; exact Hvs].
  unfold bind, start_verification, gets, modify, ret. leaf.
  cbn. rewrite Hvs, Hck. reflexivity.
Qed.

Lemma start_sms_outcome merchant_data user_id w o w' :
  start_sms_verification E merchant_data user_id w = (o, w') ->
  match o with
  | Ret r =>
      if vr_success r then
        vstate w'
        = fresh_session (dict_get merchant_data "merchant_id") "sms" PNone
            (vr_session_id r) (clock w) (max_attempts (vstate w))
        /\ vr_auth_id r = vr_session_id r
      else vstate w' = vstate w
  | Raise _ => vstate w' = vstate w
  end.
Proof.
  unfold start_sms_verification.
  destruct (truthy (dict_get merchant_data "merchant_id")); cbn [negb];
    [| leaf].
  destruct (truthy (py_or _ _)); cbn [negb]; [| leaf].
  unfold bind at 1.
  pose proof (validate_any_state Validators.validate_phone
                (py_or (dict_get merchant_data "contact_phone")
                   (dict_get merchant_data "phone")) w) as Hw0.
  destruct (validate_any Validators.validate_phone _ w) as [[[ok err'] | e] w0];
    cbn [snd] in Hw0; subst w0; [| leaf].
  destruct ok; cbn [negb]; [| leaf].
  unfold bind at 1.
  match goal with
  | |- context [VerificationClient.initiate_sms_verification E ?a ?b w] =>
      destruct (initiate_sms_frame a b w) as [Hvs Hck];
      destruct (VerificationClient.initiate_sms_verification E a b w) as [[resp | e] w1]
  end; cbn [snd] in Hvs, Hck; [| leaf; exact Hvs].
  destruct (success resp); [| leaf; exact Hvs].
  unfold bind, start_verification, gets, modify, ret. leaf.
  cbn. rewrite Hvs, Hck. split; reflexivity.
Qed.

(** X8.  [start_email_verification] and [start_sms_verification] touch
    the verification state only when the server accepts the send: then
    the state is a fresh session for the merchant on that channel, under
    the identifier the result carries and with no attempt charged,
    whatever session or count was there before.  When the result is a
    failure, or the call raises, the verification state is as it was, so
    a failed send charges nothing. *)
Theorem send_opens_fresh_session_or_nothing
    (merchant_data : Dict) (user_id : pyval) (w : World) :
  (let o := fst (start_email_verification E merchant_data user_id w) in
   let w' := snd (start_email_verification E merchant_data user_id w) in
   match o with
   | Ret r =>
       if vr_success r then
         vstate w'
         = fresh_session (dict_get merchant_data "merchant_id") "email" PNone
             (vr_auth_id r) (clock w) (max_attempts (vstate w))
       else vstate w' = vstate w
   | Raise _ => vstate w' = vstate w
   end)
  /\ (let o := fst (start_sms_verification E merchant_data user_id w) in
      let w' := snd (start_sms_verification E merchant_data user_id w) in
      match o with
      | Ret r =>
          if vr_success r then
            vstate w'
            = fresh_session (dict_get merchant_data "merchant_id") "sms" PNone
                (vr_session_id r) (clock w) (max_attempts (vstate w))
            /\ vr_auth_id r = vr_session_id r
          else vstate w' = vstate w
      | Raise _ => vstate w' = vstate w
      end).
Proof.
  split; cbn zeta.
  - destruct (start_email_verification E merchant_data user_id w) as [o w'] eqn:H.
    exact (start_email_outcome _ _ _ _ _ H).
  - destruct (start_sms_verification E merchant_data user_id w) as [o w'] eqn:H.
    exact (start_sms_outcome _ _ _ _ _ H).
Qed.

End ServiceOutcomes.

Section PinOutcomes.
Import BaseClient VerificationState VerificationService.

Variable E : Env.

(** A PIN that [validate_pin] accepts passes the check [verify_pin]
    makes again. *)
Lemma validate_pin_client_check pin :
  fst (Validators.validate_pin pin) = true ->
  String.eqb pin EmptyString || negb (len pin =? 6) || negb (isdigit pin) = false.
Proof.
  unfold Validators.validate_pin.
  destruct (String.eqb pin EmptyString); [discriminate |].
  destruct (isdigit pin); cbn [negb]; [| discriminate].
  destruct (len pin =? 6); cbn; [reflexivity | discriminate].
Qed.

Lemma verify_pin_code_charged pin s user_id w :
  fst (Validators.validate_pin pin) = true ->
  String.eqb s EmptyString = false ->
  attempts_count (vstate w) < max_attempts (vstate w) ->
  verify_pin_code E pin (PStr s) user_id w
  = (response <~ post E VerificationClient.c
                   (Settings.get_api_endpoints (cfg E) "verify_pin")
                   (VerificationClient.verify_pin_payload pin s user_id) ;;
     if success response then
       complete_verification true "PIN verified successfully" ;;;
       ret {| vr_success := true;
              vr_message :=
                dict_get_or (default ∅ (data response)) "message"
                  (PStr "PIN verified successfully");
              vr_auth_id := dict_get (default ∅ (data response)) "auth_id";
              vr_session_id := PNone;
              vr_data := Some (default ∅ (data response)) |}
     else
       update_status "failed_attempt" (ErrorTranslator.translate (error response)) ;;;
       ret (rejected (ErrorTranslator.translate (error response))))
      (with_vstate (with_attempts (attempts_count (vstate w) + 1) (vstate w)) w).
Proof.
  intros Hpin Hs Hlt. unfold verify_pin_code.
  pose proof (validate_pin_client_check pin Hpin) as Hcheck.
  destruct (Validators.validate_pin pin) as [is_valid err]. cbn [fst] in Hpin.
  subst is_valid. cbn [negb truthy]. rewrite Hs. cbn [negb].
  unfold bind at 1. unfold is_max_attempts_reached, gets.
  destruct (Z.geb_spec (attempts_count (vstate w)) (max_attempts (vstate w)));
    [lia |].
  unfold bind at 1. unfold increment_attempts, bind at 1, modify, gets.
  unfold VerificationClient.verify_pin. cbn [py_str].
  rewrite Hcheck, Hs. reflexivity.
Qed.

Lemma accepted_pin_run pin s user_id w t st body :
  fst (Validators.validate_pin pin) = true ->
  String.eqb s EmptyString = false ->
  attempts_count (vstate w) < max_attempts (vstate w) ->
  shared_tokens w = Some t ->
  is_expired (clock w) t = false ->
  server E (length (net_calls (trace w)))
    (VerificationClient.pin_request E t pin s user_id)
  = Http2xx st body ->
  exists w',
    verify_pin_code E pin (PStr s) user_id w
    = (Ret {| vr_success := true;
              vr_message :=
                dict_get_or (default ∅ body) "message"
                  (PStr "PIN verified successfully");
              vr_auth_id := dict_get (default ∅ body) "auth_id";
              vr_session_id := PNone;
              vr_data := Some (default ∅ body) |}, w')
    /\ match current_verification (vstate w) with
       | Some _ =>
           vstate w' = _reset_state (vstate w)
           /\ trace w'
              = trace w
                ++ [ NetCall (VerificationClient.pin_request E t pin s user_id);
                     Emit (verification_completed true "PIN verified successfully"
                             (py_or (current_auth_id (vstate w)) (PStr EmptyString))) ]
       | None =>
           vstate w' = with_attempts (attempts_count (vstate w) + 1) (vstate w)
           /\ trace w'
              = trace w ++ [NetCall (VerificationClient.pin_request E t pin s user_id)]
       end.
Proof.
  intros Hpin Hs Hlt Ht Hx Hans.
  rewrite (verify_pin_code_charged pin s user_id w Hpin Hs Hlt).
  set (w1 := with_vstate (with_attempts (attempts_count (vstate w) + 1) (vstate w)) w).
  unfold bind at 1. unfold post.
  rewrite (make_request_granted E VerificationClient.c "POST" _ _ w1 t Ht Hx).
  cbn zeta.
  change (request_of E VerificationClient.c "POST"
            (Settings.get_api_endpoints (cfg E) "verify_pin")
            (VerificationClient.verify_pin_payload pin s user_id)
            (with_client VerificationClient.c
               (set_authorization (Some (bearer t)) (client VerificationClient.c w1))
               w1))
    with (VerificationClient.pin_request E t pin s user_id).
  change (trace w1) with (trace w). rewrite Hans. cbn [classified success data error].
  unfold bind, complete_verification, gets, modify, emit, record_event, ret. cbn.
  destruct (current_verification (vstate w)); cbn;
    eexists; (split; [reflexivity |]); cbn; split; try reflexivity;
    rewrite <- app_assoc; reflexivity.
Qed.


(** X10.  A well-formed PIN submitted within the budget while the login
    has expired, or while nobody is logged in, is charged like any
    other: no request goes out, yet the counter goes up by one, the
    status becomes ["failed_attempt"] and the operator is told "An error
    occurred". *)
Theorem expired_login_still_charges_attempt
    (pin s : string) (user_id : pyval) (w : World) :
  fst (Validators.validate_pin pin) = true ->
  String.eqb s EmptyString = false ->
  attempts_count (vstate w) < max_attempts (vstate w) ->
  authenticated_in w = false ->
  verify_pin_code E pin (PStr s) user_id w
  = (Ret (rejected "An error occurred"),
     with_vstate
       (with_status "failed_attempt"
          (with_attempts (attempts_count (vstate w) + 1) (vstate w))) w).
Proof.
  intros Hpin Hs Hlt Hauth.
  rewrite (verify_pin_code_charged pin s user_id w Hpin Hs Hlt).
  unfold bind at 1. unfold post.
  rewrite make_request_denied by exact Hauth.
  reflexivity.
Qed.

Lemma sms_code_run code session_id w t o w' :
  String.eqb code EmptyString = false ->
  truthy session_id = true ->
  shared_tokens w = Some t ->
  is_expired (clock w) t = false ->
  verify_sms_code E code session_id w = (o, w') ->
  (exists r rest,
      trace w' = trace w ++ NetCall r :: rest
      /\ req_json r
         = <[ "session_id" := session_id ]> {[ "verification_code" := PStr code ]})
  /\ match o with
     | Ret r => vr_success r = false -> vstate w' = vstate w
     | Raise _ => vstate w' = vstate w
     end.
Proof.
  intros Hcode Hsid Ht Hx.
  unfold verify_sms_code. rewrite Hcode, Hsid. cbn [negb].
  unfold bind at 1. unfold VerificationClient.confirm_sms_verification.
  rewrite Hcode, Hsid. cbn [negb orb]. unfold post.
  rewrite (make_request_granted E VerificationClient.c "POST" _ _ w t Ht Hx).
  cbn zeta.
  destruct (server E _ _) as [st body | st msg | | | msg | e];
    cbn [classified success].
  2-6: intros Hrun; injection Hrun as <- <-;
       (split; [eexists _, []; split; reflexivity |]);
       cbn; try (intros _); reflexivity.
  unfold bind, complete_verification, gets, modify, emit, record_event, ret. cbn.
  destruct (current_verification (vstate w)); cbn;
    intros Hrun; injection Hrun as <- <-; cbn.
  - split; [| discriminate].
    eexists _, [_]. rewrite <- app_assoc. split; reflexivity.
  - split; [| discriminate].
    eexists _, []. split; reflexivity.
Qed.


End PinOutcomes.

Section PinOutcomeExamples.
Import BaseClient VerificationState VerificationService Scenario.


Lemma expired_login_still_charges_attempt_witness :
  verify_pin_code rejecting "111111" demo_uuid (PInt 7)
    (with_clock (seconds 4000) session_world)
  = (Ret (rejected "An error occurred"),
     with_vstate
       (with_status "failed_attempt" (with_attempts 1 (vstate session_world)))
       (with_clock (seconds 4000) session_world)).
Proof.
  exact (expired_login_still_charges_attempt rejecting "111111"
           "123e4567-e89b-12d3-a456-426614174000" (PInt 7)
           (with_clock (seconds 4000) session_world)
           eq_refl eq_refl eq_refl eq_refl).
Defined.


End PinOutcomeExamples.

(* ===================================================================== *)
(** * More on the realtime channel *)
(* ===================================================================== *)

Section ChannelMore.
Import WebSocketManager.

Variable cfg : Settings.Config.

Ltac open_handlers :=
  unfold handle, connect_user, disconnect_user, _on_connected,
    _on_disconnected, _on_message, _on_error, _send_ping, _attempt_connect,
    set_socket, stop_reconnect_timer, _MAX_RECONNECT_ATTEMPTS in *;
  cbn in *.

Ltac split_ifs :=
  repeat match goal with
         | H : context [if ?b then _ else _] |- _ => destruct b eqn:?
         | H : context [match ?p with JsonObject _ => _ | _ => _ end] |- _ =>
             destruct p
         | |- context [if ?b then _ else _] => destruct b eqn:?
         end.

Lemma handle_keeps_ping_in_step i m m' out :
  ping_timer_active m = _is_connected m ->
  handle cfg i m = (m', out) ->
  ping_timer_active m' = _is_connected m'.
Proof.
  intros Hinv Hh.
  destruct i; open_handlers; split_ifs; injection Hh as <- <-; cbn; auto;
    congruence.
Qed.

Lemma reachable_ping_in_step m :
  reachable cfg m -> ping_timer_active m = _is_connected m.
Proof.
  induction 1 as [| m i out m' _ IH Hstep].
  - reflexivity.
  - destruct Hstep as [m i m' out _ Hh]. eapply handle_keeps_ping_in_step; eassumption.
Qed.

(** X12.  The keepalive runs exactly while the manager holds itself
    connected: in every reachable state the ping timer is active if and
    only if [_is_connected] is set.  So each firing of the ping timer
    sends one ping, and none is sent after a drop or after
    [disconnect_user]. *)
Theorem keepalive_follows_connection (m : Manager) :
  reachable cfg m ->
  ping_timer_active m = _is_connected m
  /\ (enabled PingTimeout m = true -> handle cfg PingTimeout m = (m, [PingSent]))
  /\ (forall i m' out,
        (i = SocketDisconnected \/ i = CallDisconnectUser) ->
        handle cfg i m = (m', out) ->
        enabled PingTimeout m' = false).
Proof.
  intros Hr. pose proof (reachable_ping_in_step m Hr) as Hinv.
  split; [exact Hinv |]. split.
  - cbn. intros Hen. unfold _send_ping. rewrite <- Hinv, Hen. reflexivity.
  - intros i m' out [-> | ->] Hh; open_handlers; split_ifs;
      injection Hh as <- <-; reflexivity.
Qed.

Lemma sockets_opened_app out1 out2 :
  sockets_opened (out1 ++ out2) = (sockets_opened out1 + sockets_opened out2)%nat.
Proof. unfold sockets_opened. rewrite List.filter_app, length_app. reflexivity. Qed.

Lemma stood_down_handle i m m' out :
  stood_down m -> enabled i m = true -> is_connect_call i = false ->
  handle cfg i m = (m', out) ->
  stood_down m' /\ sockets_opened out = 0%nat
  /\ _reconnect_attempts m' <= Z.max 0 (_reconnect_attempts m).
Proof.
  intros [Hs Ht] Hen Hc Hh. unfold stood_down.
  destruct i; try discriminate Hc; open_handlers;
    rewrite ?Hs, ?Ht in *; try discriminate Hen;
    split_ifs; injection Hh as <- <-; cbn; repeat split; auto; lia.
Qed.

Lemma stood_down_execute inputs : forall m m' out,
  stood_down m ->
  forallb (fun i => negb (is_connect_call i)) inputs = true ->
  execute cfg inputs m = Some (m', out) ->
  stood_down m' /\ sockets_opened out = 0%nat.
Proof.
  induction inputs as [| i rest IH]; intros m m' out Hsd Hc Hex; cbn in Hex, Hc.
  - injection Hex as <- <-. split; [exact Hsd | reflexivity].
  - apply andb_true_iff in Hc as [Hc1 Hc2]. apply negb_true_iff in Hc1.
    destruct (enabled i m) eqn:Hen; [| discriminate].
    destruct (handle cfg i m) as [m1 out1] eqn:Hh.
    destruct (execute cfg rest m1) as [[m2 out2] |] eqn:Hrest; [| discriminate].
    injection Hex as <- <-.
    destruct (stood_down_handle i m m1 out1 Hsd Hen Hc1 Hh) as (Hsd1 & H0 & _).
    destruct (IH m1 m2 out2 Hsd1 Hc2 Hrest) as [Hsd2 H0'].
    split; [exact Hsd2 |]. rewrite sockets_opened_app, H0, H0'. reflexivity.
Qed.

(** X13.  [disconnect_user] stands the channel down for good: from any
    state, in every execution that starts with it and does not call
    [connect_user], no socket is opened, and at the end the reconnect
    timer is off and the manager is still told not to reconnect,
    whatever drops, errors and messages the socket delivers. *)
Theorem disconnect_user_never_reconnects
    (m m' : Manager) (inputs : list Input) (out : list Output) :
  forallb (fun i => negb (is_connect_call i)) inputs = true ->
  execute cfg (CallDisconnectUser :: inputs) m = Some (m', out) ->
  sockets_opened out = 0%nat
  /\ reconnect_timer_active m' = false
  /\ _should_reconnect m' = false.
Proof.
  intros Hc Hex. cbn [execute enabled] in Hex.
  destruct (handle cfg CallDisconnectUser m) as [m1 out1] eqn:Hh.
  destruct (execute cfg inputs m1) as [[m2 out2] |] eqn:Hrest; [| discriminate].
  injection Hex as <- <-.
  assert (Hsd : stood_down m1 /\ sockets_opened out1 = 0%nat).
  { cbn in Hh. unfold disconnect_user in Hh. injection Hh as <- <-.
    unfold stood_down. cbn. destruct (_is_connected m); auto. }
  destruct Hsd as [Hsd H1].
  destruct (stood_down_execute inputs m1 m2 out2 Hsd Hc Hrest) as [[Hs Ht] H2].
  rewrite sockets_opened_app, H1, H2. auto.
Qed.

End ChannelMore.

Section ChannelMoreExamples.
Import WebSocketManager.

Lemma connected_reachable :
  reachable Scenario.demo_cfg
    (match execute Scenario.demo_cfg [CallConnectUser 7 "tok"; SocketConnected] initial with
     | Some (m, _) => m
     | None => initial
     end).
Proof.
  eapply (execute_reachable Scenario.demo_cfg
            [CallConnectUser 7 "tok"; SocketConnected] initial).
  - apply reachable_initial.
  - vm_compute. reflexivity.
Defined.

Lemma keepalive_follows_connection_witness :
  let m := match execute Scenario.demo_cfg
                   [CallConnectUser 7 "tok"; SocketConnected] initial with
           | Some (m, _) => m
           | None => initial
           end in
  handle Scenario.demo_cfg PingTimeout m = (m, [PingSent]).
Proof.
  exact (proj1 (proj2 (keepalive_follows_connection Scenario.demo_cfg _
                         connected_reachable)) eq_refl).
Defined.

Lemma disconnect_user_never_reconnects_witness :
  sockets_opened
    [SocketCloseRequested; Emitted disconnected] = 0%nat
  /\ reconnect_timer_active
       (fst (handle Scenario.demo_cfg SocketDisconnected
               (fst (disconnect_user (fst (_on_connected
                  (set_socket SockOpen initial))))))) = false
  /\ _should_reconnect
       (fst (handle Scenario.demo_cfg SocketDisconnected
               (fst (disconnect_user (fst (_on_connected
                  (set_socket SockOpen initial))))))) = false.
Proof.
  exact (disconnect_user_never_reconnects Scenario.demo_cfg
           (fst (_on_connected (set_socket SockOpen initial)))
           (fst (handle Scenario.demo_cfg SocketDisconnected
                   (fst (disconnect_user (fst (_on_connected
                      (set_socket SockOpen initial)))))))
           [SocketDisconnected]
           [SocketCloseRequested; Emitted disconnected]
           eq_refl eq_refl).
Defined.

End ChannelMoreExamples.

(* ===================================================================== *)
(** * More on the panels *)
(* ===================================================================== *)

Section Routing.
Import Panels AppWindow.

(** X14.  A realtime message reaches the panels only when its type is
    one of the four verification types; any other message changes
    nothing, whatever its status.  A forwarded message goes to both
    panels: when it reports success while both channels wait for a
    code, both move to [COMPLETE] and drop their selection, whichever
    channel the message was about. *)
Theorem ws_message_routing (data : Dict) (a : App) :
  let msg_type := dict_get_or data "type" (PStr EmptyString) in
  let status := dict_get_or data "status" (PStr EmptyString) in
  (status_in msg_type verification_types = false -> _on_ws_message data a = a)
  /\ (status_in msg_type verification_types = true ->
      status_in status ["verified"; "completed"; "success"] = true ->
      e_state (email a) = AWAITING_CODE ->
      s_state (sms a) = AWAITING_CODE ->
      let a' := _on_ws_message data a in
      e_state (email a') = COMPLETE /\ s_state (sms a') = COMPLETE
      /\ e_selected_merchant (email a') = None
      /\ s_selected_merchant (sms a') = None
      /\ s_session_id (sms a') = PNone).
Proof.
  cbn zeta. unfold _on_ws_message. split.
  - intros ->. reflexivity.
  - intros -> Hs He Hsm. unfold ws_verification_update.
    unfold Sms._on_ws_update, Email._on_ws_update. rewrite Hs, He. cbn.
    rewrite Hsm. cbn. auto.
Qed.

Lemma ws_message_routing_witness :
  let a' := _on_ws_message Scenario.foreign_success Scenario.awaiting_both in
  e_state (email a') = COMPLETE /\ s_state (sms a') = COMPLETE
  /\ e_selected_merchant (email a') = None
  /\ s_selected_merchant (sms a') = None
  /\ s_session_id (sms a') = PNone.
Proof.
  exact (proj2 (ws_message_routing Scenario.foreign_success Scenario.awaiting_both)
           eq_refl eq_refl eq_refl eq_refl).
Defined.

(** A message of another type that reports success. *)
Example unrouted_message :
  _on_ws_message (<[ "type" := PStr "connection_established" ]> Scenario.foreign_success)
    Scenario.awaiting_both
  = Scenario.awaiting_both.
Proof. vm_compute. reflexivity. Qed.

End Routing.

Section Cancellation.
Import VerificationState VerificationService Panels AppWindow Scenario.

Lemma net_calls_emit t s : net_calls (t ++ [Emit s]) = net_calls t.
Proof. rewrite net_calls_app. cbn. apply app_nil_r. Qed.

Lemma cancel_session_run w :
  snd (cancel_session w)
  = match current_verification (vstate w) with
    | Some _ =>
        with_trace
          (trace w ++ [Emit (verification_completed false "Cancelled by user"
                               (py_or (current_auth_id (vstate w)) (PStr EmptyString)))])
          (with_vstate (_reset_state (vstate w)) w)
    | None => w
    end.
Proof.
  unfold cancel_session, complete_verification, is_active, bind, gets, modify,
    emit, record_event, ret.
  destruct (current_verification (vstate w)) eqn:H; cbn; rewrite ?H; reflexivity.
Qed.

(** X15.  Cancel on either panel, in whatever state: the panel lands in
    [SELECTED] when a merchant is still selected and in [IDLE]
    otherwise, its code input is cleared, and the verification session
    of the process is closed, whichever channel opened it.  Cancel
    sends nothing to the server and leaves the workers already started
    in the pool. *)
Theorem cancel_lands_in_selected_or_idle (a : App) :
  (let a' := Email._on_cancel_clicked a in
   e_state (email a')
   = (if merchant_truthy (e_selected_merchant (email a)) then SELECTED else IDLE)
   /\ e_pin (email a') = EmptyString
   /\ current_verification (vstate (world a')) = None
   /\ net_calls (trace (world a')) = net_calls (trace (world a))
   /\ pool a' = pool a /\ sms a' = sms a)
  /\ (let a' := Sms._on_cancel_clicked a in
      s_state (sms a')
      = (if merchant_truthy (s_selected_merchant (sms a)) then SELECTED else IDLE)
      /\ s_code_input (sms a') = EmptyString
      /\ s_session_id (sms a') = PNone
      /\ current_verification (vstate (world a')) = None
      /\ net_calls (trace (world a')) = net_calls (trace (world a))
      /\ pool a' = pool a /\ email a' = email a).
Proof.
  cbn zeta. unfold Email._on_cancel_clicked, Sms._on_cancel_clicked.
  rewrite !cancel_session_run.
  destruct (current_verification (vstate (world a))) eqn:H; cbn;
    rewrite ?net_calls_emit, ?H; repeat split; reflexivity.
Qed.

(** X16.  However many PINs are typed into the email panel before a
    result is delivered, at most one worker is started: the first
    complete PIN typed in [AWAITING_CODE] moves the panel to
    [VERIFYING], and in any other state a typed PIN starts nothing. *)
Theorem one_verify_worker_at_a_time (pins : list string) (a : App) :
  (length (pool (type_pins pins a)) <= S (length (pool a)))%nat
  /\ (e_state (email a) <> AWAITING_CODE -> pool (type_pins pins a) = pool a).
Proof.
  assert (Hidle : forall pins a,
             e_state (email a) <> AWAITING_CODE ->
             pool (type_pins pins a) = pool a
             /\ e_state (email (type_pins pins a)) = e_state (email a)).
  { clear. induction pins as [| pin pins IH]; intros a Hst; [split; reflexivity |].
    unfold type_pins. cbn [fold_left]. fold (type_pins pins (Email.type_pin pin a)).
    assert (Hone : pool (Email.type_pin pin a) = pool a
                   /\ e_state (email (Email.type_pin pin a)) = e_state (email a)).
    { unfold Email.type_pin, Email._on_pin_auto_entered. cbn.
      rewrite (state_eqb_neq _ _ Hst).
      destruct (len pin =? 6); split; reflexivity. }
    destruct Hone as [Hp Hs].
    destruct (IH (Email.type_pin pin a)) as [Hp' Hs']; [rewrite Hs; exact Hst |].
    rewrite Hp', Hs', Hp, Hs. split; reflexivity. }
  split; [| intros Hst; apply Hidle; exact Hst].
  revert a. induction pins as [| pin pins IH]; intros a; [cbn; lia |].
  unfold type_pins. cbn [fold_left]. fold (type_pins pins (Email.type_pin pin a)).
  destruct (state_eqb (e_state (email a)) AWAITING_CODE) eqn:Hst.
  - destruct (len pin =? 6) eqn:Hlen.
    + assert (Hv : e_state (email (Email.type_pin pin a)) <> AWAITING_CODE
                   /\ length (pool (Email.type_pin pin a)) = S (length (pool a))).
      { unfold Email.type_pin, Email._on_pin_auto_entered, Email._submit_pin.
        rewrite Hlen. cbn. rewrite Hst. cbn.
        split; [discriminate |]. rewrite length_app. cbn. lia. }
      destruct Hv as [Hv1 Hv2].
      destruct (Hidle pins _ Hv1) as [-> _]. lia.
    + assert (Hp : pool (Email.type_pin pin a) = pool a).
      { unfold Email.type_pin. rewrite Hlen. reflexivity. }
      specialize (IH (Email.type_pin pin a)). rewrite Hp in IH. exact IH.
  - assert (Hne : e_state (email a) <> AWAITING_CODE).
    { intros Heq. apply state_eqb_eq in Heq. congruence. }
    destruct (Hidle (pin :: pins) a Hne) as [Hp _].
    unfold type_pins in Hp. cbn [fold_left] in Hp.
    fold (type_pins pins (Email.type_pin pin a)) in Hp. rewrite Hp. lia.
Qed.

Lemma one_verify_worker_at_a_time_witness :
  pool (type_pins ["111111"; "222222"] (Email._transition VERIFYING awaiting_email))
  = pool (Email._transition VERIFYING awaiting_email).
Proof.
  apply (proj2 (one_verify_worker_at_a_time ["111111"; "222222"]
                  (Email._transition VERIFYING awaiting_email))).
  discriminate.
Defined.

End Cancellation.

Section LateResults.
Import BaseClient VerificationState VerificationService ThreadingUtils Panels Scenario.

Variable E : Env.
Hypothesis Hrejects : forall n r, call_failed (server E n r).

(** A well-formed PIN that is turned down leaves the session, if any,
    as it is and charges one attempt. *)
Lemma verify_pin_code_wrong_session pin merchant_id user_id w :
  fst (Validators.validate_pin pin) = true ->
  truthy merchant_id = true ->
  attempts_count (vstate w) < max_attempts (vstate w) ->
  exists o w',
    verify_pin_code E pin merchant_id user_id w = (o, w')
    /\ attempts_count (vstate w') = attempts_count (vstate w) + 1
    /\ current_verification (vstate w') = current_verification (vstate w)
    /\ match o with
       | Ret r => vr_success r = false
       | Raise e => is_Exception e = true
       end.
Proof.
  intros Hpin Hmid Hlt. unfold verify_pin_code.
  destruct (Validators.validate_pin pin) as [is_valid err]. cbn [fst] in Hpin.
  subst is_valid. rewrite Hmid. cbn [negb].
  unfold bind at 1. unfold is_max_attempts_reached, gets.
  destruct (Z.geb_spec (attempts_count (vstate w)) (max_attempts (vstate w)));
    [lia |].
  unfold bind at 1. unfold increment_attempts, bind at 1, modify, gets.
  set (w1 := with_vstate (with_attempts (attempts_count (vstate w) + 1) (vstate w)) w).
  unfold bind at 1.
  destruct (verify_pin_rejected E Hrejects pin (py_str merchant_id) user_id w1)
    as (o & w2 & Hrun & Hv & Ho).
  rewrite Hrun.
  destruct o as [response | e].
  - rewrite Ho. unfold bind, update_status, modify, ret.
    eexists _, _. split; [reflexivity |]. cbn. rewrite Hv.
    repeat split; reflexivity.
  - eexists _, _. split; [reflexivity |]. rewrite Hv.
    split; [reflexivity |]. split; [reflexivity | exact Ho].
Qed.


End LateResults.

Section TypedPhone.
Import BaseClient VerificationState VerificationService ThreadingUtils Panels Scenario.

Variable E : Env.

Lemma patched_merchant_gate (sel : Dict) (phone : string) :
  String.eqb phone EmptyString = false ->
  sms_gate (<[ "contact_phone" := PStr phone ]> sel)
  = truthy (dict_get sel "merchant_id") && fst (Validators.validate_phone phone).
Proof.
  intros Hp. unfold sms_gate, dict_get.
  rewrite lookup_insert_ne by discriminate.
  rewrite lookup_insert_eq. cbn [default from_option id].
  unfold py_or. cbn [truthy]. rewrite ?Hp. cbn. rewrite ?Hp. cbn.
  destruct (truthy _); reflexivity.
Qed.

(** X18.  The SMS panel sends to the number in its input field, not to
    the one in the merchant record: the worker gets the record with
    [contact_phone] replaced by the trimmed input.  So a typed number
    that [validate_phone] turns down never leaves the process: the
    panel is back in [SELECTED], the process state is as it was and the
    pool is empty. *)
Theorem typed_phone_is_validated (a : App) (sel : Dict) :
  s_selected_merchant (sms a) = Some sel ->
  dict_truthy sel = true ->
  pool a = [] ->
  let phone := strip (s_phone_input (sms a)) in
  String.eqb phone EmptyString = false ->
  pool (Sms._on_send_clicked a)
  = [StartSmsTask (<[ "contact_phone" := PStr phone ]> sel)
       (current_user_id (s_user_data (sms a)))]
  /\ s_state (sms (Sms._on_send_clicked a)) = SENDING
  /\ (fst (Validators.validate_phone phone) = false ->
      let a' := run_next E (Sms._on_send_clicked a) in
      s_state (sms a') = SELECTED /\ world a' = world a /\ pool a' = []).
Proof.
  intros Hsel Htruthy Hpool phone Hphone.
  destruct a as [w em sm pl]. cbn [world email sms pool] in *. subst pl.
  assert (Ha1 : Sms._on_send_clicked {| world := w; email := em; sms := sm; pool := [] |}
                = {| world := w; email := em;
                     sms := Sms.set_state SENDING sm;
                     pool := [StartSmsTask (<[ "contact_phone" := PStr phone ]> sel)
                                (current_user_id (s_user_data sm))] |}).
  { unfold Sms._on_send_clicked. cbn [world email sms pool].
    rewrite Hsel, Htruthy. fold phone. rewrite Hphone. reflexivity. }
  rewrite Ha1. clear Ha1. cbn [pool sms].
  split; [reflexivity |]. split; [reflexivity |].
  intros Hbad. unfold run_next. cbn [pool run_task world email sms].
  assert (Hgate : sms_gate (<[ "contact_phone" := PStr phone ]> sel) = false).
  { rewrite (patched_merchant_gate sel phone Hphone), Hbad. apply andb_false_r. }
  destruct (start_sms_verification_gate E
              (<[ "contact_phone" := PStr phone ]> sel)
              (current_user_id (s_user_data sm)) w Hgate)
    as [msg Hrun].
  unfold run. rewrite Hrun. cbn.
  repeat split.
Qed.

End TypedPhone.

Section LateResultExamples.
Import Panels Scenario.

Lemma session_is_active : current_verification (vstate (world awaiting_email)) <> None.
Proof. discriminate. Defined.


Lemma typed_phone_is_validated_witness :
  let a' := run_next rejecting (Sms._on_send_clicked mistyped_phone) in
  s_state (sms a') = SELECTED /\ world a' = world mistyped_phone /\ pool a' = [].
Proof.
  exact (proj2 (proj2 (typed_phone_is_validated rejecting mistyped_phone demo_merchant
                         eq_refl eq_refl eq_refl eq_refl)) eq_refl).
Defined.

(** The request of the cancelled session did go out. *)
Example cancelled_worker_reaches_server :
  length (net_calls (trace (world
    (run_next rejecting
       (Email._on_cancel_clicked (Email.type_pin "111111" awaiting_email))))))
  = 1%nat.
Proof. vm_compute. reflexivity. Qed.

End LateResultExamples.

(* ===================================================================== *)
(** * The event bus *)
(* ===================================================================== *)

Section EventBusFacts.
Import EventBus.

Lemma handler_in_elem_of (cb : Handler) (l : list Handler) :
  handler_in cb l = true <-> cb ∈ l.
Proof.
  unfold handler_in. induction l as [| x l IH]; cbn.
  - split; [discriminate | intros H; inversion H].
  - rewrite orb_true_iff, IH, elem_of_cons, Nat.eqb_eq. reflexivity.
Qed.

Lemma handler_in_not_elem_of (cb : Handler) (l : list Handler) :
  handler_in cb l = false <-> cb ∉ l.
Proof.
  rewrite <- handler_in_elem_of. destruct (handler_in cb l); split; congruence.
Qed.

Lemma elem_of_list_remove (cb x : Handler) (l : list Handler) :
  NoDup l -> x ∈ list_remove cb l <-> x ∈ l /\ x <> cb.
Proof.
  induction 1 as [| y l Hy Hnd IH]; cbn.
  - split; [intros H; inversion H | intros [H _]; inversion H].
  - destruct (Nat.eqb_spec cb y) as [-> | Hne].
    + rewrite elem_of_cons. split.
      * intros Hx. split; [right; exact Hx |]. intros ->. contradiction.
      * intros [[-> | Hx] Hneq]; [contradiction | exact Hx].
    + rewrite !elem_of_cons, IH. split.
      * intros [-> | [Hx Hneq]]; [split; [left; reflexivity | congruence] |].
        split; [right; exact Hx | exact Hneq].
      * intros [[-> | Hx] Hneq]; [left; reflexivity | right; split; assumption].
Qed.

Lemma NoDup_list_remove (cb : Handler) (l : list Handler) :
  NoDup l -> NoDup (list_remove cb l).
Proof.
  induction 1 as [| y l Hy Hnd IH]; cbn; [constructor |].
  destruct (Nat.eqb_spec cb y); [exact Hnd |].
  constructor; [| exact IH].
  rewrite (elem_of_list_remove cb y l Hnd). intros [Hin _]. contradiction.
Qed.

Lemma list_remove_app_fresh (cb : Handler) (l : list Handler) :
  cb ∉ l -> list_remove cb (l ++ [cb]) = l.
Proof.
  induction l as [| x l IH]; cbn; intros Hnot.
  - rewrite Nat.eqb_refl. reflexivity.
  - rewrite not_elem_of_cons in Hnot. destruct Hnot as [Hne Hnot].
    destruct (Nat.eqb_spec cb x); [contradiction |].
    rewrite (IH Hnot). reflexivity.
Qed.

Lemma well_formed_empty : well_formed ∅.
Proof. intros e l H. rewrite lookup_empty in H. discriminate. Qed.

(** [subscribe] as one case distinction. *)
Lemma subscribe_cases (e : string) (cb : Handler) (s : Subscribers) :
  subscribe e cb s
  = if handler_in cb (subscribers_of e s) then s
    else <[ e := subscribers_of e s ++ [cb] ]> s.
Proof.
  unfold subscribe, subscribers_of.
  destruct (s !! e) as [l |] eqn:Hl; cbn.
  - rewrite Hl. cbn [default from_option id]. unfold handler_in.
    destruct (existsb (Nat.eqb cb) l); reflexivity.
  - rewrite lookup_insert_eq. cbn. rewrite insert_insert_eq. reflexivity.
Qed.

Lemma subscribe_well_formed e cb s : well_formed s -> well_formed (subscribe e cb s).
Proof.
  intros Hwf. rewrite subscribe_cases.
  destruct (handler_in cb (subscribers_of e s)) eqn:Hin; [exact Hwf |].
  intros e' l. destruct (decide (e' = e)) as [-> | Hne].
  - rewrite lookup_insert_eq. intros [= <-]. split.
    + intros H. apply app_eq_nil in H. destruct H as [_ H]. discriminate.
    + apply NoDup_app. split; [| split].
      * unfold subscribers_of. destruct (s !! e) as [l0 |] eqn:Hl; cbn.
        -- exact (proj2 (Hwf e l0 Hl)).
        -- constructor.
      * intros x Hx Hx'. apply list_elem_of_singleton in Hx'. subst x.
        apply handler_in_not_elem_of in Hin. contradiction.
      * apply NoDup_singleton.
  - rewrite lookup_insert_ne by congruence. apply Hwf.
Qed.

Lemma unsubscribe_well_formed e cb s :
  well_formed s -> well_formed (unsubscribe e cb s).
Proof.
  intros Hwf. unfold unsubscribe.
  destruct (s !! e) as [l |] eqn:Hl; [| exact Hwf].
  destruct (handler_in cb l) eqn:Hin; [| exact Hwf].
  destruct (Hwf e l Hl) as [_ Hnd].
  pose proof (NoDup_list_remove cb l Hnd) as Hnd'.
  destruct (list_remove cb l) as [| x l'] eqn:Hrm.
  - intros e' l0. destruct (decide (e' = e)) as [-> | Hne].
    + rewrite lookup_delete_eq. discriminate.
    + rewrite lookup_delete_ne, lookup_insert_ne by congruence. apply Hwf.
  - intros e' l0. destruct (decide (e' = e)) as [-> | Hne].
    + rewrite lookup_insert_eq. intros [= <-]. split; [discriminate | exact Hnd'].
    + rewrite lookup_insert_ne by congruence. apply Hwf.
Qed.

Lemma clear_subscribers_well_formed e s :
  well_formed s -> well_formed (clear_subscribers e s).
Proof.
  intros Hwf. unfold clear_subscribers.
  destruct e as [e |]; [| apply well_formed_empty].
  destruct (negb (String.eqb e EmptyString)); [| apply well_formed_empty].
  destruct (s !! e) eqn:Hl; [| exact Hwf].
  intros e' l0. destruct (decide (e' = e)) as [-> | Hne].
  - rewrite lookup_delete_eq. discriminate.
  - rewrite lookup_delete_ne by congruence. apply Hwf.
Qed.

Lemma apply_well_formed s op : well_formed s -> well_formed (apply s op).
Proof.
  destruct op; cbn;
    auto using subscribe_well_formed, unsubscribe_well_formed,
      clear_subscribers_well_formed.
Qed.

Lemma after_well_formed (ops : list Op) : well_formed (after ops).
Proof.
  unfold after. generalize well_formed_empty.
  generalize (∅ : Subscribers) as s.
  induction ops as [| op ops IH]; intros s Hwf; cbn; [exact Hwf |].
  apply IH, apply_well_formed, Hwf.
Qed.

Lemma subscribers_of_NoDup e s : well_formed s -> NoDup (subscribers_of e s).
Proof.
  intros Hwf. unfold subscribers_of.
  destruct (s !! e) as [l |] eqn:Hl; cbn; [exact (proj2 (Hwf e l Hl)) | constructor].
Qed.

(** X19.  Whatever sequence of [subscribe], [unsubscribe] and
    [clear_subscribers] calls the bus has seen since [__init__], no
    handler is listed twice for an event type and no event type is
    kept with an empty list: the count of an event type is zero
    exactly when the type is not a key of the table. *)
Theorem bus_lists_no_duplicates_no_empties (ops : list Op) (e : string) :
  NoDup (subscribers_of e (after ops))
  /\ (get_subscriber_count e (after ops) = 0 <-> after ops !! e = None).
Proof.
  pose proof (after_well_formed ops) as Hwf.
  split; [apply subscribers_of_NoDup, Hwf |].
  unfold get_subscriber_count, subscribers_of.
  destruct (after ops !! e) as [l |] eqn:Hl; cbn.
  - destruct (Hwf e l Hl) as [Hne _].
    destruct l; [contradiction |]. cbn. split; [lia | discriminate].
  - split; reflexivity.
Qed.

Lemma unsubscribe_subscribers_of e cb s e' :
  well_formed s ->
  subscribers_of e' (unsubscribe e cb s)
  = if String.eqb e' e then list_remove cb (subscribers_of e s)
    else subscribers_of e' s.
Proof.
  intros Hwf. unfold unsubscribe, subscribers_of.
  destruct (String.eqb_spec e' e) as [-> | Hne].
  - destruct (s !! e) as [l |] eqn:Hl; cbn; [| rewrite Hl; reflexivity].
    destruct (handler_in cb l) eqn:Hin.
    + destruct (list_remove cb l) as [| x l'] eqn:Hrm.
      * rewrite lookup_delete_eq. reflexivity.
      * rewrite lookup_insert_eq. reflexivity.
    + rewrite Hl. cbn. apply handler_in_not_elem_of in Hin.
      clear Hl. induction l as [| x l IH]; cbn; [reflexivity |].
      rewrite not_elem_of_cons in Hin. destruct Hin as [Hx Hin].
      destruct (Nat.eqb_spec cb x); [contradiction |].
      rewrite <- (IH Hin). reflexivity.
  - destruct (s !! e) as [l |] eqn:Hl; [| reflexivity].
    destruct (handler_in cb l); [| reflexivity].
    destruct (list_remove cb l).
    + rewrite lookup_delete_ne, lookup_insert_ne by congruence. reflexivity.
    + rewrite lookup_insert_ne by congruence. reflexivity.
Qed.

(** X20.  On a bus that has only been used through its methods,
    [unsubscribe] takes the handler off the list of the event type
    for good, and changes nothing else: afterwards a handler is
    listed for an event type exactly when it was listed before and is
    not the pair just unsubscribed.  ([list.remove] takes one
    occurrence only; it is the test in [subscribe] that makes one
    enough.) *)
Theorem unsubscribe_removes_exactly_the_pair
    (ops : list Op) (e : string) (cb : Handler) (e' : string) (cb' : Handler) :
  handler_in cb' (subscribers_of e' (unsubscribe e cb (after ops)))
  = handler_in cb' (subscribers_of e' (after ops))
    && negb (String.eqb e' e && Nat.eqb cb' cb).
Proof.
  pose proof (after_well_formed ops) as Hwf.
  rewrite (unsubscribe_subscribers_of e cb (after ops) e' Hwf).
  destruct (String.eqb_spec e' e) as [-> | Hne]; cbn [andb negb];
    [| rewrite andb_true_r; reflexivity].
  apply Bool.eq_iff_eq_true.
  rewrite andb_true_iff, negb_true_iff, Nat.eqb_neq, !handler_in_elem_of.
  apply elem_of_list_remove, subscribers_of_NoDup, Hwf.
Qed.

Lemma subscribe_idempotent e cb s :
  subscribe e cb (subscribe e cb s) = subscribe e cb s.
Proof.
  rewrite (subscribe_cases e cb s).
  destruct (handler_in cb (subscribers_of e s)) eqn:Hin.
  - rewrite subscribe_cases, Hin. reflexivity.
  - rewrite subscribe_cases. unfold subscribers_of at 1.
    rewrite lookup_insert_eq. cbn [default from_option id].
    assert (Hnow : handler_in cb (subscribers_of e s ++ [cb]) = true).
    { apply handler_in_elem_of, elem_of_app. right.
      apply list_elem_of_singleton. reflexivity. }
    rewrite Hnow. reflexivity.
Qed.

Lemma subscribe_unsubscribe e cb s :
  well_formed s ->
  handler_in cb (subscribers_of e s) = false ->
  unsubscribe e cb (subscribe e cb s) = s.
Proof.
  intros Hwf Hin. rewrite subscribe_cases, Hin.
  unfold unsubscribe. rewrite lookup_insert_eq.
  assert (Hnow : handler_in cb (subscribers_of e s ++ [cb]) = true).
  { apply handler_in_elem_of, elem_of_app. right.
    apply list_elem_of_singleton. reflexivity. }
  rewrite Hnow.
  apply handler_in_not_elem_of in Hin.
  rewrite (list_remove_app_fresh cb _ Hin), insert_insert_eq.
  unfold subscribers_of. destruct (s !! e) as [l |] eqn:Hl; cbn.
  - destruct (Hwf e l Hl) as [Hne _].
    destruct l as [| x l]; [contradiction |]. apply insert_id, Hl.
  - apply delete_insert_id, Hl.
Qed.

(** X21.  Subscribing a handler that is already subscribed changes
    nothing; and on a bus that has only been used through its methods,
    subscribing a handler that was not subscribed and unsubscribing it
    again gives back the very table there was, an event type that the
    subscription created included. *)
Theorem subscribe_then_unsubscribe_restores
    (ops : list Op) (e : string) (cb : Handler) :
  handler_in cb (subscribers_of e (after ops)) = false ->
  subscribe e cb (subscribe e cb (after ops)) = subscribe e cb (after ops)
  /\ get_subscriber_count e (subscribe e cb (after ops))
     = get_subscriber_count e (after ops) + 1
  /\ unsubscribe e cb (subscribe e cb (after ops)) = after ops.
Proof.
  intros Hin. split; [apply subscribe_idempotent |].
  split; [| apply subscribe_unsubscribe; [apply after_well_formed | exact Hin]].
  rewrite subscribe_cases, Hin. unfold get_subscriber_count.
  unfold subscribers_of at 1. rewrite lookup_insert_eq. cbn [default from_option id].
  rewrite length_app. cbn. lia.
Qed.

Lemma subscribe_then_unsubscribe_restores_witness :
  let ops := [Subscribe "auth.logout" 1%nat; Subscribe "auth.logout" 2%nat;
              Unsubscribe "auth.logout" 1%nat] in
  subscribe "error.api" 2%nat (subscribe "error.api" 2%nat (after ops))
  = subscribe "error.api" 2%nat (after ops)
  /\ get_subscriber_count "error.api" (subscribe "error.api" 2%nat (after ops))
     = get_subscriber_count "error.api" (after ops) + 1
  /\ unsubscribe "error.api" 2%nat (subscribe "error.api" 2%nat (after ops))
     = after ops.
Proof.
  exact (subscribe_then_unsubscribe_restores
           [Subscribe "auth.logout" 1%nat; Subscribe "auth.logout" 2%nat;
            Unsubscribe "auth.logout" 1%nat] "error.api" 2%nat eq_refl).
Defined.

Section Delivery.
Variable behaviour : Handler -> pyval -> Subscribers -> outcome unit * Subscribers.

Lemma run_handlers_calls (data : pyval) (snapshot : list Handler) (b : Bus) :
  (forall cb s,
      match fst (behaviour cb data s) with
      | Ret _ => True
      | Raise e => is_Exception e = true
      end) ->
  fst (run_handlers behaviour snapshot data b) = Ret tt
  /\ calls (snd (run_handlers behaviour snapshot data b))
     = calls b ++ map (fun cb => (cb, data)) snapshot.
Proof.
  intros Hwb. revert b.
  induction snapshot as [| cb rest IH]; intros b; cbn.
  - rewrite app_nil_r. split; reflexivity.
  - specialize (Hwb cb (subscribers b)).
    destruct (behaviour cb data (subscribers b)) as [o s]. cbn [fst] in Hwb.
    destruct o as [[] | ex]; [| rewrite Hwb];
      (destruct (IH {| subscribers := s; calls := calls b ++ [(cb, data)] |})
         as [Ho Hc];
       split; [exact Ho |];
       rewrite Hc; cbn [calls]; rewrite <- app_assoc; reflexivity).
Qed.

End Delivery.

(** X22.  [publish] calls the handlers that are subscribed to the event
    type at the moment of the call, each exactly once, in the order of
    subscription, with the data published.  A handler that raises an
    [Exception] does not keep the later ones from being called, and
    whatever the handlers do to the subscriber table meanwhile
    (unsubscribe a later handler, subscribe a new one) does not change
    who is called in this round. *)
Theorem publish_calls_each_subscriber_once
    (behaviour : Handler -> pyval -> Subscribers -> outcome unit * Subscribers)
    (ops : list Op) (e : string) (data : pyval) (log : list (Handler * pyval)) :
  (forall cb s,
      match fst (behaviour cb data s) with
      | Ret _ => True
      | Raise ex => is_Exception ex = true
      end) ->
  let b := {| subscribers := after ops; calls := log |} in
  let listed := subscribers_of e (after ops) in
  fst (publish behaviour e data b) = Ret tt
  /\ calls (snd (publish behaviour e data b))
     = log ++ map (fun cb => (cb, data)) listed
  /\ NoDup listed.
Proof.
  intros Hwb b listed. unfold publish. cbn [subscribers].
  destruct (run_handlers_calls behaviour data listed b Hwb) as [Ho Hc].
  split; [exact Ho |]. split; [exact Hc |].
  apply subscribers_of_NoDup, after_well_formed.
Qed.

End EventBusFacts.

Section EventBusExamples.
Import EventBus Fixtures.

Lemma spiteful_raises_exceptions_only (data : pyval) :
  forall cb s,
    match fst (spiteful cb data s) with
    | Ret _ => True
    | Raise ex => is_Exception ex = true
    end.
Proof. intros cb s. unfold spiteful. destruct (Nat.eqb cb 1); cbn; auto. Defined.

Lemma publish_calls_each_subscriber_once_witness :
  fst (publish spiteful "auth.logout" PNone
         {| subscribers := after [Subscribe "auth.logout" 1%nat;
                                  Subscribe "auth.logout" 2%nat];
            calls := [] |}) = Ret tt
  /\ calls (snd (publish spiteful "auth.logout" PNone
         {| subscribers := after [Subscribe "auth.logout" 1%nat;
                                  Subscribe "auth.logout" 2%nat];
            calls := [] |}))
     = [] ++ map (fun cb => (cb, PNone))
               (subscribers_of "auth.logout"
                  (after [Subscribe "auth.logout" 1%nat;
                          Subscribe "auth.logout" 2%nat]))
  /\ NoDup (subscribers_of "auth.logout"
              (after [Subscribe "auth.logout" 1%nat;
                      Subscribe "auth.logout" 2%nat])).
Proof.
  exact (publish_calls_each_subscriber_once spiteful
           [Subscribe "auth.logout" 1%nat; Subscribe "auth.logout" 2%nat]
           "auth.logout" PNone [] (spiteful_raises_exceptions_only PNone)).
Defined.

End EventBusExamples.

(* ===================================================================== *)
(** * The merchant cache *)
(* ===================================================================== *)

Section MerchantCacheFacts.
Import Model MerchantService.

Lemma cleanup_lookup now (c : Cache) k v ts :
  _cleanup_cache now c !! k = Some (v, ts)
  <-> c !! k = Some (v, ts) /\ now - ts < _cache_ttl.
Proof. unfold _cleanup_cache. rewrite map_lookup_filter_Some. reflexivity. Qed.

Lemma add_lookup_same key value t t' (c : Cache) :
  t' - t < _cache_ttl ->
  _add_to_cache key value t t' c !! key = Some (value, t).
Proof.
  intros Hfresh. unfold _add_to_cache.
  destruct (Z.of_nat (size (<[key:=(value, t)]> c)) >? 100).
  - apply cleanup_lookup. rewrite lookup_insert_eq. split; [reflexivity | exact Hfresh].
  - apply lookup_insert_eq.
Qed.

(** X23.  An entry stored with [_add_to_cache] is served by
    [_get_from_cache] for thirty seconds and not after: a read less
    than thirty seconds after the entry gives the value, a later read
    gives [None] and deletes the entry.  Storing keeps every other
    entry that is still fresh, and when it leaves more than a hundred
    entries in the cache all of them are fresh. *)
Theorem cache_entry_lives_thirty_seconds
    (key : string) (value : pyval) (t t' now : Z) (c : Cache) :
  t' - t < _cache_ttl ->
  let c1 := _add_to_cache key value t t' c in
  fst (_get_from_cache key now c1)
  = (if now - t <? seconds 30 then value else PNone)
  /\ snd (_get_from_cache key now c1)
     = (if now - t <? seconds 30 then c1 else delete key c1)
  /\ (forall k v ts,
        k <> key -> c !! k = Some (v, ts) -> t' - ts < _cache_ttl ->
        c1 !! k = Some (v, ts))
  /\ (100 < Z.of_nat (size c1) ->
      forall k v ts, c1 !! k = Some (v, ts) -> t' - ts < _cache_ttl).
Proof.
  intros Hfresh c1.
  pose proof (add_lookup_same key value t t' c Hfresh) as Hkey. fold c1 in Hkey.
  unfold _get_from_cache. rewrite Hkey. fold _cache_ttl.
  split; [destruct (now - t <? _cache_ttl); reflexivity |].
  split; [destruct (now - t <? _cache_ttl); reflexivity |].
  subst c1. unfold _add_to_cache.
  destruct (Z.of_nat (size (<[key:=(value, t)]> c)) >? 100) eqn:Hbig.
  - split.
    + intros k v ts Hne Hk Hts. apply cleanup_lookup.
      rewrite lookup_insert_ne by congruence. split; assumption.
    + intros _ k v ts Hk. apply cleanup_lookup in Hk. apply Hk.
  - split.
    + intros k v ts Hne Hk _. rewrite lookup_insert_ne by congruence. exact Hk.
    + intros Hsize. rewrite Z.gtb_ltb in Hbig. apply Z.ltb_ge in Hbig. lia.
Qed.

Lemma cache_entry_lives_thirty_seconds_witness :
  fst (_get_from_cache "q:acme" (seconds 40)
         (_add_to_cache "q:acme" (PStr "hit") (seconds 5) (seconds 5) ∅))
  = PNone.
Proof.
  exact (proj1 (cache_entry_lives_thirty_seconds "q:acme" (PStr "hit")
                  (seconds 5) (seconds 5) (seconds 40) ∅ eq_refl)).
Defined.

End MerchantCacheFacts.

(* ===================================================================== *)
(** * Strings: slices, filters, stripping *)
(* ===================================================================== *)

Section StringFacts.
Import Slices.

Lemma append_nil (b : string) : EmptyString +:+ b = b.
Proof. reflexivity. Qed.

Lemma append_cons (c : ascii) (a b : string) : String c a +:+ b = String c (a +:+ b).
Proof. reflexivity. Qed.

Lemma length_append (a b : string) :
  String.length (a +:+ b) = (String.length a + String.length b)%nat.
Proof.
  induction a as [| c a IH]; [reflexivity |].
  rewrite append_cons. cbn. rewrite IH. reflexivity.
Qed.

Lemma len_append (a b : string) : len (a +:+ b) = len a + len b.
Proof. unfold len. rewrite length_append. lia. Qed.

Lemma len_nonneg (s : string) : 0 <= len s.
Proof. unfold len. lia. Qed.

Lemma len_zero (s : string) : len s = 0 -> s = EmptyString.
Proof. destruct s; [reflexivity | unfold len; cbn; lia]. Qed.

Lemma append_empty_r (s : string) : s +:+ EmptyString = s.
Proof.
  induction s as [| c s IH]; [reflexivity |]. rewrite append_cons, IH. reflexivity.
Qed.

Lemma append_assoc (a b c : string) : (a +:+ b) +:+ c = a +:+ (b +:+ c).
Proof.
  induction a as [| x a IH]; [reflexivity |]. rewrite !append_cons, IH. reflexivity.
Qed.

Lemma length_str_take (n : nat) (s : string) :
  String.length (str_take n s) = Nat.min n (String.length s).
Proof.
  revert s. induction n as [| n IH]; intros [| c s]; cbn; try reflexivity.
  rewrite IH. reflexivity.
Qed.

Lemma length_str_drop (n : nat) (s : string) :
  String.length (str_drop n s) = (String.length s - n)%nat.
Proof.
  revert s. induction n as [| n IH]; intros [| c s]; cbn; try reflexivity.
  apply IH.
Qed.

Lemma str_take_drop (n : nat) (s : string) : str_take n s +:+ str_drop n s = s.
Proof.
  revert s. induction n as [| n IH]; intros [| c s]; try reflexivity.
  cbn [str_take str_drop]. rewrite append_cons, IH. reflexivity.
Qed.

Lemma str_take_append (a b : string) : str_take (String.length a) (a +:+ b) = a.
Proof.
  induction a as [| c a IH]; [destruct b; reflexivity |].
  rewrite append_cons. cbn. rewrite IH. reflexivity.
Qed.

Lemma str_drop_append (a b : string) : str_drop (String.length a) (a +:+ b) = b.
Proof.
  induction a as [| c a IH]; [reflexivity |]. rewrite append_cons. cbn. exact IH.
Qed.

Lemma length_repeat_nat (m : string) (n : nat) :
  String.length (repeat_nat m n) = (n * String.length m)%nat.
Proof.
  induction n as [| n IH]; cbn; [reflexivity |].
  rewrite length_append, IH. lia.
Qed.

Lemma str_filter_append (p : ascii -> bool) (a b : string) :
  str_filter p (a +:+ b) = str_filter p a +:+ str_filter p b.
Proof.
  induction a as [| c a IH]; [reflexivity |].
  rewrite append_cons. cbn. destruct (p c); rewrite IH; reflexivity.
Qed.

Lemma str_filter_all (p : ascii -> bool) (s : string) :
  str_all p s = true -> str_filter p s = s.
Proof.
  induction s as [| c s IH]; cbn; [reflexivity |].
  intros H. apply andb_true_iff in H. destruct H as [Hc Hs].
  rewrite Hc, (IH Hs). reflexivity.
Qed.

Lemma str_all_filter (p : ascii -> bool) (s : string) :
  str_all p (str_filter p s) = true.
Proof.
  induction s as [| c s IH]; cbn; [reflexivity |].
  destruct (p c) eqn:Hc; cbn; [rewrite Hc |]; exact IH.
Qed.

Lemma str_all_append (p : ascii -> bool) (a b : string) :
  str_all p (a +:+ b) = str_all p a && str_all p b.
Proof.
  induction a as [| c a IH]; [reflexivity |].
  rewrite append_cons. cbn. rewrite IH, andb_assoc. reflexivity.
Qed.

Lemma str_remove_append (p : ascii -> bool) (a b : string) :
  str_remove p (a +:+ b) = str_remove p a +:+ str_remove p b.
Proof.
  induction a as [| c a IH]; [reflexivity |].
  rewrite append_cons. cbn. destruct (p c); rewrite IH; reflexivity.
Qed.

Lemma str_remove_none (p : ascii -> bool) (s : string) :
  str_all (fun c => negb (p c)) s = true -> str_remove p s = s.
Proof.
  induction s as [| c s IH]; cbn; [reflexivity |].
  intros H. apply andb_true_iff in H. destruct H as [Hc Hs].
  apply negb_true_iff in Hc. rewrite Hc, (IH Hs). reflexivity.
Qed.

Lemma str_all_remove (p : ascii -> bool) (s : string) :
  str_all (fun c => negb (p c)) (str_remove p s) = true.
Proof.
  induction s as [| c s IH]; cbn; [reflexivity |].
  destruct (p c) eqn:Hc; cbn; [| rewrite Hc]; exact IH.
Qed.

Lemma str_all_weaken (p q : ascii -> bool) (s : string) :
  (forall c, p c = true -> q c = true) -> str_all p s = true -> str_all q s = true.
Proof.
  intros Hpq. induction s as [| c s IH]; cbn; [reflexivity |].
  intros H. apply andb_true_iff in H. destruct H as [Hc Hs].
  rewrite (Hpq c Hc), (IH Hs). reflexivity.
Qed.

(** Removing the characters of [p] first does not change what is left
    after removing those of [q], when [q] covers [p]. *)
Lemma str_remove_absorb (p q : ascii -> bool) (s : string) :
  (forall c, p c = true -> q c = true) ->
  str_remove q (str_remove p s) = str_remove q s.
Proof.
  intros Hpq. induction s as [| c s IH]; cbn; [reflexivity |].
  destruct (p c) eqn:Hp.
  - rewrite (Hpq c Hp). exact IH.
  - cbn. rewrite IH. reflexivity.
Qed.

(** ** Stripping *)

Lemma lstrip_starts_clean (s : string) : starts_clean (lstrip s).
Proof.
  induction s as [| c s IH]; cbn; [exact I |].
  destruct (char_isspace c) eqn:Hc; [exact IH | exact Hc].
Qed.

Lemma lstrip_of_clean (s : string) : starts_clean s -> lstrip s = s.
Proof. destruct s as [| c s]; cbn; [reflexivity |]. intros ->. reflexivity. Qed.

Lemma rstrip_starts_clean (s : string) : starts_clean s -> starts_clean (rstrip s).
Proof.
  destruct s as [| c s]; [exact id |]. cbn [starts_clean rstrip]. intros Hc.
  destruct (rstrip s); [rewrite Hc |]; exact Hc.
Qed.

Lemma rstrip_cons (c : ascii) (s : string) :
  rstrip (String c s)
  = match rstrip s with
    | EmptyString => if char_isspace c then EmptyString else String c EmptyString
    | r => String c r
    end.
Proof. reflexivity. Qed.

Lemma rstrip_idempotent (s : string) : rstrip (rstrip s) = rstrip s.
Proof.
  induction s as [| c s IH]; [reflexivity |].
  rewrite rstrip_cons.
  destruct (rstrip s) as [| d r] eqn:Hr.
  - destruct (char_isspace c) eqn:Hc; [reflexivity |].
    rewrite rstrip_cons. cbn [rstrip]. rewrite Hc. reflexivity.
  - rewrite rstrip_cons, IH. reflexivity.
Qed.

Lemma strip_idempotent (s : string) : strip (strip s) = strip s.
Proof.
  unfold strip.
  rewrite (lstrip_of_clean (rstrip (lstrip s))).
  - apply rstrip_idempotent.
  - apply rstrip_starts_clean, lstrip_starts_clean.
Qed.

Lemma str_all_lstrip (p : ascii -> bool) (s : string) :
  str_all p s = true -> str_all p (lstrip s) = true.
Proof.
  induction s as [| c s IH]; cbn; [reflexivity |].
  intros H. destruct (char_isspace c); [| exact H].
  apply andb_true_iff in H. apply IH, H.
Qed.

Lemma str_all_rstrip (p : ascii -> bool) (s : string) :
  str_all p s = true -> str_all p (rstrip s) = true.
Proof.
  induction s as [| c s IH]; [reflexivity |].
  cbn [str_all]. intros H. apply andb_true_iff in H. destruct H as [Hc Hs].
  specialize (IH Hs). rewrite rstrip_cons.
  destruct (rstrip s) as [| d r].
  - destruct (char_isspace c); cbn; [reflexivity | rewrite Hc; reflexivity].
  - cbn [str_all] in *. rewrite Hc, IH. reflexivity.
Qed.

Lemma str_all_strip (p : ascii -> bool) (s : string) :
  str_all p s = true -> str_all p (strip s) = true.
Proof. intros H. apply str_all_rstrip, str_all_lstrip, H. Qed.

End StringFacts.

(* ===================================================================== *)
(** * [utils/security.py] and [utils/formatters.py] *)
(* ===================================================================== *)

Section MaskAndTruncate.
Import Slices DataProtection Formatters.

Lemma slice_bound_nonneg (n i : Z) : 0 <= i -> i <= n -> slice_bound n i = Z.to_nat i.
Proof.
  intros H0 Hn. unfold slice_bound.
  destruct (Z.ltb_spec i 0); [lia |]. rewrite Z.min_l by lia. reflexivity.
Qed.

Lemma len_str_repeat (m : string) (n : Z) :
  String.length m = 1%nat -> 0 <= n -> len (str_repeat m n) = n.
Proof.
  intros Hm Hn. unfold len, str_repeat. rewrite length_repeat_nat, Hm. lia.
Qed.

Lemma len_str_drop (n : nat) (s : string) :
  len (str_drop n s) = Z.max 0 (len s - Z.of_nat n).
Proof. unfold len. rewrite length_str_drop. lia. Qed.

Lemma len_str_take (n : nat) (s : string) :
  len (str_take n s) = Z.min (Z.of_nat n) (len s).
Proof. unfold len. rewrite length_str_take. lia. Qed.

(** X24.  With a one-character mask and [visible_chars >= 1],
    [mask_sensitive_data] gives a string of the length of the data, and
    data no longer than [visible_chars] is masked entirely.  With
    [visible_chars = 0] nothing is hidden: [data[-0:]] is the whole of
    the data, so the result is the masks followed by the data itself. *)
Theorem mask_keeps_length_but_not_at_zero
    (data mask_char : string) (visible_chars : Z) :
  String.length mask_char = 1%nat ->
  (1 <= visible_chars ->
     len (mask_sensitive_data data mask_char visible_chars) = len data
     /\ (len data <= visible_chars ->
         mask_sensitive_data data mask_char visible_chars
         = str_repeat mask_char (len data)))
  /\ (visible_chars = 0 ->
      mask_sensitive_data data mask_char visible_chars
      = str_repeat mask_char (len data) +:+ data).
Proof.
  intros Hm. unfold mask_sensitive_data. split.
  - intros Hv.
    destruct (String.eqb_spec data EmptyString) as [-> | Hne]; cbn [orb negb].
    + split; reflexivity.
    + destruct (Z.leb_spec (len data) visible_chars) as [Hle | Hgt].
      * split; [| reflexivity].
        apply len_str_repeat; [exact Hm | apply len_nonneg].
      * split; [| lia].
        rewrite len_append, (len_str_repeat _ _ Hm) by lia.
        unfold slice_from. rewrite len_str_drop. unfold slice_bound.
        destruct (Z.ltb_spec (- visible_chars) 0); lia.
  - intros ->.
    destruct (String.eqb_spec data EmptyString) as [-> | Hne]; cbn [orb negb].
    + reflexivity.
    + destruct (Z.leb_spec (len data) 0) as [Hle | Hgt].
      * exfalso. apply Hne, len_zero. pose proof (len_nonneg data). lia.
      * rewrite Z.sub_0_r. unfold slice_from. change (- 0) with 0.
        rewrite slice_bound_nonneg by lia. reflexivity.
Qed.

Lemma mask_keeps_length_but_not_at_zero_witness :
  mask_sensitive_data "4111111111111111" "*" 0
  = str_repeat "*" (len "4111111111111111") +:+ "4111111111111111".
Proof.
  exact (proj2 (mask_keeps_length_but_not_at_zero "4111111111111111" "*" 0 eq_refl)
           eq_refl).
Defined.

(** X25.  When the suffix fits into [max_length], the text
    [truncate_text] returns is never longer than [max_length], and a
    text that fits is returned as it is.  When the suffix is longer
    than [max_length] the slice bound is negative and counts from the
    end: a text that does not fit comes back longer than
    [max_length]. *)
Theorem truncate_text_bound (text suffix : string) (max_length : Z) :
  (len suffix <= max_length -> len (truncate_text text max_length suffix) <= max_length)
  /\ (len text <= max_length -> truncate_text text max_length suffix = text)
  /\ (max_length < len suffix -> max_length < len text ->
      max_length < len (truncate_text text max_length suffix)).
Proof.
  unfold truncate_text. pose proof (len_nonneg text) as Ht.
  pose proof (len_nonneg suffix) as Hs.
  split; [| split].
  - intros Hfit.
    destruct (String.eqb_spec text EmptyString) as [-> | Hne];
      [change (len EmptyString) with 0; lia |].
    destruct (Z.leb_spec (len text) max_length) as [Hle | Hgt]; [exact Hle |].
    rewrite len_append. unfold slice_to.
    rewrite len_str_take.
    rewrite (slice_bound_nonneg (len text) (max_length - len suffix)) by lia.
    lia.
  - intros Hle.
    destruct (String.eqb_spec text EmptyString) as [-> | Hne]; [reflexivity |].
    destruct (Z.leb_spec (len text) max_length); [reflexivity | lia].
  - intros Hlong Hgt.
    destruct (String.eqb_spec text EmptyString) as [-> | Hne].
    + change (len EmptyString) with 0 in *. lia.
    + destruct (Z.leb_spec (len text) max_length); [lia |].
      rewrite len_append. pose proof (len_nonneg (slice_to (max_length - len suffix) text)).
      lia.
Qed.

End MaskAndTruncate.

Section FormatPhone.
Import Slices Formatters.

Lemma punctuation_is_no_digit :
  char_isdigit "(" = false /\ char_isdigit ")" = false /\ char_isdigit " " = false
  /\ char_isdigit "-" = false /\ char_isdigit "+" = false /\ char_isdigit "1" = true
  /\ char_isdigit "N" = false /\ char_isdigit "/" = false /\ char_isdigit "A" = false.
Proof. repeat split; reflexivity. Qed.

Ltac peel d Hl c :=
  destruct d as [| c d]; [discriminate Hl | apply eq_add_S in Hl].

Ltac split_all H :=
  cbn [str_all] in H;
  repeat (let Hc := fresh "Hc" in
          apply andb_true_iff in H; destruct H as [Hc H]).

(** The ten-digit layout keeps the digits. *)
Lemma layout_ten (d : string) :
  String.length d = 10%nat ->
  str_all char_isdigit d = true ->
  str_filter char_isdigit
    ("(" +:+ slice_to 3 d +:+ ") " +:+ slice 3 6 d +:+ "-" +:+ slice_from 6 d)
  = d.
Proof.
  intros Hl Hall.
  peel d Hl c0. peel d Hl c1. peel d Hl c2. peel d Hl c3. peel d Hl c4.
  peel d Hl c5. peel d Hl c6. peel d Hl c7. peel d Hl c8. peel d Hl c9.
  destruct d; [| discriminate Hl]. clear Hl.
  split_all Hall.
  destruct punctuation_is_no_digit as (Hl & Hr & Hs & Hm & _).
  cbv -[char_isdigit].
  repeat match goal with
         | H : char_isdigit _ = _ |- _ => rewrite H; clear H
         end.
  reflexivity.
Qed.

(** So does the eleven-digit layout, when the first digit is a one. *)
Lemma layout_eleven (d : string) :
  String.length d = 11%nat ->
  str_all char_isdigit d = true ->
  match d with String c _ => Ascii.eqb c "1" | EmptyString => false end = true ->
  str_filter char_isdigit
    ("+1 (" +:+ slice 1 4 d +:+ ") " +:+ slice 4 7 d +:+ "-" +:+ slice_from 7 d)
  = d.
Proof.
  intros Hl Hall Hone.
  peel d Hl c0. peel d Hl c1. peel d Hl c2. peel d Hl c3. peel d Hl c4.
  peel d Hl c5. peel d Hl c6. peel d Hl c7. peel d Hl c8. peel d Hl c9.
  peel d Hl c10.
  destruct d; [| discriminate Hl]. clear Hl.
  apply Ascii.eqb_eq in Hone. subst c0.
  split_all Hall.
  destruct punctuation_is_no_digit as (Hl & Hr & Hs & Hm & Hp & H1 & _).
  cbv -[char_isdigit].
  repeat match goal with
         | H : char_isdigit _ = _ |- _ => rewrite H; clear H
         end.
  reflexivity.
Qed.

Lemma len_eqb_length (s : string) (n : nat) :
  (len s =? Z.of_nat n) = true -> String.length s = n.
Proof. intros H. apply Z.eqb_eq in H. unfold len in H. lia. Qed.

Lemma format_phone_digits (phone : string) :
  str_filter char_isdigit (format_phone phone) = str_filter char_isdigit phone
  /\ format_phone phone <> EmptyString.
Proof.
  unfold format_phone.
  destruct (String.eqb_spec phone EmptyString) as [-> | Hne];
    [split; [reflexivity | discriminate] |].
  pose proof (str_all_filter char_isdigit phone) as Hall.
  destruct (len (str_filter char_isdigit phone) =? 10) eqn:H10.
  - split; [| discriminate].
    apply layout_ten; [| exact Hall]. apply (len_eqb_length _ 10), H10.
  - destruct (len (str_filter char_isdigit phone) =? 11) eqn:H11; cbn [andb];
      [| split; [reflexivity | exact Hne]].
    destruct (match str_filter char_isdigit phone with
              | String c _ => Ascii.eqb c "1"
              | EmptyString => false
              end) eqn:Hone; [| split; [reflexivity | exact Hne]].
    split; [| discriminate].
    apply layout_eleven; [| exact Hall | exact Hone].
    apply (len_eqb_length _ 11), H11.
Qed.

(** X26.  [format_phone] changes the punctuation of a number, never
    its digits: the digits of the result, in order, are those of the
    argument.  Formatting a second time changes nothing. *)
Theorem format_phone_keeps_digits (phone : string) :
  str_filter char_isdigit (format_phone phone) = str_filter char_isdigit phone
  /\ format_phone (format_phone phone) = format_phone phone.
Proof.
  destruct (format_phone_digits phone) as [Hd Hne].
  split; [exact Hd |].
  unfold format_phone at 1. rewrite Hd.
  destruct (String.eqb_spec (format_phone phone) EmptyString) as [He | _];
    [contradiction |].
  unfold format_phone.
  destruct (String.eqb_spec phone EmptyString) as [-> | Hp]; [reflexivity |].
  destruct (len (str_filter char_isdigit phone) =? 10); [reflexivity |].
  destruct ((len (str_filter char_isdigit phone) =? 11)
            && match str_filter char_isdigit phone with
               | String c _ => Ascii.eqb c "1"
               | EmptyString => false
               end); reflexivity.
Qed.

End FormatPhone.

Section Whitespace.
Import Slices Validators Sanitize.

(** [validate_merchant_id] does not see the whitespace around an
    identifier: an identifier and its stripped form get the same
    verdict and the same message. *)
Lemma validate_merchant_id_ignores_padding (merchant_id : string) :
  validate_merchant_id (strip merchant_id) = validate_merchant_id merchant_id.
Proof.
  unfold validate_merchant_id. rewrite strip_idempotent.
  destruct (String.eqb_spec merchant_id EmptyString) as [-> | Hne]; [reflexivity |].
  destruct (String.eqb_spec (strip merchant_id) EmptyString) as [He | Hs];
    reflexivity.
Qed.

Lemma sanitize_input_clean (text : string) :
  str_all (fun c => negb (Ascii.eqb "000" c)) (sanitize_input text) = true
  /\ strip (sanitize_input text) = sanitize_input text.
Proof.
  unfold sanitize_input.
  destruct (String.eqb text EmptyString); [split; reflexivity |].
  split; [apply str_all_strip, str_all_remove | apply strip_idempotent].
Qed.

(** X27.  What [sanitize_input] returns holds no NUL character and has
    no whitespace at either end, and sanitising it again gives it
    back unchanged. *)
Theorem sanitize_input_is_idempotent (text : string) :
  str_all (fun c => negb (Ascii.eqb "000" c)) (sanitize_input text) = true
  /\ strip (sanitize_input text) = sanitize_input text
  /\ sanitize_input (sanitize_input text) = sanitize_input text.
Proof.
  destruct (sanitize_input_clean text) as [Hnul Hstrip].
  split; [exact Hnul |]. split; [exact Hstrip |].
  unfold sanitize_input at 1.
  destruct (String.eqb_spec (sanitize_input text) EmptyString) as [He | _];
    [symmetry; exact He |].
  rewrite (str_remove_none _ _ Hnul). exact Hstrip.
Qed.

End Whitespace.

(* ===================================================================== *)
(** * The matcher and the language of a pattern *)
(* ===================================================================== *)

Section RegexFacts.
Import Regex RegexLang Slices.

Lemma append_eq_empty (a b : string) :
  a +:+ b = EmptyString -> a = EmptyString /\ b = EmptyString.
Proof. destruct a; [intros H; split; [reflexivity | exact H] | discriminate]. Qed.

Lemma matches_Void (s : string) : matches Void s <-> False.
Proof. split; [intros H; inversion H | contradiction]. Qed.

Lemma matches_Eps (s : string) : matches Eps s <-> s = EmptyString.
Proof. split; [intros H; inversion H; reflexivity | intros ->; constructor]. Qed.

Lemma matches_Cls (p : ascii -> bool) (s : string) :
  matches (Cls p) s <-> exists c, s = String c EmptyString /\ p c = true.
Proof.
  split.
  - intros H. inversion H; subst. eauto.
  - intros (c & -> & Hc). constructor. exact Hc.
Qed.

Lemma matches_Cat (r1 r2 : regex) (s : string) :
  matches (Cat r1 r2) s
  <-> exists s1 s2, s = s1 +:+ s2 /\ matches r1 s1 /\ matches r2 s2.
Proof.
  split.
  - intros H. inversion H; subst. eauto.
  - intros (s1 & s2 & -> & H1 & H2). constructor; assumption.
Qed.

Lemma matches_Alt (r1 r2 : regex) (s : string) :
  matches (Alt r1 r2) s <-> matches r1 s \/ matches r2 s.
Proof.
  split.
  - intros H. inversion H; subst; auto.
  - intros [H | H]; [apply MAltL | apply MAltR]; exact H.
Qed.

Lemma matches_Cat_Eps_l (r : regex) (s : string) :
  matches (Cat Eps r) s <-> matches r s.
Proof.
  rewrite matches_Cat. split.
  - intros (s1 & s2 & -> & H1 & H2). apply matches_Eps in H1. subst s1. exact H2.
  - intros H. exists EmptyString, s. repeat split; [constructor | exact H].
Qed.

Lemma matches_Cat_Eps_r (r : regex) (s : string) :
  matches (Cat r Eps) s <-> matches r s.
Proof.
  rewrite matches_Cat. split.
  - intros (s1 & s2 & -> & H1 & H2). apply matches_Eps in H2. subst s2.
    rewrite append_empty_r. exact H1.
  - intros H. exists s, EmptyString. rewrite append_empty_r.
    repeat split; [exact H | constructor].
Qed.

Lemma matches_Cat_Void_l (r : regex) (s : string) : matches (Cat Void r) s <-> False.
Proof.
  rewrite matches_Cat. split; [| contradiction].
  intros (s1 & s2 & _ & H1 & _). inversion H1.
Qed.

Lemma matches_Cat_Void_r (r : regex) (s : string) : matches (Cat r Void) s <-> False.
Proof.
  rewrite matches_Cat. split; [| contradiction].
  intros (s1 & s2 & _ & _ & H2). inversion H2.
Qed.

Lemma matches_cat (r1 r2 : regex) (s : string) :
  matches (cat r1 r2) s <-> matches (Cat r1 r2) s.
Proof.
  destruct r1, r2; cbn [cat];
    rewrite ?matches_Cat_Void_l, ?matches_Cat_Void_r, ?matches_Cat_Eps_l,
      ?matches_Cat_Eps_r, ?matches_Void; reflexivity.
Qed.

Lemma matches_alt (r1 r2 : regex) (s : string) :
  matches (alt r1 r2) s <-> matches (Alt r1 r2) s.
Proof.
  destruct r1, r2; cbn [alt]; rewrite ?matches_Alt, ?matches_Void; tauto.
Qed.

Lemma nullable_matches (r : regex) : nullable r = true <-> matches r EmptyString.
Proof.
  induction r as [| | p | r1 IH1 r2 IH2 | r1 IH1 r2 IH2 | r IH]; cbn [nullable].
  - rewrite matches_Void. split; [discriminate | contradiction].
  - rewrite matches_Eps. split; reflexivity.
  - rewrite matches_Cls. split; [discriminate |]. intros (c & H & _). discriminate.
  - rewrite andb_true_iff, IH1, IH2, matches_Cat. split.
    + intros [H1 H2]. exists EmptyString, EmptyString. auto.
    + intros (s1 & s2 & Heq & H1 & H2). symmetry in Heq.
      apply append_eq_empty in Heq. destruct Heq as [-> ->]. auto.
  - rewrite orb_true_iff, IH1, IH2, matches_Alt. reflexivity.
  - split; [intros _; constructor | reflexivity].
Qed.

Lemma matches_Star_cons (r : regex) (c : ascii) (s : string) :
  matches (Star r) (String c s)
  -> exists s1 s2, s = s1 +:+ s2 /\ matches r (String c s1) /\ matches (Star r) s2.
Proof.
  intros H. remember (Star r) as r0 eqn:Hr. remember (String c s) as w eqn:Hw.
  revert s Hw.
  induction H as [| | | | | | r' s1 s2 H1 _ H2 IH2]; try discriminate.
  injection Hr as ->. intros s Hw.
  destruct s1 as [| c1 s1].
  - apply (IH2 eq_refl s Hw).
  - rewrite append_cons in Hw. injection Hw as -> <-. eauto.
Qed.

Lemma deriv_matches (c : ascii) (r : regex) (s : string) :
  matches (deriv c r) s <-> matches r (String c s).
Proof.
  revert s.
  induction r as [| | p | r1 IH1 r2 IH2 | r1 IH1 r2 IH2 | r IH]; intros s;
    cbn [deriv].
  - rewrite !matches_Void. reflexivity.
  - rewrite matches_Void, matches_Eps. split; [contradiction | discriminate].
  - rewrite matches_Cls. destruct (p c) eqn:Hc.
    + rewrite matches_Eps. split.
      * intros ->. eauto.
      * intros (c' & [= -> ->] & _). reflexivity.
    + rewrite matches_Void. split; [contradiction |].
      intros (c' & [= -> ->] & Hc'). congruence.
  - assert (Hcat : matches (cat (deriv c r1) r2) s
                   <-> exists s1 s2, s = s1 +:+ s2
                                     /\ matches r1 (String c s1) /\ matches r2 s2).
    { rewrite matches_cat, matches_Cat. split.
      - intros (s1 & s2 & -> & H1 & H2). apply IH1 in H1. eauto.
      - intros (s1 & s2 & -> & H1 & H2). apply IH1 in H1. eauto. }
    rewrite (matches_Cat r1 r2 (String c s)).
    destruct (nullable r1) eqn:Hn.
    + rewrite matches_alt, matches_Alt, Hcat, IH2. split.
      * intros [(s1 & s2 & -> & H1 & H2) | H2].
        -- exists (String c s1), s2. rewrite append_cons. auto.
        -- exists EmptyString, (String c s). split; [reflexivity |].
           split; [apply nullable_matches, Hn | exact H2].
      * intros (t1 & t2 & Heq & H1 & H2). destruct t1 as [| c1 t1].
        -- right. rewrite append_nil in Heq. subst t2. exact H2.
        -- left. rewrite append_cons in Heq. injection Heq as <- ->. eauto.
    + rewrite Hcat. split.
      * intros (s1 & s2 & -> & H1 & H2).
        exists (String c s1), s2. rewrite append_cons. auto.
      * intros (t1 & t2 & Heq & H1 & H2). destruct t1 as [| c1 t1].
        -- apply nullable_matches in H1. congruence.
        -- rewrite append_cons in Heq. injection Heq as <- ->. eauto.
  - rewrite matches_alt, !matches_Alt, IH1, IH2. reflexivity.
  - rewrite matches_cat, matches_Cat. split.
    + intros (s1 & s2 & -> & H1 & H2). apply IH in H1.
      change (String c (s1 +:+ s2)) with (String c s1 +:+ s2).
      apply MStarCons; assumption.
    + intros H. apply matches_Star_cons in H.
      destruct H as (s1 & s2 & -> & H1 & H2). apply IH in H1. eauto.
Qed.

(** The matcher accepts exactly the words of the pattern. *)
Lemma fullmatch_matches (r : regex) (s : string) :
  fullmatch r s = true <-> matches r s.
Proof.
  revert r. induction s as [| c s IH]; intros r; cbn [fullmatch].
  - apply nullable_matches.
  - rewrite IH. apply deriv_matches.
Qed.

(** ** Counted repetitions of a character class *)

Lemma matches_Rep_Cls (n : nat) (p : ascii -> bool) (s : string) :
  matches (Rep n (Cls p)) s <-> String.length s = n /\ str_all p s = true.
Proof.
  revert s. induction n as [| n IH]; intros s; cbn [Rep].
  - rewrite matches_Eps. split.
    + intros ->. split; reflexivity.
    + intros [Hl _]. destruct s; [reflexivity | discriminate].
  - rewrite matches_Cat. split.
    + intros (s1 & s2 & -> & H1 & H2). apply matches_Cls in H1.
      destruct H1 as (c & -> & Hc). apply IH in H2. destruct H2 as [Hl Hall].
      rewrite append_cons, append_nil. cbn. rewrite Hl, Hc, Hall. split; reflexivity.
    + intros [Hl Hall]. destruct s as [| c s]; [discriminate |].
      cbn in Hl, Hall. apply andb_true_iff in Hall. destruct Hall as [Hc Hall].
      exists (String c EmptyString), s. split; [reflexivity |].
      split; [constructor; exact Hc |]. apply IH. split; [lia | exact Hall].
Qed.

Lemma matches_UpTo_Cls (n : nat) (p : ascii -> bool) (s : string) :
  matches (UpTo n (Cls p)) s <-> (String.length s <= n)%nat /\ str_all p s = true.
Proof.
  revert s. induction n as [| n IH]; intros s; cbn [UpTo].
  - rewrite matches_Eps. split.
    + intros ->. split; [cbn; lia | reflexivity].
    + intros [Hl _]. destruct s; [reflexivity | cbn in Hl; lia].
  - unfold Opt. rewrite matches_Alt, matches_Eps, matches_Cat. split.
    + intros [-> | (s1 & s2 & -> & H1 & H2)]; [split; [cbn; lia | reflexivity] |].
      apply matches_Cls in H1. destruct H1 as (c & -> & Hc).
      apply IH in H2. destruct H2 as [Hl Hall].
      rewrite append_cons, append_nil. cbn. rewrite Hc, Hall. split; [lia | reflexivity].
    + intros [Hl Hall]. destruct s as [| c s]; [left; reflexivity | right].
      cbn in Hl, Hall. apply andb_true_iff in Hall. destruct Hall as [Hc Hall].
      exists (String c EmptyString), s. split; [reflexivity |].
      split; [constructor; exact Hc |]. apply IH. split; [lia | exact Hall].
Qed.

Lemma str_all_take (p : ascii -> bool) (n : nat) (s : string) :
  str_all p s = true -> str_all p (str_take n s) = true.
Proof.
  revert s. induction n as [| n IH]; intros [| c s]; cbn; try reflexivity.
  intros H. apply andb_true_iff in H. destruct H as [Hc Hs].
  rewrite Hc, (IH s Hs). reflexivity.
Qed.

Lemma str_all_drop (p : ascii -> bool) (n : nat) (s : string) :
  str_all p s = true -> str_all p (str_drop n s) = true.
Proof.
  revert s. induction n as [| n IH]; intros [| c s]; cbn; try reflexivity;
    try (intros H; exact H).
  intros H. apply andb_true_iff in H. apply IH, H.
Qed.

(** [p{n,n+m}] *)
Lemma matches_between (n m : nat) (p : ascii -> bool) (s : string) :
  matches (Cat (Rep n (Cls p)) (UpTo m (Cls p))) s
  <-> (n <= String.length s <= n + m)%nat /\ str_all p s = true.
Proof.
  rewrite matches_Cat. split.
  - intros (s1 & s2 & -> & H1 & H2).
    apply matches_Rep_Cls in H1. apply matches_UpTo_Cls in H2.
    destruct H1 as [Hl1 Ha1], H2 as [Hl2 Ha2].
    rewrite length_append, str_all_append, Ha1, Ha2. split; [lia | reflexivity].
  - intros [Hl Hall]. exists (str_take n s), (str_drop n s).
    split; [symmetry; apply str_take_drop |]. split.
    + apply matches_Rep_Cls. rewrite length_str_take.
      split; [lia | apply str_all_take, Hall].
    + apply matches_UpTo_Cls. rewrite length_str_drop.
      split; [lia | apply str_all_drop, Hall].
Qed.

(** ** The end anchor *)

Lemma chop_newline_append (s : string) :
  chop_newline (s +:+ String "010" EmptyString) = Some s.
Proof.
  induction s as [| c s IH]; [reflexivity |].
  rewrite append_cons.
  change (chop_newline (String c (s +:+ String "010" EmptyString)))
    with (match s +:+ String "010" EmptyString with
          | EmptyString => if Ascii.eqb c "010" then Some EmptyString else None
          | _ => option_map (String c) (chop_newline (s +:+ String "010" EmptyString))
          end).
  rewrite IH. destruct s; reflexivity.
Qed.

Lemma chop_newline_none (s : string) :
  str_all (fun c => negb (char_isspace c)) s = true -> chop_newline s = None.
Proof.
  induction s as [| c s IH]; [reflexivity |].
  cbn [str_all]. intros H. apply andb_true_iff in H. destruct H as [Hc Hs].
  specialize (IH Hs). destruct s as [| d s].
  - cbn. destruct (Ascii.eqb_spec c "010") as [-> | _]; [discriminate Hc | reflexivity].
  - change (chop_newline (String c (String d s)))
      with (option_map (String c) (chop_newline (String d s))).
    rewrite IH. reflexivity.
Qed.

End RegexFacts.

(* ===================================================================== *)
(** * What the validators accept *)
(* ===================================================================== *)

Section PhoneAndEmail.
Import Regex RegexLang Slices Validators.

Lemma separator_is_no_decimal (c : ascii) :
  phone_separator c = true -> negb (char_isdecimal c) = true.
Proof.
  destruct c as [[] [] [] [] [] [] [] []]; vm_compute; intros H;
    first [reflexivity | discriminate H].
Qed.

Lemma space_is_separator (c : ascii) :
  negb (phone_separator c) = true -> negb (char_isspace c) = true.
Proof.
  unfold phone_separator. destruct (char_isspace c); [discriminate | reflexivity].
Qed.

Lemma cleaned_has_no_space (phone : string) :
  str_all (fun c => negb (char_isspace c)) (str_remove phone_separator phone) = true.
Proof.
  apply (str_all_weaken (fun c => negb (phone_separator c))).
  - exact space_is_separator.
  - apply str_all_remove.
Qed.

Lemma matches_phone_pattern (s : string) :
  matches phone_pattern s
  <-> exists sign body,
        s = sign +:+ body
        /\ (sign = EmptyString \/ sign = "+")
        /\ str_all char_isdecimal body = true
        /\ (10 <= String.length body <= 15)%nat.
Proof.
  unfold phone_pattern, Opt, Chr. rewrite matches_Cat. split.
  - intros (s1 & s2 & -> & H1 & H2).
    apply matches_between in H2. destruct H2 as [Hl Hall].
    exists s1, s2. split; [reflexivity |]. split; [| split; [exact Hall | lia]].
    apply matches_Alt in H1. destruct H1 as [H1 | H1].
    + left. apply matches_Eps, H1.
    + right. apply matches_Cls in H1. destruct H1 as (c & -> & Hc).
      apply Ascii.eqb_eq in Hc. subst c. reflexivity.
  - intros (sign & body & -> & Hsign & Hall & Hl).
    exists sign, body. split; [reflexivity |]. split.
    + apply matches_Alt. destruct Hsign as [-> | ->].
      * left. constructor.
      * right. constructor. reflexivity.
    + apply matches_between. split; [lia | exact Hall].
Qed.

Lemma validate_phone_matches (phone : string) :
  fst (validate_phone phone) = true
  <-> matches phone_pattern (str_remove phone_separator phone).
Proof.
  unfold validate_phone.
  destruct (String.eqb_spec phone EmptyString) as [-> | Hne].
  - cbn [fst str_remove]. split; [discriminate |].
    intros H. apply matches_phone_pattern in H.
    destruct H as (sign & body & Heq & _ & _ & Hl).
    symmetry in Heq. apply append_eq_empty in Heq. destruct Heq as [_ ->].
    cbn in Hl. lia.
  - unfold re_match.
    rewrite (chop_newline_none _ (cleaned_has_no_space phone)), orb_false_r.
    rewrite <- fullmatch_matches.
    destruct (fullmatch phone_pattern (str_remove phone_separator phone));
      cbn; split; congruence.
Qed.

(** X28.  [validate_phone] accepts a number exactly when what is left
    of it after the spaces, hyphens, parentheses and dots are taken
    out is an optional [+] followed by ten to fifteen decimal digits. *)
Theorem validate_phone_accepts_exactly (phone : string) :
  fst (validate_phone phone) = true
  <-> exists sign body,
        str_remove phone_separator phone = sign +:+ body
        /\ (sign = EmptyString \/ sign = "+")
        /\ str_all char_isdecimal body = true
        /\ 10 <= len body <= 15.
Proof.
  rewrite validate_phone_matches, matches_phone_pattern. unfold len.
  split; intros (sign & body & Heq & Hsign & Hall & Hl);
    exists sign, body; repeat split; try assumption; lia.
Qed.

(** X29.  The two phone checks of the code base agree in one
    direction: a number that [validators.validate_phone] accepts is
    accepted by [DataProtection.validate_phone] as well. *)
Theorem phone_validators_agree (phone : string) :
  fst (validate_phone phone) = true ->
  DataProtection.validate_phone phone = true.
Proof.
  intros H. apply validate_phone_matches, matches_phone_pattern in H.
  destruct H as (sign & body & Heq & Hsign & Hall & Hl).
  unfold DataProtection.validate_phone.
  rewrite <- (str_remove_absorb phone_separator _ phone separator_is_no_decimal).
  rewrite Heq, str_remove_append.
  assert (Hs : str_remove (fun c => negb (char_isdecimal c)) sign = EmptyString)
    by (destruct Hsign as [-> | ->]; reflexivity).
  assert (Hb : str_remove (fun c => negb (char_isdecimal c)) body = body).
  { apply str_remove_none.
    apply (str_all_weaken char_isdecimal); [| exact Hall].
    intros c Hc. rewrite Hc. reflexivity. }
  rewrite Hs, Hb, append_nil.
  apply andb_true_iff. unfold len. split; apply Z.leb_le; lia.
Qed.

Lemma phone_validators_agree_witness :
  DataProtection.validate_phone "+1 (555) 123-4567" = true.
Proof. exact (phone_validators_agree "+1 (555) 123-4567" eq_refl). Defined.

(** The converse does not hold. *)
Example phone_validators_differ :
  DataProtection.validate_phone "call 555 123 4567 now" = true
  /\ fst (validate_phone "call 555 123 4567 now") = false.
Proof. split; reflexivity. Qed.

Lemma nonempty_append (a b : string) :
  String.eqb a EmptyString = false -> String.eqb (a +:+ b) EmptyString = false.
Proof. destruct a; [discriminate | reflexivity]. Qed.

(** X30.  The pattern of [validate_email] ends in [$], which also
    matches just before a line feed that ends the string: an address
    that [validate_email] accepts is still accepted with a line feed
    appended to it, as long as it stays within 254 characters. *)
Theorem validate_email_accepts_trailing_newline (email : string) :
  fst (validate_email email) = true ->
  chop_newline email = None ->
  len email < 254 ->
  fst (validate_email (email +:+ String "010" EmptyString)) = true.
Proof.
  unfold validate_email. intros H Hchop Hlen.
  destruct (String.eqb email EmptyString) eqn:He; [discriminate H |].
  destruct (re_match email_pattern email) eqn:Hm; [| discriminate H].
  unfold re_match in Hm. rewrite Hchop, orb_false_r in Hm.
  rewrite (nonempty_append _ _ He).
  unfold re_match. rewrite chop_newline_append, Hm, orb_true_r. cbn [negb].
  rewrite len_append. change (len (String "010" EmptyString)) with 1.
  destruct (Z.gtb_spec (len email + 1) 254); [lia | reflexivity].
Qed.

Lemma validate_email_accepts_trailing_newline_witness :
  fst (validate_email ("owner@example.com" +:+ String "010" EmptyString)) = true.
Proof.
  exact (validate_email_accepts_trailing_newline "owner@example.com"
           eq_refl eq_refl eq_refl).
Defined.

End PhoneAndEmail.
